(** * FMP: a thin client for the Financial Modeling Prep web API

    Shallow embedding of [src/FMP.py] and the properties of its error
    handling, frame effects and table transformations.

    The Python code is embedded in a state-and-exception monad: the state
    ([world]) holds the store of Python list objects, the log of HTTP GET
    requests and the lines printed; a computation finishes with a value
    ([Ok]) or with a raised exception ([Raise]).  The HTTP server is a
    fixture: a function from URLs to responses.  The pandas operations the
    client calls are modelled on tables of dynamically typed cells, with
    numbers as IEEE 754 doubles; where the versions of pandas differ on the
    data the client sends them (pandas 1.5, 2.0 and 2.2 are covered), the
    difference is a parameter of the model. *)

From Stdlib Require Import ZArith String Ascii List Bool Lia Permutation Sorted.
From Stdlib Require Import PrimFloat.
From stdpp Require Import gmap.
Import ListNotations.
Open Scope string_scope.
Open Scope list_scope.

(** ** Python values, exceptions and effects *)

Module Py.

(** The exceptions the client can surface.  [JSONDecodeError] is what
    [response.json()] raises on a body that is not JSON (a subclass of
    [ValueError] in the json library, kept apart here).  [PandasError]
    stands for an exception pandas raises on data outside the shapes
    modelled below; its class is left open. *)
Inductive exn :=
| TypeError
| ValueError
| KeyError
| ConnectionError
| JSONDecodeError
| PandasError.

Inductive result (A : Type) :=
| Ok (a : A)
| Raise (e : exn).
Arguments Ok {A} a.
Arguments Raise {A} e.

(** The objects passed as [ticker], [compare_with_index] and returned by
    [__init__]: [None] or a [str]. *)
Inductive obj :=
| PNone
| PStr (s : string).

(** [str(o)], as an f-string formats it. *)
Definition str (o : obj) : string :=
  match o with
  | PNone => "None"
  | PStr s => s
  end.

(** [o != None] *)
Definition is_not_None (o : obj) : bool :=
  match o with
  | PNone => false
  | PStr _ => true
  end.

End Py.
Export Py.

(** ** JSON documents *)

(** A decoded JSON document.  A number is held as the IEEE 754 double
    Python's float has for it: [nan] and the infinities, which
    [response.json()] accepts, are among them, and an integer stands as the
    double nearest to it.  An object keeps its members in document order
    (Python dicts are insertion ordered); lookup takes the first member with
    the key. *)
#[warnings="-register-all"]
Inductive json :=
| JNull
| JBool (b : bool)
| JNum (f : float)
| JStr (s : string)
| JArr (l : list json)
| JObj (l : list (string * json)).

Fixpoint assoc {A : Type} (k : string) (l : list (string * A)) : option A :=
  match l with
  | [] => None
  | (k', v) :: l' => if String.eqb k k' then Some v else assoc k l'
  end.

(** [j == {}] *)
Definition json_is_empty_dict (j : json) : bool :=
  match j with
  | JObj [] => true
  | _ => false
  end.

(** [j[key]] for a string key: a dict looks the key up ([KeyError] when
    absent); a list or a string takes integer indices only and [None],
    numbers and booleans are not subscriptable (all [TypeError]). *)
Definition json_getitem (j : json) (key : string) : result json :=
  match j with
  | JObj l =>
      match assoc key l with
      | Some v => Ok v
      | None => Raise KeyError
      end
  | _ => Raise TypeError
  end.

(** ** The world: list objects, HTTP traffic, printed lines *)

(** What [requests.get] returns: the status code and the body, [None] when
    the body does not decode as JSON. *)
Record response := mkResponse {
  status_code : Z;
  body : option json
}.

(** The lines the client prints. *)
Inductive line :=
| LineResponse (j : json)        (* print('Response for API is', response.json()) *)
| LineEmpty (ticker : obj).      (* print(f'{self._ticker} is empty when retrieving data') *)

Record world := mkWorld {
  heap : gmap nat (list string);   (* Python list objects, by address *)
  http_log : list string;          (* URLs requested with GET, oldest first *)
  stdout : list line               (* printed lines, oldest first *)
}.

(** The remote API: the response it gives to a GET on each URL. *)
Definition server := string -> response.

(** Computations: state passing with exceptions. *)
Definition M (A : Type) : Type := world -> result A * world.

Definition ret {A} (a : A) : M A := fun w => (Ok a, w).
Definition raise {A} (e : exn) : M A := fun w => (Raise e, w).
Definition bind {A B} (m : M A) (k : A -> M B) : M B :=
  fun w =>
    match m w with
    | (Ok a, w') => k a w'
    | (Raise e, w') => (Raise e, w')
    end.
Definition lift {A} (r : result A) : M A := fun w => (r, w).

Declare Scope py_scope.
Delimit Scope py_scope with py.
Notation "'let*' x ':=' m 'in' k" := (bind m (fun x => k))
  (at level 10, x name, m at level 100, k at level 200) : py_scope.
Notation "'do' m 'then' k" := (bind m (fun _ => k))
  (at level 10, m at level 100, k at level 200) : py_scope.
Open Scope py_scope.

(** [requests.get(url)]: one GET, logged. *)
Definition requests_get (net : server) (url : string) : M response :=
  fun w => (Ok (net url),
            mkWorld (heap w) (http_log w ++ [url]) (stdout w)).

(** [response.json()] *)
Definition response_json (r : response) : M json :=
  match body r with
  | Some j => ret j
  | None => raise JSONDecodeError
  end.

Definition print (l : line) : M unit :=
  fun w => (Ok tt, mkWorld (heap w) (http_log w) (stdout w ++ [l])).

(** List objects: [l.append(x)] and reading the elements of [l]. *)
Definition list_append (l : nat) (x : string) : M unit :=
  fun w =>
    match heap w !! l with
    | Some xs => (Ok tt, mkWorld (<[l := xs ++ [x]]> (heap w)) (http_log w) (stdout w))
    | None => (Raise TypeError, w)
    end.

Definition list_read (l : nat) : M (list string) :=
  fun w =>
    match heap w !! l with
    | Some xs => (Ok xs, w)
    | None => (Raise TypeError, w)
    end.

(** ** The client object *)

Record FMP := mkFMP {
  _key : string;
  _ticker : obj
}.

(** [FMP.__init__]: stores both attributes and returns [self._ticker]. *)
Definition FMP__init__ (key : string) (ticker : obj) : FMP * obj :=
  let self := mkFMP key ticker in
  (self, _ticker self).

(** The default of the [ticker] parameter: the string ['None']. *)
Definition default_ticker : obj := PStr "None".

(** Instantiation [FMP(key, ticker)]: Python calls [__init__] on the fresh
    object and raises [TypeError] unless it returned [None]. *)
Definition FMP_new (key : string) (ticker : obj) : result FMP :=
  match FMP__init__ key ticker with
  | (self, PNone) => Ok self
  | (_, PStr _) => Raise TypeError
  end.

(** ** Calendar dates *)

(** A calendar date.  The daily endpoint sends dates as ['YYYY-MM-DD']
    strings; pandas turns them into timestamps at midnight, which carry no
    more than the date. *)
Record date := mkDate {
  year : Z;
  month : Z;
  day : Z
}.

Definition date_eqb (a b : date) : bool :=
  (year a =? year b)%Z && (month a =? month b)%Z && (day a =? day b)%Z.

(** Chronological order: by year, then month, then day. *)
Definition date_compare (a b : date) : comparison :=
  match (year a ?= year b)%Z with
  | Eq => match (month a ?= month b)%Z with
          | Eq => (day a ?= day b)%Z
          | c => c
          end
  | c => c
  end.

Definition date_leb (a b : date) : bool :=
  match date_compare a b with
  | Gt => false
  | _ => true
  end.

Definition is_leap (y : Z) : bool :=
  ((y mod 4 =? 0) && (negb (y mod 100 =? 0) || (y mod 400 =? 0)))%Z.

Definition days_in_month (y m : Z) : Z :=
  if (m =? 2)%Z then (if is_leap y then 29 else 28)%Z
  else if ((m =? 4) || (m =? 6) || (m =? 9) || (m =? 11))%Z then 30%Z
  else 31%Z.

Definition valid_date (d : date) : bool :=
  ((1 <=? month d) && (month d <=? 12) &&
   (1 <=? day d) && (day d <=? days_in_month (year d) (month d)))%Z.

(** Days since 1970-01-01 in the proleptic Gregorian calendar. *)
Definition days_from_civil (d : date) : Z :=
  (let y := if month d <=? 2 then year d - 1 else year d in
   let era := y / 400 in
   let yoe := y - era * 400 in
   let mp := (month d + 9) mod 12 in
   let doy := (153 * mp + 2) / 5 + day d - 1 in
   let doe := yoe * 365 + yoe / 4 - yoe / 100 + doy in
   era * 146097 + doe - 719468)%Z.

(** Day of the week, Monday = 0 (1970-01-01 was a Thursday). *)
Definition weekday (d : date) : Z := ((days_from_civil d + 3) mod 7)%Z.

Definition prev_day (d : date) : date :=
  if (1 <? day d)%Z then mkDate (year d) (month d) (day d - 1)
  else if (1 <? month d)%Z
       then mkDate (year d) (month d - 1) (days_in_month (year d) (month d - 1))
       else mkDate (year d - 1) 12 31.

(** The Monday that opens the week of [d] (pandas' weekly periods end on
    Sunday). *)
Definition week_start (d : date) : date :=
  Nat.iter (Z.to_nat (weekday d)) prev_day d.

Definition month_start (d : date) : date := mkDate (year d) (month d) 1.

Definition quarter_start (d : date) : date :=
  mkDate (year d) (3 * ((month d - 1) / 3) + 1) 1.

Definition year_start (d : date) : date := mkDate (year d) 1 1.

(** *** Reading ['YYYY-MM-DD'] *)

Definition digit_of_ascii (c : ascii) : option Z :=
  let n := Z.of_N (N_of_ascii c) in
  if ((48 <=? n) && (n <=? 57))%Z then Some (n - 48)%Z else None.

Definition num2 (a b : ascii) : option Z :=
  match digit_of_ascii a, digit_of_ascii b with
  | Some x, Some y => Some (10 * x + y)%Z
  | _, _ => None
  end.

Definition num4 (a b c d : ascii) : option Z :=
  match num2 a b, num2 c d with
  | Some x, Some y => Some (100 * x + y)%Z
  | _, _ => None
  end.

(** The fields of a string of the shape [dddd-dd-dd], whatever their
    values. *)
Definition iso_fields (s : string) : option date :=
  match s with
  | String y1 (String y2 (String y3 (String y4 (String "-"
      (String m1 (String m2 (String "-" (String d1 (String d2 EmptyString))))))))) =>
      match num4 y1 y2 y3 y4, num2 m1 m2, num2 d1 d2 with
      | Some y, Some m, Some d => Some (mkDate y m d)
      | _, _, _ => None
      end
  | _ => None
  end.

(** Timestamps are 64-bit nanosecond counts: midnights from 1677-09-22 to
    2262-04-11 are representable. *)
Definition timestamp_in_bounds (d : date) : bool :=
  date_leb (mkDate 1677 9 22) d && date_leb d (mkDate 2262 4 11).

(** ** Tables *)

(** Period frequencies: daily, weekly (ending on Sunday), monthly, quarterly,
    yearly, and any other frequency string pandas may know. *)
Inductive freq :=
| FD
| FW
| FM
| FQ
| FY
| FOther (s : string).

Definition freq_eqb (f g : freq) : bool :=
  match f, g with
  | FD, FD | FW, FW | FM, FM | FQ, FQ | FY, FY => true
  | FOther s, FOther t => String.eqb s t
  | _, _ => false
  end.

(** The value in one cell of a table. *)
Inductive cell :=
| CNaN                          (* NaN, None, NaT: a missing value *)
| CNum (f : float)              (* a double other than NaN *)
| CStr (s : string)
| CBool (b : bool)
| CObj (j : json)               (* a nested list or dict *)
| CInt (z : Z)                  (* int64 *)
| CTime (d : date)              (* Timestamp at midnight *)
| CPeriod (f : freq) (start : date).   (* Period, by its first day *)

(** The cell of a double: NaN is the missing value. *)
Definition cell_of_float (f : float) : cell :=
  if PrimFloat.is_nan f then CNaN else CNum f.

Definition cell_of_json (j : json) : cell :=
  match j with
  | JNull => CNaN
  | JBool b => CBool b
  | JNum f => cell_of_float f
  | JStr s => CStr s
  | JArr _ | JObj _ => CObj j
  end.

(** Equality of the values [drop_duplicates] and [merge] compare; missing
    values count as equal to each other. *)
Definition cell_eqb (a b : cell) : bool :=
  match a, b with
  | CNaN, CNaN => true
  | CNum p, CNum q => PrimFloat.eqb p q
  | CStr s, CStr t => String.eqb s t
  | CBool s, CBool t => Bool.eqb s t
  | CInt y, CInt z => (y =? z)%Z
  | CTime d, CTime e => date_eqb d e
  | CPeriod f d, CPeriod g e => freq_eqb f g && date_eqb d e
  | _, _ => false
  end.

(** The cell a record gives for a key: a missing value when it lacks the
    key. *)
Definition cell_at (r : list (string * json)) (k : string) : cell :=
  match assoc k r with
  | Some j => cell_of_json j
  | None => CNaN
  end.

Definition is_na (c : cell) : bool :=
  match c with
  | CNaN => true
  | _ => false
  end.

(** A table: the name of the index, the column labels, and the rows, each
    with its index label and one cell per column. *)
Record DataFrame := mkDF {
  index_name : option string;
  columns : list string;
  rows : list (cell * list cell)
}.

Definition index (df : DataFrame) : list cell := map fst (rows df).

Fixpoint col_index (name : string) (cols : list string) : option nat :=
  match cols with
  | [] => None
  | c :: cols' =>
      if String.eqb name c then Some 0%nat
      else option_map S (col_index name cols')
  end.

Definition has_column (name : string) (df : DataFrame) : bool :=
  existsb (String.eqb name) (columns df).

Definition row_cell (i : nat) (r : cell * list cell) : cell := nth i (snd r) CNaN.

(** The cells of a column, top to bottom, when the label exists. *)
Definition column (name : string) (df : DataFrame) : option (list cell) :=
  match col_index name (columns df) with
  | Some i => Some (map (row_cell i) (rows df))
  | None => None
  end.

(** *** Percent changes *)

Definition is_numeric (c : cell) : bool :=
  match c with
  | CNaN | CNum _ => true
  | _ => false
  end.

(** One entry of [pct_change] on a column of doubles: [cur / prev - 1] in
    IEEE 754 binary64 arithmetic, rounded to nearest after the division and
    after the subtraction; missing when an operand is, or when the result
    is NaN. *)
Definition pct_cell (cur prev : cell) : cell :=
  match cur, prev with
  | CNum x, CNum y => cell_of_float (PrimFloat.sub (PrimFloat.div x y) 1%float)
  | _, _ => CNaN
  end.

(** [fillna(method='pad')]: a missing value takes the last value before
    it. *)
Fixpoint ffill_from (last : cell) (s : list cell) : list cell :=
  match s with
  | [] => []
  | c :: s' =>
      if is_na c then last :: ffill_from last s'
      else c :: ffill_from c s'
  end.

Definition ffill (s : list cell) : list cell := ffill_from CNaN s.

(** [s.shift(1)] *)
Definition shift1 (s : list cell) : list cell := CNaN :: removelast s.

(** Stable insertion sort. *)
Fixpoint insert_by {A : Type} (leb : A -> A -> bool) (x : A) (l : list A) : list A :=
  match l with
  | [] => [x]
  | y :: l' => if leb x y then x :: l else y :: insert_by leb x l'
  end.

Definition sort_by {A : Type} (leb : A -> A -> bool) (l : list A) : list A :=
  fold_right (insert_by leb) [] l.

(** The rows kept by [drop_duplicates(keep='first')]: those whose key equals
    the key of no earlier row. *)
Fixpoint drop_dups {A : Type} (key : A -> cell) (seen : list cell) (l : list A) : list A :=
  match l with
  | [] => []
  | x :: l' =>
      if existsb (cell_eqb (key x)) seen then drop_dups key seen l'
      else x :: drop_dups key (key x :: seen) l'
  end.

(** ** The pandas operations the client calls *)

Module pd.

(** What [astype('datetime64[M]')] does to a column of nanosecond
    timestamps, by the pandas at hand: pandas 1.5 accepts the cast and
    leaves every timestamp as it is; pandas 2.0 and 2.2 refuse it with a
    [TypeError]. *)
Inductive month_cast :=
| CastKeeps
| CastRefused.

(** The order of the keys of an outer merge, by the pandas at hand: pandas
    1.5 and 2.0 keep the keys of the left table in their order and put the
    keys only the right table has after them; pandas 2.2 sorts the keys, as
    the documentation of [merge] has it. *)
Inductive merge_order :=
| LeftThenRight
| SortedKeys.

(** What [merge] does with a suffix that makes two labels of one side
    equal, by the pandas at hand: pandas 1.5 warns and keeps both labels;
    pandas 2.0 and 2.2 refuse it ([MergeError], a [ValueError]). *)
Inductive suffix_clash :=
| ClashKept
| ClashRefused.

(** The pandas the client runs on.  What pandas does outside the shapes of
    data modelled below is left open: each [_other] field gives the value
    pandas computes there, or [None] when it raises.  The last three fields
    are the points where the supported versions of pandas differ on the
    data the client sends them.  Every definition and theorem is parametric
    in this record. *)
Record ext := mkExt {
  from_dict_other : json -> option DataFrame;
  insert_other : json -> DataFrame -> option DataFrame;
  sort_values_other : string -> DataFrame -> option DataFrame;
  pct_change_other : list cell -> option (list cell);
  to_datetime_other : cell -> option date;
  period_other : string -> option (date -> date);
  merge_other : DataFrame -> DataFrame -> option DataFrame;
  start_time_other : cell -> option cell;
  cast_month : month_cast;
  outer_order : merge_order;
  on_clash : suffix_clash
}.

Definition other {A} (o : option A) : result A :=
  match o with
  | Some a => Ok a
  | None => Raise PandasError
  end.

Definition rbind {A B} (r : result A) (k : A -> result B) : result B :=
  match r with
  | Ok a => k a
  | Raise e => Raise e
  end.

Fixpoint rmap {A B} (f : A -> result B) (l : list A) : result (list B) :=
  match l with
  | [] => Ok []
  | x :: l' => rbind (f x) (fun y => rbind (rmap f l') (fun ys => Ok (y :: ys)))
  end.

Fixpoint as_records (l : list json) : option (list (list (string * json))) :=
  match l with
  | [] => Some []
  | JObj r :: l' => option_map (cons r) (as_records l')
  | _ :: _ => None
  end.

Definition add_key (acc : list string) (kv : string * json) : list string :=
  if existsb (String.eqb (fst kv)) acc then acc else acc ++ [fst kv].

(** The keys of the records, each once, in order of first appearance. *)
Definition union_keys (rs : list (list (string * json))) : list string :=
  fold_left (fun acc r => fold_left add_key r acc) rs [].

Definition record_row (keys : list string) (i : nat) (r : list (string * json))
  : cell * list cell :=
  (CInt (Z.of_nat i), map (cell_at r) keys).

Fixpoint record_rows (keys : list string) (i : nat) (rs : list (list (string * json)))
  : list (cell * list cell) :=
  match rs with
  | [] => []
  | r :: rs' => record_row keys i r :: record_rows keys (S i) rs'
  end.

(** A table from a list of records: one column per key, one row per record
    under a fresh 0, 1, 2, ... index; a key a record lacks leaves a missing
    value. *)
Definition from_records (rs : list (list (string * json))) : DataFrame :=
  let keys := union_keys rs in
  mkDF None keys (record_rows keys 0 rs).

Definition is_scalar (j : json) : bool :=
  match j with
  | JArr _ | JObj _ => false
  | _ => true
  end.

Definition remove_nth {A} (i : nat) (l : list A) : list A :=
  firstn i l ++ skipn (S i) l.

Definition date_key_leb (a b : cell) : bool :=
  match a, b with
  | CStr s, CStr t => String.leb s t
  | CNaN, CNaN => true
  | CNaN, _ => false
  | _, _ => true
  end.

Definition is_str_or_na (c : cell) : bool :=
  match c with
  | CStr _ | CNaN => true
  | _ => false
  end.

Definition is_period (f : freq) (c : cell) : bool :=
  match c with
  | CPeriod g _ => freq_eqb f g
  | _ => false
  end.

Definition period_key_leb (a b : cell) : bool :=
  match a, b with
  | CPeriod _ d, CPeriod _ e => date_leb d e
  | _, _ => true
  end.

(** The keys are periods of one frequency. *)
Definition uniform_keys (keys : list cell) : bool :=
  match keys with
  | [] => true
  | CPeriod f _ :: _ => forallb (is_period f) keys
  | _ :: _ => false
  end.

(** No two keys are equal. *)
Fixpoint unique_keys (keys : list cell) : bool :=
  match keys with
  | [] => true
  | k :: keys' => negb (existsb (cell_eqb k) keys') && unique_keys keys'
  end.

(** Overlapping column labels take a suffix in a merge. *)
Definition suffixed (cols others : list string) (sfx : string) : list string :=
  map (fun c => if existsb (String.eqb c) others then (c ++ sfx)%string else c) cols.

Definition rows_with (k : cell) (rs : list (cell * list cell)) : list (list cell) :=
  map snd (List.filter (fun r => cell_eqb k (fst r)) rs).

(** The rows of one side of a join for a key, or one row of [n] missing
    values when the side has none. *)
Definition or_missing (n : nat) (rs : list (list cell)) : list (list cell) :=
  match rs with
  | [] => [repeat CNaN n]
  | _ => rs
  end.

(** The rows an outer join gives for key [k]: every pairing of the left and
    right rows with that key; a side without the key is filled with missing
    values. *)
Definition joined_rows (nl nr : nat) (lrows rrows : list (cell * list cell)) (k : cell)
  : list (cell * list cell) :=
  let ls := or_missing nl (rows_with k lrows) in
  let rs := or_missing nr (rows_with k rrows) in
  flat_map (fun l => map (fun r => (k, l ++ r)) rs) ls.

Section Operations.

Variable px : ext.

(** [pd.DataFrame.from_dict(j)] *)
Definition DataFrame_from_dict (j : json) : result DataFrame :=
  match j with
  | JArr l =>
      match as_records l with
      | Some rs => Ok (from_records rs)
      | None => other (from_dict_other px j)
      end
  | JObj [] => Ok (mkDF None [] [])
  | _ => other (from_dict_other px j)
  end.

(** [df.insert(0, name, value)]: a new first column holding [value] in every
    row; a label already present is refused. *)
Definition insert0 (name : string) (value : json) (df : DataFrame) : result DataFrame :=
  if has_column name df then Raise ValueError
  else if is_scalar value
       then Ok (mkDF (index_name df) (name :: columns df)
                     (map (fun r => (fst r, cell_of_json value :: snd r)) (rows df)))
       else other (insert_other px value df).

(** [df.sort_values(by=name, ascending=True)] on a column of strings:
    ascending string order, missing values last.  Rows with equal keys are
    kept in their former order here; the quicksort pandas uses by default
    does not promise it and may reorder them in a longer table, so what
    depends on the order of the rows is stated for keys without ties. *)
Definition sort_values (name : string) (df : DataFrame) : result DataFrame :=
  match col_index name (columns df) with
  | None => Raise KeyError
  | Some i =>
      if forallb (fun r => is_str_or_na (row_cell i r)) (rows df)
      then Ok (mkDF (index_name df) (columns df)
                    (sort_by (fun a b => date_key_leb (row_cell i a) (row_cell i b)) (rows df)))
      else other (sort_values_other px name df)
  end.

(** [df.set_index(name)] *)
Definition set_index (name : string) (df : DataFrame) : result DataFrame :=
  match col_index name (columns df) with
  | None => Raise KeyError
  | Some i =>
      Ok (mkDF (Some name) (remove_nth i (columns df))
               (map (fun r => (row_cell i r, remove_nth i (snd r))) (rows df)))
  end.

(** [df[name]] *)
Definition getitem (name : string) (df : DataFrame) : result (list cell) :=
  match column name df with
  | Some c => Ok c
  | None => Raise KeyError
  end.

(** [df[name] = values]: replaces the column when the label exists, appends
    it as the last column otherwise. *)
Definition setitem (name : string) (values : list cell) (df : DataFrame) : result DataFrame :=
  if negb (length values =? length (rows df))%nat then Raise ValueError
  else
    match col_index name (columns df) with
    | Some i =>
        Ok (mkDF (index_name df) (columns df)
                 (map (fun rv => (fst (fst rv), <[i := snd rv]> (snd (fst rv))))
                      (combine (rows df) values)))
    | None =>
        Ok (mkDF (index_name df) (columns df ++ [name])
                 (map (fun rv => (fst (fst rv), snd (fst rv) ++ [snd rv]))
                      (combine (rows df) values)))
    end.

(** [s.pct_change()] on a column of doubles: missing values are padded
    with the last value before them, then every entry is divided by the one
    before it, minus one. *)
Definition pct_change (s : list cell) : result (list cell) :=
  if forallb is_numeric s
  then let f := ffill s in
       Ok (map (fun cp => pct_cell (fst cp) (snd cp)) (combine f (shift1 f)))
  else other (pct_change_other px s).

Definition to_datetime_cell (c : cell) : result cell :=
  match c with
  | CNaN => Ok CNaN
  | CTime d => Ok (CTime d)
  | CStr s =>
      match iso_fields s with
      | Some d =>
          if valid_date d && timestamp_in_bounds d then Ok (CTime d)
          else Raise ValueError
      | None => other (option_map CTime (to_datetime_other px c))
      end
  | _ => other (option_map CTime (to_datetime_other px c))
  end.

(** [pd.to_datetime(values, infer_datetime_format=True)] *)
Definition to_datetime (s : list cell) : result (list cell) :=
  rmap to_datetime_cell s.

(** The frequency a string names, with the first day of the period of a
    date. *)
Definition period_of_string (f : string) : option (freq * (date -> date)) :=
  if String.eqb f "D" then Some (FD, fun d => d)
  else if String.eqb f "W" || String.eqb f "w" then Some (FW, week_start)
  else if String.eqb f "M" then Some (FM, month_start)
  else if String.eqb f "Q" || String.eqb f "q" then Some (FQ, quarter_start)
  else if String.eqb f "Y" then Some (FY, year_start)
  else option_map (fun g => (FOther f, g)) (period_other px f).

(** [s.dt.to_period(f)] on a column of timestamps. *)
Definition dt_to_period (f : string) (s : list cell) : result (list cell) :=
  match period_of_string f with
  | None => Raise ValueError
  | Some (fr, start) =>
      Ok (map (fun c => match c with
                        | CTime d => CPeriod fr (start d)
                        | _ => CNaN
                        end) s)
  end.

End Operations.

(** [r.start_time]: the timestamp of the first day of a period, which
    must be one a timestamp can hold ([OutOfBoundsDatetime], a
    [ValueError], otherwise). *)
Definition start_time_cell (px : ext) (c : cell) : result cell :=
  match c with
  | CPeriod _ d => if timestamp_in_bounds d then Ok (CTime d) else Raise ValueError
  | _ => other (start_time_other px c)
  end.

(** [s.apply(lambda r: r.start_time)] on a column of periods. *)
Definition start_time (px : ext) (s : list cell) : result (list cell) :=
  rmap (start_time_cell px) s.

(** [s.astype('datetime64[M]')] on a column of timestamps. *)
Definition astype_month (px : ext) (s : list cell) : result (list cell) :=
  match cast_month px with
  | CastKeeps => Ok s
  | CastRefused => Raise TypeError
  end.

(** [s.dt.year] *)
Definition dt_year (s : list cell) : list cell :=
  map (fun c => match c with
                | CTime d => CInt (year d)
                | _ => CNaN
                end) s.

(** [df.drop_duplicates(subset=[name], keep='first')] *)
Definition drop_duplicates (name : string) (df : DataFrame) : result DataFrame :=
  match col_index name (columns df) with
  | None => Raise KeyError
  | Some i => Ok (mkDF (index_name df) (columns df) (drop_dups (row_cell i) [] (rows df)))
  end.

Fixpoint renumber (i : nat) (rs : list (cell * list cell)) : list (cell * list cell) :=
  match rs with
  | [] => []
  | r :: rs' => (CInt (Z.of_nat i), fst r :: snd r) :: renumber (S i) rs'
  end.

(** [df.reset_index()]: the index becomes the first column, under its name
    (['index'] when it has none). *)
Definition reset_index (df : DataFrame) : result DataFrame :=
  let name := match index_name df with
              | Some n => n
              | None => "index"
              end in
  if has_column name df then Raise ValueError
  else Ok (mkDF None (name :: columns df) (renumber 0 (rows df))).

(** [df.rename(columns={old: new})] *)
Definition rename (old new : string) (df : DataFrame) : DataFrame :=
  mkDF (index_name df)
       (map (fun c => if String.eqb c old then new else c) (columns df))
       (rows df).

(** [df.dropna()]: drops every row with a missing value in any column. *)
Definition dropna (df : DataFrame) : DataFrame :=
  mkDF (index_name df) (columns df)
       (List.filter (fun r => negb (existsb is_na (snd r))) (rows df)).

Fixpoint positions (name : string) (i : nat) (cols : list string) : list nat :=
  match cols with
  | [] => []
  | c :: cols' =>
      if String.eqb name c then i :: positions name (S i) cols'
      else positions name (S i) cols'
  end.

(** [df[[name]]]: the columns labelled [name]. *)
Definition select (name : string) (df : DataFrame) : result DataFrame :=
  match positions name 0 (columns df) with
  | [] => Raise KeyError
  | ps => Ok (mkDF (index_name df) (map (fun _ => name) ps)
                   (map (fun r => (fst r, map (fun i => row_cell i r) ps)) (rows df)))
  end.

Definition keyed_on_index (df : DataFrame) : bool :=
  match index_name df with
  | Some n => String.eqb n "date" && negb (has_column "date" df)
  | None => false
  end.

(** The keys of an outer merge of two tables without repeated keys: those
    of the left table, then those only the right table has; sorted or not,
    by the pandas at hand. *)
Definition outer_keys (o : merge_order) (lkeys rkeys : list cell) : list cell :=
  let keys := lkeys ++ List.filter (fun k => negb (existsb (cell_eqb k) lkeys)) rkeys in
  match o with
  | LeftThenRight => keys
  | SortedKeys => sort_by period_key_leb keys
  end.

(** No two labels are equal. *)
Fixpoint unique_labels (cols : list string) : bool :=
  match cols with
  | [] => true
  | c :: cols' => negb (existsb (String.eqb c) cols') && unique_labels cols'
  end.

(** [pd.merge(left, right, on=['date'], how='outer')] for two tables indexed
    under the name ['date'] by periods of one frequency, no period and no
    column label twice in a table: one row for every key of either side,
    with the columns of both sides, missing where a side lacks the key.  The
    labels the two sides share take the suffixes ['_x'] and ['_y']; a suffix
    that makes two labels of a side equal is kept or refused, by the pandas
    at hand. *)
Definition merge_outer (px : ext) (left right : DataFrame) : result DataFrame :=
  if keyed_on_index left && keyed_on_index right
     && uniform_keys (index left ++ index right)
     && unique_keys (index left) && unique_keys (index right)
     && unique_labels (columns left) && unique_labels (columns right)
  then
    let lcols := suffixed (columns left) (columns right) "_x" in
    let rcols := suffixed (columns right) (columns left) "_y" in
    let merged :=
      mkDF (Some "date") (lcols ++ rcols)
           (flat_map (joined_rows (length (columns left)) (length (columns right))
                                  (rows left) (rows right))
                     (outer_keys (outer_order px) (index left) (index right))) in
    if unique_labels lcols && unique_labels rcols then Ok merged
    else match on_clash px with
         | ClashKept => Ok merged
         | ClashRefused => Raise ValueError
         end
  else other (merge_other px left right).

(** [functools.reduce(f, l)] without an initial value. *)
Definition reduce {A} (f : A -> A -> result A) (l : list A) : result A :=
  match l with
  | [] => Raise TypeError
  | x :: l' => fold_left (fun acc y => rbind acc (fun a => f a y)) l' (Ok x)
  end.

End pd.

(** ** The client's methods *)

(** Subscripting the value a fetch returned: [None] is not subscriptable. *)
Definition subscriptable (o : option DataFrame) : result DataFrame :=
  match o with
  | Some df => Ok df
  | None => Raise TypeError
  end.

Fixpoint for_each {A B} (l : list A) (body : A -> B -> M B) (acc : B) : M B :=
  match l with
  | [] => ret acc
  | x :: l' => let* acc' := body x acc in for_each l' body acc'
  end.

Definition intraday_intervals : list string :=
  ["4hour"; "1hour"; "30min"; "15min"; "5min"; "1min"].

Definition intraday_url (interval ticker key : string) : string :=
  ("https://financialmodelingprep.com/api/v3/historical-chart/" ++ interval
     ++ "/" ++ ticker ++ "?apikey=" ++ key)%string.

Definition daily_url (ticker key : string) : string :=
  ("https://financialmodelingprep.com/api/v3/historical-price-full/" ++ ticker
     ++ "?apikey=" ++ key)%string.

Section Client.

Variable px : pd.ext.
Variable net : server.

(** [FMP._get_df] *)
Definition _get_df (self : FMP) (url : string) : M DataFrame :=
  let* response := requests_get net url in
  if (status_code response =? 200)%Z then
    let* j := response_json response in
    let* response_df := lift (pd.DataFrame_from_dict px j) in
    ret response_df
  else
    let* j := response_json response in
    do print (LineResponse j) then
    raise ConnectionError.

(** [FMP._get_historical_fmp]: [None] for an empty body, else the table of
    the ['historical'] records under the symbol, sorted by date and indexed
    by it. *)
Definition _get_historical_fmp (self : FMP) (url : string) : M (option DataFrame) :=
  let* response := requests_get net url in
  if (status_code response =? 200)%Z then
    let* j := response_json response in
    if json_is_empty_dict j then
      do print (LineEmpty (_ticker self)) then
      ret None
    else
      let* j := response_json response in
      let* symbol := lift (json_getitem j "symbol") in
      let* j := response_json response in
      let* historical := lift (json_getitem j "historical") in
      let* df := lift (pd.DataFrame_from_dict px historical) in
      let* df := lift (pd.insert0 px "symbol" symbol df) in
      let* df := lift (pd.sort_values px "date" df) in
      let* df := lift (pd.set_index "date" df) in
      ret (Some df)
  else
    let* j := response_json response in
    do print (LineResponse j) then
    raise ConnectionError.

(** [FMP.historical_price_by_interval] *)
Definition historical_price_by_interval (self : FMP) (ticker : obj) (interval : string)
  : M DataFrame :=
  let ticker := if is_not_None ticker then ticker else _ticker self in
  if existsb (String.eqb interval) intraday_intervals then
    let url := intraday_url interval (str ticker) (_key self) in
    _get_df self url
  else if String.eqb interval "1d" then
    let url := daily_url (str ticker) (_key self) in
    let* fetched := _get_historical_fmp self url in
    let* historical_df := lift (subscriptable fetched) in
    let* adj := lift (pd.getitem "adjClose" historical_df) in
    let* pct := lift (pd.pct_change px adj) in
    let* historical_df := lift (pd.setitem "pct change" pct historical_df) in
    ret historical_df
  else
    let url := daily_url (str ticker) (_key self) in
    let* fetched := _get_historical_fmp self url in
    let* historical_df := lift (subscriptable fetched) in
    let* adj := lift (pd.getitem "adjClose" historical_df) in
    let* pct := lift (pd.pct_change px adj) in
    let* historical_df := lift (pd.setitem "pct change" pct historical_df) in
    let* daily := lift (pd.to_datetime px (index historical_df)) in
    let* historical_df := lift (pd.setitem "daily" daily historical_df) in
    if String.eqb interval "1w" then
      let* daily := lift (pd.getitem "daily" historical_df) in
      let* week := lift (pd.dt_to_period px "w" daily) in
      let* week := lift (pd.start_time px week) in
      let* historical_df := lift (pd.setitem "week" week historical_df) in
      lift (pd.drop_duplicates "week" historical_df)
    else if String.eqb interval "1m" then
      let* daily := lift (pd.getitem "daily" historical_df) in
      let* monthly := lift (pd.astype_month px daily) in
      let* historical_df := lift (pd.setitem "monthly" monthly historical_df) in
      lift (pd.drop_duplicates "monthly" historical_df)
    else if String.eqb interval "1q" then
      let* daily := lift (pd.getitem "daily" historical_df) in
      let* quarter := lift (pd.dt_to_period px "q" daily) in
      let* historical_df := lift (pd.setitem "quarter" quarter historical_df) in
      lift (pd.drop_duplicates "quarter" historical_df)
    else if String.eqb interval "1y" then
      let* daily := lift (pd.getitem "daily" historical_df) in
      let* historical_df := lift (pd.setitem "year" (pd.dt_year daily) historical_df) in
      lift (pd.drop_duplicates "year" historical_df)
    else
      raise ValueError.

(** The body of the loop of [get_multiple_returns], for one ticker. *)
Definition returns_of_ticker (self : FMP) (period : string) (ticker : string)
    (dfs : list DataFrame) : M (list DataFrame) :=
  let* df := historical_price_by_interval self (PStr ticker) "1d" in
  let* df := lift (pd.reset_index df) in
  let* date := lift (pd.getitem "date" df) in
  let* date := lift (pd.to_datetime px date) in
  let* df := lift (pd.setitem "date" date df) in
  let* date := lift (pd.getitem "date" df) in
  let* date := lift (pd.dt_to_period px period date) in
  let* df := lift (pd.setitem "date" date df) in
  let* df := lift (pd.drop_duplicates "date" df) in
  let* adj := lift (pd.getitem "adjClose" df) in
  let* pct := lift (pd.pct_change px adj) in
  let* df := lift (pd.setitem "pct" pct df) in
  let* df := lift (pd.set_index "date" df) in
  let df := pd.rename "pct" ticker df in
  let df := pd.dropna df in
  let* col := lift (pd.select ticker df) in
  ret (dfs ++ [col]).

(** [FMP.get_multiple_returns]; [tickers] is the address of the caller's
    list, which [symbols] aliases. *)
Definition get_multiple_returns (self : FMP) (tickers : nat) (period : string)
    (compare_with_index : obj) : M DataFrame :=
  let dfs := [] in
  let symbols := tickers in
  do (match compare_with_index with
      | PStr index_ticker => list_append symbols index_ticker
      | PNone => ret tt
      end) then
  let* tickers_now := list_read symbols in
  let* dfs := for_each tickers_now (returns_of_ticker self period) dfs in
  let* df_merged := lift (pd.reduce (pd.merge_outer px) dfs) in
  ret df_merged.

End Client.

(** ** Well-formed payloads and what a run leaves behind *)

(** A record of the daily endpoint: an ISO date pandas can represent, a
    number other than NaN for the adjusted close, and no member called
    ['symbol']. *)
Definition record_date (r : list (string * json)) : option date :=
  match assoc "date" r with
  | Some (JStr s) =>
      match iso_fields s with
      | Some d => if valid_date d && timestamp_in_bounds d then Some d else None
      | None => None
      end
  | _ => None
  end.

Definition record_adj (r : list (string * json)) : option float :=
  match assoc "adjClose" r with
  | Some (JNum f) => if PrimFloat.is_nan f then None else Some f
  | _ => None
  end.

Definition wf_record (r : list (string * json)) : bool :=
  match record_date r, record_adj r, assoc "symbol" r with
  | Some _, Some _, None => true
  | _, _, _ => false
  end.

(** A well-formed body of the daily endpoint: a scalar ['symbol'] and a
    non-empty list of well-formed records under ['historical']. *)
Definition payload_records (j : json) : option (json * list (list (string * json))) :=
  match j with
  | JObj l =>
      match assoc "symbol" l, assoc "historical" l with
      | Some sym, Some (JArr h) =>
          match pd.as_records h with
          | Some rs => Some (sym, rs)
          | None => None
          end
      | _, _ => None
      end
  | _ => None
  end.

Definition wf_payload (j : json) : bool :=
  match payload_records j with
  | Some (sym, r :: rs) => pd.is_scalar sym && forallb wf_record (r :: rs)
  | _ => false
  end.

(** *** The daily table in closed form *)

(** The records in the order [sort_values] leaves them in. *)
Definition sorted_records (rs : list (list (string * json))) : list (list (string * json)) :=
  sort_by (fun a b => pd.date_key_leb (cell_at a "date") (cell_at b "date")) rs.

(** The column labels of the records, without ['date']. *)
Definition value_keys (rs : list (list (string * json))) : list string :=
  match col_index "date" (pd.union_keys rs) with
  | Some i => pd.remove_nth i (pd.union_keys rs)
  | None => pd.union_keys rs
  end.

(** The table [_get_historical_fmp] builds from a well-formed payload. *)
Definition daily_frame (sym : json) (rs : list (list (string * json))) : DataFrame :=
  mkDF (Some "date") ("symbol" :: value_keys rs)
       (map (fun r => (cell_at r "date", cell_of_json sym :: map (cell_at r) (value_keys rs)))
            (sorted_records rs)).

(** The URL [historical_price_by_interval] fetches the daily series from. *)
Definition daily_url_of (self : FMP) (ticker : obj) : string :=
  daily_url (str (if is_not_None ticker then ticker else _ticker self)) (_key self).

(** Each entry paired with the one before it, [p] before the first. *)
Fixpoint prev_pairs (p : cell) (s : list cell) : list (cell * cell) :=
  match s with
  | [] => []
  | x :: s' => (x, p) :: prev_pairs x s'
  end.

(** A column of numbers without gaps. *)
Definition no_na_numeric (s : list cell) : Prop :=
  Forall (fun c => is_numeric c = true /\ is_na c = false) s.

(** The adjusted closes of the records, oldest first, and the percent
    change of every entry of a column against the one before it. *)
Definition adj_cells (rs : list (list (string * json))) : list cell :=
  map (fun r => cell_at r "adjClose") (sorted_records rs).

Definition pct_cells (s : list cell) : list cell :=
  map (fun cp => pct_cell (fst cp) (snd cp)) (prev_pairs CNaN s).

(** The table the ['1d'] call returns on well-formed records [rs]: the
    daily table with the percent changes stored under ['pct change']. *)
Definition daily_result (sym : json) (rs : list (list (string * json))) : result DataFrame :=
  pd.setitem "pct change" (pct_cells (adj_cells rs)) (daily_frame sym rs).

(** The date of a well-formed record. *)
Definition record_day (r : list (string * json)) : date :=
  match record_date r with
  | Some d => d
  | None => mkDate 1970 1 1
  end.

(** The dates of the records, oldest first. *)
Definition dates_of (rs : list (list (string * json))) : list date :=
  map record_day (sorted_records rs).

(** Every row has one cell per column. *)
Definition well_shaped (df : DataFrame) : Prop :=
  Forall (fun r => length (snd r) = length (columns df)) (rows df).

(** Which entries of a list of keys are the first with their value. *)
Fixpoint first_mask_from (seen : list cell) (keys : list cell) : list bool :=
  match keys with
  | [] => []
  | k :: keys' =>
      if existsb (cell_eqb k) seen then false :: first_mask_from seen keys'
      else true :: first_mask_from (k :: seen) keys'
  end.

Definition first_mask (keys : list cell) : list bool := first_mask_from [] keys.

(** The entries of [l] a mask keeps. *)
Fixpoint pick {A} (mask : list bool) (l : list A) : list A :=
  match mask, l with
  | b :: mask', x :: l' => if b then x :: pick mask' l' else pick mask' l'
  | _, _ => []
  end.

(** The date an index label of the daily table stands for. *)
Definition label_date (c : cell) : option date :=
  match c with
  | CStr s => iso_fields s
  | _ => None
  end.

(** What the client's bucket column tells the dates apart by: the first
    day of the calendar week, quarter or year of a date for ['1w'], ['1q']
    and ['1y']; the date itself for ['1m'], whose column holds the
    timestamps as they are where the cast is accepted. *)
Definition bucket_start (interval : string) (d : date) : date :=
  if String.eqb interval "1w" then week_start d
  else if String.eqb interval "1m" then d
  else if String.eqb interval "1q" then quarter_start d
  else year_start d.

(** The label and the cell the client stores for the bucket of a date. *)
Definition bucket_column (interval : string) : string :=
  if String.eqb interval "1w" then "week"
  else if String.eqb interval "1m" then "monthly"
  else if String.eqb interval "1q" then "quarter"
  else "year".

Definition bucket_cell (interval : string) (d : date) : cell :=
  if String.eqb interval "1w" then CTime (week_start d)
  else if String.eqb interval "1m" then CTime d
  else if String.eqb interval "1q" then CPeriod FQ (quarter_start d)
  else CInt (year d).


(** The Monday of the week of every date is a timestamp pandas can hold. *)
Definition weeks_in_bounds (ds : list date) : bool :=
  forallb (fun d => timestamp_in_bounds (week_start d)) ds.

(** The daily table can be bucketed by [interval] on the pandas at hand:
    the weeks start within the bounds of a timestamp, and the cast to
    months is accepted. *)
Definition buckets_readable (px : pd.ext) (interval : string) (ds : list date) : bool :=
  if String.eqb interval "1w" then weeks_in_bounds ds
  else if String.eqb interval "1m"
       then match pd.cast_month px with
            | pd.CastKeeps => true
            | pd.CastRefused => false
            end
  else true.

(** No two dates of the list are the same. *)
Fixpoint distinct (ds : list date) : bool :=
  match ds with
  | [] => true
  | d :: ds' => negb (existsb (date_eqb d) ds') && distinct ds'
  end.

(** A computation whose result does not depend on the world it starts
    in. *)
Definition world_indep {A} (m : M A) : Prop :=
  forall w1 w2, fst (m w1) = fst (m w2).

(** A computation that leaves every list object as it was. *)
Definition preserves_heap {A} (m : M A) : Prop :=
  forall w, heap (snd (m w)) = heap w.

(** A computation that issues no HTTP request. *)
Definition preserves_log {A} (m : M A) : Prop :=
  forall w, http_log (snd (m w)) = http_log w.

(** The world after one more GET on [url]. *)
Definition logged (url : string) (w : world) : world :=
  mkWorld (heap w) (http_log w ++ [url]) (stdout w).

Definition supported_intervals : list string :=
  ["4hour"; "1hour"; "30min"; "15min"; "5min"; "1min"; "1d"; "1w"; "1m"; "1q"; "1y"].

Definition bucketed_intervals : list string := ["1w"; "1m"; "1q"; "1y"].

(** The tickers [get_multiple_returns] loops over: the caller's, and the
    index to compare with when there is one. *)
Definition symbols_of (ts : list string) (compare_with_index : obj) : list string :=
  match compare_with_index with
  | PStr index_ticker => ts ++ [index_ticker]
  | PNone => ts
  end.

(** ** Returns of several tickers, in closed form *)

(** A row without a missing value. *)
Definition complete (cells : list cell) : bool := negb (existsb is_na cells).

(** The rows of a daily table that open a period, each with its date. *)
Definition period_firsts (P : date -> cell) (D : DataFrame) (dates : list date)
  : list ((cell * list cell) * date) :=
  pick (first_mask (map P dates)) (combine (rows D) dates).

(** The change of the adjusted close, in column [a], from each of these
    rows to the next. *)
Definition period_changes (a : nat) (firsts : list ((cell * list cell) * date)) : list cell :=
  pct_cells (map (fun y => row_cell a (fst y)) firsts).

(** The returns of one ticker: for every period whose first row, with its
    change, has no missing value, the period and the change. *)
Definition ticker_returns (P : date -> cell) (D : DataFrame) (dates : list date) (a : nat)
  : list (cell * cell) :=
  map (fun yc => (P (snd (fst yc)), snd yc))
      (List.filter (fun yc => complete (snd (fst (fst yc)) ++ [snd yc]))
                   (combine (period_firsts P D dates)
                            (period_changes a (period_firsts P D dates)))).

(** The one-column table [get_multiple_returns] keeps for a ticker. *)
Definition ticker_frame (t : string) (returns : list (cell * cell)) : DataFrame :=
  mkDF (Some "date") [t] (map (fun pc => (fst pc, [snd pc])) returns).

(** The change a ticker has for a period: a missing value when its
    returns have no row for it. *)
Definition lookup_return (k : cell) (returns : list (cell * cell)) : cell :=
  match List.find (fun pc => cell_eqb k (fst pc)) returns with
  | Some pc => snd pc
  | None => CNaN
  end.

(** The table of the tickers [ts] over the periods [ds]. *)
Definition returns_table (f : freq) (R : string -> list (cell * cell))
    (ts : list string) (ds : list date) : DataFrame :=
  mkDF (Some "date") ts
       (map (fun d => (CPeriod f d,
                       map (fun s => lookup_return (CPeriod f d) (R s)) ts)) ds).

(** The periods of an outer merge: those of the left side, then those
    only the right side has; sorted or not, by the pandas at hand. *)
Definition merged_periods (o : pd.merge_order) (ds es : list date) : list date :=
  let periods := ds ++ List.filter (fun e => negb (existsb (date_eqb e) ds)) es in
  match o with
  | pd.LeftThenRight => periods
  | pd.SortedKeys => sort_by date_leb periods
  end.

(** The periods of the merged table of the tickers [ts], when ticker [s]
    has the periods [E s]. *)
Definition all_periods (o : pd.merge_order) (E : string -> list date) (ts : list string)
  : list date :=
  match ts with
  | [] => []
  | t :: rest => fold_left (fun ds s => merged_periods o ds (E s)) rest (E t)
  end.

(** Ticker [s] has one return for each of its periods [E s]. *)
Definition keyed (f : freq) (R : string -> list (cell * cell)) (E : string -> list date)
    (s : string) : Prop :=
  map fst (R s) = map (CPeriod f) (E s) /\ List.NoDup (E s).

(** The periods [get_multiple_returns] documents. *)
Definition supported_periods : list string := ["D"; "W"; "M"; "Q"; "Y"].

Definition period_freq (period : string) : freq :=
  if String.eqb period "D" then FD
  else if String.eqb period "W" then FW
  else if String.eqb period "M" then FM
  else if String.eqb period "Q" then FQ
  else FY.

(** The first day of the period of a date. *)
Definition period_start (period : string) (d : date) : date :=
  if String.eqb period "D" then d
  else if String.eqb period "W" then week_start d
  else if String.eqb period "M" then month_start d
  else if String.eqb period "Q" then quarter_start d
  else year_start d.

Definition period_cell (period : string) (d : date) : cell :=
  CPeriod (period_freq period) (period_start period d).

(** The position of ['adjClose'] among the columns of a table. *)
Definition adj_position (D : DataFrame) : nat :=
  match col_index "adjClose" (columns D) with
  | Some a => a
  | None => 0%nat
  end.

(** The daily table of a payload, as the ['1d'] call returns it, and its
    dates. *)
Definition payload_table (j : json) : DataFrame :=
  match payload_records j with
  | Some (sym, rs) =>
      match daily_result sym rs with
      | Ok D => D
      | Raise _ => mkDF None [] []
      end
  | None => mkDF None [] []
  end.

Definition payload_dates (j : json) : list date :=
  match payload_records j with
  | Some (_, rs) => dates_of rs
  | None => []
  end.

(** The returns of the ticker with payload [j], and their periods. *)
Definition payload_returns (period : string) (j : json) : list (cell * cell) :=
  ticker_returns (period_cell period) (payload_table j) (payload_dates j)
                 (adj_position (payload_table j)).

Definition payload_periods (period : string) (j : json) : list date :=
  map (fun yc => period_start period (snd (fst yc)))
      (List.filter (fun yc => complete (snd (fst (fst yc)) ++ [snd yc]))
         (combine (period_firsts (period_cell period) (payload_table j) (payload_dates j))
                  (period_changes (adj_position (payload_table j))
                     (period_firsts (period_cell period) (payload_table j)
                                    (payload_dates j))))).

(** The ticker is not the label of a column of its own daily table, and
    neither is ['pct']. *)
Definition fresh_labels (t : string) (j : json) : Prop :=
  match payload_records j with
  | Some (_, rs) =>
      t <> "date" /\ t <> "symbol" /\ t <> "pct change" /\
      ~ In t (value_keys rs) /\ ~ In "pct" (value_keys rs)
  | None => False
  end.

(** The URL a call of [historical_price_by_interval] fetches. *)
Definition fetched_url (self : FMP) (ticker : obj) (interval : string) : string :=
  if existsb (String.eqb interval) intraday_intervals
  then intraday_url interval (str (if is_not_None ticker then ticker else _ticker self))
                    (_key self)
  else daily_url_of self ticker.


(** Every ticker of the list was answered 200. *)
Definition all_200 (codes : string -> Z) (ts : list string) : bool :=
  forallb (fun t => (codes t =? 200)%Z) ts.

(** ** Fixtures *)
Module Fixture.

(** A pandas by version: nothing is known outside the modelled shapes. *)
Definition pandas (c : pd.month_cast) (o : pd.merge_order) (k : pd.suffix_clash) : pd.ext :=
  pd.mkExt (fun _ => None) (fun _ _ => None) (fun _ _ => None)
           (fun _ => None) (fun _ => None) (fun _ => None) (fun _ _ => None)
           (fun _ => None) c o k.

(** pandas 1.5, 2.0 and 2.2. *)
Definition px : pd.ext := pandas pd.CastKeeps pd.LeftThenRight pd.ClashKept.
Definition px20 : pd.ext := pandas pd.CastRefused pd.LeftThenRight pd.ClashRefused.
Definition px22 : pd.ext := pandas pd.CastRefused pd.SortedKeys pd.ClashRefused.

Definition bar (d : string) (c : float) : json :=
  JObj [("date", JStr d); ("close", JNum c); ("adjClose", JNum c)].

Definition payload (sym : string) (bars : list json) : json :=
  JObj [("symbol", JStr sym); ("historical", JArr bars)].

Definition aapl : json :=
  payload "AAPL" [bar "2021-02-02" 12; bar "2021-02-01" 11; bar "2021-01-29" 10;
                  bar "2021-01-04" 8; bar "2020-12-31" 4].

Definition spy : json :=
  payload "SPY" [bar "2021-02-01" 110; bar "2021-01-29" 100; bar "2020-11-30" 50].

(** Three months of a ticker whose February record has no close. *)
Definition gap : json :=
  payload "GAP"
    [JObj [("date", JStr "2021-03-01"); ("close", JNum 12); ("adjClose", JNum 12)];
     JObj [("date", JStr "2021-02-01"); ("close", JNull); ("adjClose", JNum 10)];
     JObj [("date", JStr "2021-01-04"); ("close", JNum 8); ("adjClose", JNum 8)]].

(** A server that knows three tickers, answers an empty object for a
    fourth, an error message under status 200 for a fifth and 404 for the
    rest. *)
Definition net : server :=
  fun url =>
    if String.eqb url (daily_url "AAPL" "k") then mkResponse 200 (Some aapl)
    else if String.eqb url (daily_url "SPY" "k") then mkResponse 200 (Some spy)
    else if String.eqb url (daily_url "GAP" "k") then mkResponse 200 (Some gap)
    else if String.eqb url (daily_url "EMPTY" "k") then mkResponse 200 (Some (JObj []))
    else if String.eqb url (daily_url "LIMIT" "k")
         then mkResponse 200 (Some (JObj [("Error Message", JStr "Limit Reach")]))
    else mkResponse 404 (Some (JObj [("Error Message", JStr "Not Found")])).

Definition self : FMP := mkFMP "k" PNone.

(** A world where the caller holds the list [['AAPL']] at address 0, the
    list [['GAP']] at address 1 and an empty list at address 2. *)
Definition w0 : world :=
  mkWorld (<[0%nat := ["AAPL"]]> (<[1%nat := ["GAP"]]> (<[2%nat := []]> ∅))) [] [].

(** The payload the server holds for each ticker. *)
Definition bodies (t : string) : json :=
  if String.eqb t "AAPL" then aapl
  else if String.eqb t "SPY" then spy
  else gap.

End Fixture.

(** ** Effects of a call *)

(** A computation that issues no request, prints nothing and leaves every
    list object as it was. *)
Definition leaves_world {A} (m : M A) : Prop :=
  forall w, snd (m w) = w.

(** A result, and a computation, that does not end in [ConnectionError]. *)
Definition no_ConnectionError {A} (r : result A) : Prop := r <> Raise ConnectionError.


(** Two computations that end with the same value or the same exception,
    whatever the worlds they start in. *)
Definition same_result {A} (m1 m2 : M A) : Prop :=
  forall w1 w2, fst (m1 w1) = fst (m2 w2).

(** The world after one GET on [url] and one printed line. *)
Definition logged_printed (url : string) (l : line) (w : world) : world :=
  mkWorld (heap w) (http_log w ++ [url]) (stdout w ++ [l]).

(** ** More servers to run the client against *)

Module Scenario.

(** The records the server of [Fixture] holds for AAPL. *)
Definition aapl_records : list (list (string * json)) :=
  [[("date", JStr "2021-02-02"); ("close", JNum 12); ("adjClose", JNum 12)];
   [("date", JStr "2021-02-01"); ("close", JNum 11); ("adjClose", JNum 11)];
   [("date", JStr "2021-01-29"); ("close", JNum 10); ("adjClose", JNum 10)];
   [("date", JStr "2021-01-04"); ("close", JNum 8); ("adjClose", JNum 8)];
   [("date", JStr "2020-12-31"); ("close", JNum 4); ("adjClose", JNum 4)]].

(** A server behind a proxy that answers every request with a page that is
    not JSON. *)
Definition down : server := fun _ => mkResponse 503 None.

(** Two bars of an hourly chart, newest first, the older one without a
    volume. *)
Definition bars : list (list (string * json)) :=
  [[("date", JStr "2021-02-02 10:00:00"); ("close", JNum 12); ("volume", JNum 7)];
   [("date", JStr "2021-02-02 09:00:00"); ("close", JNum 11)]].





(** A server that answers the payload of GAP to every request. *)
Definition gaps : server := fun _ => mkResponse 200 (Some Fixture.gap).

(** A server that knows the hourly chart of AAPL. *)
Definition chart : server :=
  fun url =>
    if String.eqb url (intraday_url "1hour" "AAPL" "k")
    then mkResponse 200 (Some (JArr (map JObj bars)))
    else mkResponse 404 (Some (JObj [("Error Message", JStr "Not Found")])).

End Scenario.

(** ** Effects of the primitive operations *)

Section Effects.

Lemma wi_ret {A} (a : A) : world_indep (ret a).
Proof. intros w1 w2. reflexivity. Qed.

Lemma wi_raise {A} (e : exn) : world_indep (@raise A e).
Proof. intros w1 w2. reflexivity. Qed.

Lemma wi_lift {A} (r : result A) : world_indep (lift r).
Proof. intros w1 w2. reflexivity. Qed.

Lemma wi_bind {A B} (m : M A) (k : A -> M B) :
  world_indep m -> (forall a, world_indep (k a)) -> world_indep (bind m k).
Proof.
  intros Hm Hk w1 w2. unfold bind.
  specialize (Hm w1 w2).
  destruct (m w1) as [r1 w1'], (m w2) as [r2 w2']. simpl in Hm. subst r2.
  destruct r1 as [a|e]; [apply Hk | reflexivity].
Qed.

Lemma wi_get net url : world_indep (requests_get net url).
Proof. intros w1 w2. reflexivity. Qed.

Lemma wi_json r : world_indep (response_json r).
Proof. unfold response_json. destruct (body r); [apply wi_ret | apply wi_raise]. Qed.

Lemma wi_print l : world_indep (print l).
Proof. intros w1 w2. reflexivity. Qed.

Lemma ph_ret {A} (a : A) : preserves_heap (ret a).
Proof. intros w. reflexivity. Qed.

Lemma ph_raise {A} (e : exn) : preserves_heap (@raise A e).
Proof. intros w. reflexivity. Qed.

Lemma ph_lift {A} (r : result A) : preserves_heap (lift r).
Proof. intros w. reflexivity. Qed.

Lemma ph_bind {A B} (m : M A) (k : A -> M B) :
  preserves_heap m -> (forall a, preserves_heap (k a)) -> preserves_heap (bind m k).
Proof.
  intros Hm Hk w. unfold bind.
  specialize (Hm w). destruct (m w) as [r w']. simpl in Hm.
  destruct r as [a|e]; [rewrite Hk | simpl]; exact Hm.
Qed.

Lemma ph_get net url : preserves_heap (requests_get net url).
Proof. intros w. reflexivity. Qed.

Lemma ph_json r : preserves_heap (response_json r).
Proof. unfold response_json. destruct (body r); [apply ph_ret | apply ph_raise]. Qed.

Lemma ph_print l : preserves_heap (print l).
Proof. intros w. reflexivity. Qed.

Lemma ph_read l : preserves_heap (list_read l).
Proof. intros w. unfold list_read. destruct (heap w !! l); reflexivity. Qed.

Lemma ph_for_each {A B} (body : A -> B -> M B) (l : list A) :
  (forall x acc, preserves_heap (body x acc)) ->
  forall acc, preserves_heap (for_each l body acc).
Proof.
  intros Hb. induction l as [|x l IH]; intros acc; simpl.
  - apply ph_ret.
  - apply ph_bind; [apply Hb | exact IH].
Qed.

End Effects.

Ltac step_effect wi_b wi_r wi_e wi_l wi_g wi_j wi_p :=
  first
    [ apply wi_r | apply wi_e | apply wi_l | apply wi_g | apply wi_j | apply wi_p
    | apply wi_b; [ | intros ? ]
    | match goal with
      | |- _ (if ?b then _ else _) => destruct b
      end ].

Ltac world_indep_tac :=
  repeat step_effect (@wi_bind) (@wi_ret) (@wi_raise) (@wi_lift) wi_get wi_json wi_print.

Ltac preserves_heap_tac :=
  repeat step_effect (@ph_bind) (@ph_ret) (@ph_raise) (@ph_lift) ph_get ph_json ph_print.

Section ClientEffects.

Variable px : pd.ext.
Variable net : server.

Lemma wi_get_df self url : world_indep (_get_df px net self url).
Proof. unfold _get_df. world_indep_tac. Qed.

Lemma wi_get_historical self url : world_indep (_get_historical_fmp px net self url).
Proof. unfold _get_historical_fmp. world_indep_tac. Qed.

Lemma wi_historical_price_by_interval self ticker interval :
  world_indep (historical_price_by_interval px net self ticker interval).
Proof.
  unfold historical_price_by_interval.
  repeat first [ apply wi_get_df | apply wi_get_historical
               | step_effect (@wi_bind) (@wi_ret) (@wi_raise) (@wi_lift) wi_get wi_json wi_print ].
Qed.

Lemma ph_get_df self url : preserves_heap (_get_df px net self url).
Proof. unfold _get_df. preserves_heap_tac. Qed.

Lemma ph_get_historical self url : preserves_heap (_get_historical_fmp px net self url).
Proof. unfold _get_historical_fmp. preserves_heap_tac. Qed.

Lemma ph_historical_price_by_interval self ticker interval :
  preserves_heap (historical_price_by_interval px net self ticker interval).
Proof.
  unfold historical_price_by_interval.
  repeat first [ apply ph_get_df | apply ph_get_historical
               | step_effect (@ph_bind) (@ph_ret) (@ph_raise) (@ph_lift) ph_get ph_json ph_print ].
Qed.

Lemma ph_returns_of_ticker self period ticker dfs :
  preserves_heap (returns_of_ticker px net self period ticker dfs).
Proof.
  unfold returns_of_ticker.
  repeat first [ apply ph_historical_price_by_interval
               | step_effect (@ph_bind) (@ph_ret) (@ph_raise) (@ph_lift) ph_get ph_json ph_print ].
Qed.

End ClientEffects.


(** ** Results that depend on the response alone *)

Section SameResult.

Lemma sr_wi {A} (m : M A) : world_indep m -> same_result m m.
Proof. intros H w1 w2. apply H. Qed.

Lemma sr_bind {A B} (m1 m2 : M A) (k1 k2 : A -> M B) :
  same_result m1 m2 -> (forall a, same_result (k1 a) (k2 a)) ->
  same_result (bind m1 k1) (bind m2 k2).
Proof.
  intros Hm Hk w1 w2. unfold bind.
  specialize (Hm w1 w2).
  destruct (m1 w1) as [r1 w1'], (m2 w2) as [r2 w2']. simpl in Hm. subst r2.
  destruct r1 as [a|e]; [apply Hk | reflexivity].
Qed.

Lemma sr_get (net1 net2 : server) (url1 url2 : string) :
  net1 url1 = net2 url2 -> same_result (requests_get net1 url1) (requests_get net2 url2).
Proof. intros H w1 w2. unfold requests_get. cbn [fst]. now rewrite H. Qed.

Lemma sr_print (l1 l2 : line) : same_result (print l1) (print l2).
Proof. intros w1 w2. reflexivity. Qed.

Variable px : pd.ext.

(** The table a fetch returns is a function of the response. *)
Lemma sr_get_df (net1 net2 : server) self1 self2 url1 url2 :
  net1 url1 = net2 url2 ->
  same_result (_get_df px net1 self1 url1) (_get_df px net2 self2 url2).
Proof.
  intros H. unfold _get_df.
  apply sr_bind; [now apply sr_get | intros response].
  apply sr_wi. world_indep_tac.
Qed.

Lemma sr_get_historical (net1 net2 : server) self1 self2 url1 url2 :
  net1 url1 = net2 url2 ->
  same_result (_get_historical_fmp px net1 self1 url1)
              (_get_historical_fmp px net2 self2 url2).
Proof.
  intros H. unfold _get_historical_fmp.
  apply sr_bind; [now apply sr_get | intros response].
  destruct (status_code response =? 200)%Z; [ | apply sr_wi; world_indep_tac].
  apply sr_bind; [apply sr_wi, wi_json | intros j].
  destruct (json_is_empty_dict j); [ | apply sr_wi; world_indep_tac].
  apply sr_bind; [apply sr_print | intros _]. apply sr_wi, wi_ret.
Qed.

(** The outcome of [historical_price_by_interval] is a function of the
    interval and of the response to the request it issues. *)
Lemma sr_historical_price_by_interval (net1 net2 : server) self1 self2 ticker1 ticker2
    interval :
  net1 (fetched_url self1 ticker1 interval) = net2 (fetched_url self2 ticker2 interval) ->
  same_result (historical_price_by_interval px net1 self1 ticker1 interval)
              (historical_price_by_interval px net2 self2 ticker2 interval).
Proof.
  unfold fetched_url, historical_price_by_interval, daily_url_of.
  destruct (existsb (String.eqb interval) intraday_intervals); intros H.
  - now apply sr_get_df.
  - destruct (String.eqb interval "1d");
      (apply sr_bind; [now apply sr_get_historical | intros fetched]);
      apply sr_wi; world_indep_tac.
Qed.

End SameResult.
(** ** Labels, records and sorting *)

Section Labels.

Lemma mem_In (k : string) (l : list string) :
  existsb (String.eqb k) l = true <-> In k l.
Proof.
  rewrite existsb_exists. split.
  - intros [x [Hx He]]. apply String.eqb_eq in He. subst. exact Hx.
  - intros H. exists k. split; [exact H | apply String.eqb_refl].
Qed.

Lemma mem_false (k : string) (l : list string) :
  existsb (String.eqb k) l = false <-> ~ In k l.
Proof.
  rewrite <- mem_In. destruct (existsb (String.eqb k) l); split; intros; congruence.
Qed.

Lemma col_index_In (k : string) (cols : list string) :
  In k cols -> exists i, col_index k cols = Some i.
Proof.
  induction cols as [|c cols IH]; simpl; [tauto | ].
  intros H. destruct (String.eqb_spec k c) as [->|Hne]; [eauto | ].
  destruct H as [->|H]; [congruence | ].
  destruct (IH H) as [i ->]. simpl. eauto.
Qed.

Lemma col_index_not_In (k : string) (cols : list string) :
  ~ In k cols -> col_index k cols = None.
Proof.
  induction cols as [|c cols IH]; simpl; [reflexivity | ].
  intros H. destruct (String.eqb_spec k c) as [->|Hne]; [tauto | ].
  rewrite IH; [reflexivity | tauto].
Qed.

Lemma col_index_nth (k : string) (cols : list string) (i : nat) :
  col_index k cols = Some i -> nth i cols "" = k /\ (i < length cols)%nat.
Proof.
  revert i. induction cols as [|c cols IH]; simpl; intros i H; [discriminate | ].
  destruct (String.eqb_spec k c) as [->|Hne].
  - injection H as <-. split; [reflexivity | lia].
  - destruct (col_index k cols) as [j|]; simpl in H; [ | discriminate].
    injection H as <-. destruct (IH j eq_refl). split; [assumption | lia].
Qed.

Lemma col_index_inj (a b : string) (cols : list string) (i : nat) :
  col_index a cols = Some i -> col_index b cols = Some i -> a = b.
Proof.
  intros Ha Hb. apply col_index_nth in Ha, Hb. destruct Ha, Hb. congruence.
Qed.

Lemma col_index_app_l (k : string) (cols more : list string) (i : nat) :
  col_index k cols = Some i -> col_index k (cols ++ more) = Some i.
Proof.
  revert i. induction cols as [|c cols IH]; simpl; intros i H; [discriminate | ].
  destruct (String.eqb k c); [exact H | ].
  destruct (col_index k cols) as [j|]; simpl in H; [ | discriminate].
  rewrite (IH j eq_refl). exact H.
Qed.

Lemma col_index_app_new (k : string) (cols : list string) :
  col_index k cols = None -> col_index k (cols ++ [k]) = Some (length cols).
Proof.
  induction cols as [|c cols IH]; simpl; intros H.
  - now rewrite String.eqb_refl.
  - destruct (String.eqb k c); [discriminate | ].
    destruct (col_index k cols); [discriminate | ].
    now rewrite IH.
Qed.

Lemma col_index_Some_In (k : string) (cols : list string) (i : nat) :
  col_index k cols = Some i -> In k cols.
Proof.
  intros H. apply col_index_nth in H. destruct H as [<- Hlt]. now apply nth_In.
Qed.

Lemma col_index_app_other (k name : string) (cols : list string) :
  k <> name -> col_index k cols = None -> col_index k (cols ++ [name]) = None.
Proof.
  intros Hne H. apply col_index_not_In. intros Hin.
  apply in_app_or in Hin. destruct Hin as [Hin|[->|[]]]; [ | congruence].
  destruct (col_index_In _ _ Hin). congruence.
Qed.

Lemma assoc_keys {A} (k : string) (r : list (string * A)) :
  assoc k r <> None <-> In k (map fst r).
Proof.
  induction r as [|[k' v] r IH]; simpl; [tauto | ].
  destruct (String.eqb_spec k k') as [->|Hne].
  - split; [now left | discriminate].
  - rewrite IH. split; [now right | intros [->|H]; [congruence | exact H]].
Qed.

Lemma fold_add_key_In (k : string) (r : list (string * json)) (acc : list string) :
  In k (fold_left pd.add_key r acc) <-> In k acc \/ In k (map fst r).
Proof.
  revert acc. induction r as [|[k' v] r IH]; intros acc; simpl; [tauto | ].
  rewrite IH. unfold pd.add_key. simpl.
  destruct (existsb (String.eqb k') acc) eqn:E.
  - apply mem_In in E. split; [tauto | ].
    intros [H|[->|H]]; tauto.
  - rewrite in_app_iff. simpl. split; [tauto | ].
    intros [H|[->|H]]; tauto.
Qed.

Lemma fold_union_keys_In (k : string) (rs : list (list (string * json))) (acc : list string) :
  In k (fold_left (fun acc r => fold_left pd.add_key r acc) rs acc) <->
  In k acc \/ exists r, In r rs /\ In k (map fst r).
Proof.
  revert acc. induction rs as [|r rs IH]; intros acc; simpl.
  - split; [tauto | intros [H|[r [[] _]]]; exact H].
  - rewrite IH, fold_add_key_In. split.
    + intros [[H|H]|[r' [H1 H2]]]; eauto.
    + intros [H|[r' [[->|H1] H2]]]; eauto.
Qed.

Lemma union_keys_In (k : string) (rs : list (list (string * json))) :
  In k (pd.union_keys rs) <-> exists r, In r rs /\ In k (map fst r).
Proof.
  unfold pd.union_keys. rewrite fold_union_keys_In. simpl. tauto.
Qed.

Lemma record_rows_map {B} (h : cell * list cell -> B) (h' : list (string * json) -> B)
    (keys : list string) (rs : list (list (string * json))) :
  (forall n r, h (pd.record_row keys n r) = h' r) ->
  forall n, map h (pd.record_rows keys n rs) = map h' rs.
Proof.
  intros Hh. induction rs as [|r rs IH]; intros n; simpl; [reflexivity | ].
  now rewrite Hh, IH.
Qed.

Lemma insert_by_map {A B} (g : A -> B) (leA : A -> A -> bool) (leB : B -> B -> bool) :
  (forall a b, leB (g a) (g b) = leA a b) ->
  forall x l, insert_by leB (g x) (map g l) = map g (insert_by leA x l).
Proof.
  intros H x l. induction l as [|y l IH]; simpl; [reflexivity | ].
  rewrite H. destruct (leA x y); simpl; [reflexivity | now rewrite IH].
Qed.

Lemma sort_by_map {A B} (g : A -> B) (leA : A -> A -> bool) (leB : B -> B -> bool) :
  (forall a b, leB (g a) (g b) = leA a b) ->
  forall l, sort_by leB (map g l) = map g (sort_by leA l).
Proof.
  intros H l. unfold sort_by. induction l as [|x l IH]; simpl; [reflexivity | ].
  rewrite IH. now apply insert_by_map.
Qed.

Lemma remove_nth_map {A B} (f : A -> B) (i : nat) (l : list A) :
  pd.remove_nth i (map f l) = map f (pd.remove_nth i l).
Proof.
  unfold pd.remove_nth. now rewrite map_app, firstn_map, skipn_map.
Qed.

Lemma nth_map_default {A B} (f : A -> B) (l : list A) (i : nat) (da : A) (db : B) :
  (i < length l)%nat -> nth i (map f l) db = f (nth i l da).
Proof.
  intros H. rewrite (nth_indep _ db (f da)); [apply map_nth | now rewrite length_map].
Qed.

Lemma row_cell_keys (ix : cell) (f : string -> cell) (keys : list string) (k : string) (i : nat) :
  col_index k keys = Some i -> row_cell i (ix, map f keys) = f k.
Proof.
  intros H. apply col_index_nth in H. destruct H as [<- Hlt].
  unfold row_cell. simpl. now apply nth_map_default.
Qed.

End Labels.

Section Payload.

Lemma wf_record_inv (r : list (string * json)) :
  wf_record r = true ->
  exists s d q,
    assoc "date" r = Some (JStr s) /\ iso_fields s = Some d /\
    valid_date d && timestamp_in_bounds d = true /\
    assoc "adjClose" r = Some (JNum q) /\ PrimFloat.is_nan q = false /\
    assoc "symbol" r = None.
Proof.
  unfold wf_record, record_date, record_adj. intros H.
  destruct (assoc "date" r) as [[| | |s| |]|]; try discriminate.
  destruct (iso_fields s) as [d|] eqn:Hd; try discriminate.
  destruct (valid_date d && timestamp_in_bounds d) eqn:Hv; try discriminate.
  destruct (assoc "adjClose" r) as [[| |q| | |]|]; try discriminate.
  destruct (PrimFloat.is_nan q) eqn:Hq; try discriminate.
  destruct (assoc "symbol" r); try discriminate.
  exists s, d, q. repeat split; assumption || reflexivity.
Qed.

Lemma wf_payload_inv (j : json) :
  wf_payload j = true ->
  exists l sym h r rs,
    j = JObj l /\ assoc "symbol" l = Some sym /\ assoc "historical" l = Some (JArr h) /\
    pd.as_records h = Some (r :: rs) /\ payload_records j = Some (sym, r :: rs) /\
    pd.is_scalar sym = true /\ forallb wf_record (r :: rs) = true.
Proof.
  unfold wf_payload. intros H.
  destruct (payload_records j) as [[sym [|r rs]]|] eqn:Hp; try discriminate.
  apply andb_true_iff in H. destruct H as [Hs Hr].
  unfold payload_records in Hp.
  destruct j as [| | | | |l]; try discriminate.
  destruct (assoc "symbol" l) as [sym'|] eqn:E1; try discriminate.
  destruct (assoc "historical" l) as [[| | | |h|]|] eqn:E2; try discriminate.
  destruct (pd.as_records h) as [rs'|] eqn:E3; try discriminate.
  injection Hp as -> ->.
  exists l, sym, h, r, rs. unfold payload_records. rewrite E1, E2, E3. repeat split; assumption || reflexivity.
Qed.

Lemma wf_In rs r : forallb wf_record rs = true -> In r rs -> wf_record r = true.
Proof. intros Hwf H. rewrite forallb_forall in Hwf. now apply Hwf. Qed.

Lemma date_in_keys rs :
  rs <> [] -> forallb wf_record rs = true -> In "date" (pd.union_keys rs).
Proof.
  intros Hne Hwf. destruct rs as [|r rs']; [congruence | ].
  apply union_keys_In. exists r. split; [now left | ].
  destruct (wf_record_inv r) as (s & d & q & H1 & _);
    [apply (wf_In _ _ Hwf); now left | ].
  apply assoc_keys. congruence.
Qed.

Lemma adj_in_keys rs :
  rs <> [] -> forallb wf_record rs = true -> In "adjClose" (pd.union_keys rs).
Proof.
  intros Hne Hwf. destruct rs as [|r rs']; [congruence | ].
  apply union_keys_In. exists r. split; [now left | ].
  destruct (wf_record_inv r) as (s & d & q & _ & _ & _ & H1 & _);
    [apply (wf_In _ _ Hwf); now left | ].
  apply assoc_keys. congruence.
Qed.

Lemma symbol_not_in_keys rs :
  forallb wf_record rs = true -> ~ In "symbol" (pd.union_keys rs).
Proof.
  intros Hwf H. apply union_keys_In in H. destruct H as [r [Hr Hk]].
  destruct (wf_record_inv r (wf_In _ _ Hwf Hr)) as (s & d & q & _ & _ & _ & _ & _ & H1).
  apply assoc_keys in Hk. congruence.
Qed.

Lemma date_cell rs r :
  forallb wf_record rs = true -> In r rs -> exists s, cell_at r "date" = CStr s.
Proof.
  intros Hwf Hr. destruct (wf_record_inv r (wf_In _ _ Hwf Hr)) as (s & d & q & H1 & _).
  exists s. unfold cell_at. now rewrite H1.
Qed.

End Payload.

Section Pipeline.

Variable px : pd.ext.

Lemma record_rows_numbered (keys : list string) (rs : list (list (string * json))) (n : nat) :
  pd.record_rows keys n rs =
  map (fun nr => pd.record_row keys (fst nr) (snd nr)) (combine (seq n (length rs)) rs).
Proof.
  revert n. induction rs as [|r rs IH]; intros n; simpl; [reflexivity | ].
  now rewrite IH.
Qed.

Lemma map_snd_numbered {A} (l : list A) (n : nat) :
  map snd (combine (seq n (length l)) l) = l.
Proof.
  revert n. induction l as [|x l IH]; intros n; simpl; [reflexivity | ].
  now rewrite IH.
Qed.

Lemma value_keys_eq rs i :
  col_index "date" (pd.union_keys rs) = Some i ->
  value_keys rs = pd.remove_nth i (pd.union_keys rs).
Proof. intros H. unfold value_keys. now rewrite H. Qed.

(** The three table steps of [_get_historical_fmp] on well-formed
    records. *)
Lemma daily_pipeline (sym : json) (rs : list (list (string * json))) :
  rs <> [] -> forallb wf_record rs = true -> pd.is_scalar sym = true ->
  pd.rbind (pd.insert0 px "symbol" sym (pd.from_records rs))
    (fun df => pd.rbind (pd.sort_values px "date" df) (pd.set_index "date"))
  = Ok (daily_frame sym rs).
Proof.
  intros Hne Hr Hs.
  destruct (col_index_In _ _ (date_in_keys rs Hne Hr)) as [i Hi].
  unfold pd.insert0, has_column, pd.from_records. simpl columns.
  rewrite (proj2 (mem_false _ _) (symbol_not_in_keys rs Hr)), Hs. simpl pd.rbind.
  unfold pd.sort_values. simpl columns. simpl col_index. rewrite Hi. simpl option_map.
  cbv iota. simpl rows.
  rewrite record_rows_numbered, map_map.
  set (G := fun nr : nat * list (string * json) =>
              ((pd.record_row (pd.union_keys rs) (fst nr) (snd nr)).1,
               cell_of_json sym :: (pd.record_row (pd.union_keys rs) (fst nr) (snd nr)).2)).
  assert (HG : forall nr, row_cell (S i) (G nr) = cell_at (snd nr) "date").
  { intros [n r]. unfold G, pd.record_row, row_cell. simpl.
    apply col_index_nth in Hi. destruct Hi as [<- Hlt].
    now apply nth_map_default. }
  assert (Hall : forallb (fun r0 => pd.is_str_or_na (row_cell (S i) r0))
                   (map G (combine (seq 0 (length rs)) rs)) = true).
  { rewrite forallb_forall. intros x Hx. apply in_map_iff in Hx.
    destruct Hx as [[n r] [<- Hin]]. rewrite HG. simpl.
    apply in_combine_r in Hin. destruct (date_cell rs r Hr Hin) as [s ->]. reflexivity. }
  rewrite Hall. simpl pd.rbind.
  unfold pd.set_index. simpl columns. simpl col_index. rewrite Hi. simpl option_map.
  cbv iota. simpl rows. simpl index_name.
  unfold daily_frame. rewrite (value_keys_eq rs i Hi).
  rewrite (sort_by_map G
             (fun a b => pd.date_key_leb (cell_at (snd a) "date") (cell_at (snd b) "date"))).
  2:{ intros a b. now rewrite !HG. }
  rewrite map_map. unfold sorted_records.
  assert (E : sort_by (fun a b => pd.date_key_leb (cell_at a "date") (cell_at b "date")) rs
              = map snd (sort_by
                           (fun a b : nat * list (string * json) =>
                              pd.date_key_leb (cell_at (snd a) "date") (cell_at (snd b) "date"))
                           (combine (seq 0 (length rs)) rs))).
  { rewrite <- (sort_by_map snd _
                  (fun a b => pd.date_key_leb (cell_at a "date") (cell_at b "date")))
      by reflexivity.
    now rewrite map_snd_numbered. }
  rewrite E, map_map.
  replace (pd.remove_nth (S i) ("symbol" :: pd.union_keys rs))
    with ("symbol" :: pd.remove_nth i (pd.union_keys rs)) by reflexivity.
  f_equal. apply (f_equal (mkDF _ _)). apply map_ext. intros [n r]. rewrite HG. simpl.
  unfold pd.remove_nth. simpl. do 2 f_equal.
  fold (pd.remove_nth i (map (cell_at r) (pd.union_keys rs))).
  apply remove_nth_map.
Qed.

End Pipeline.

Section Fetch.

Variable px : pd.ext.
Variable net : server.

Lemma get_historical_wf self url j sym rs w :
  net url = mkResponse 200 (Some j) ->
  payload_records j = Some (sym, rs) ->
  wf_payload j = true ->
  _get_historical_fmp px net self url w = (Ok (Some (daily_frame sym rs)), logged url w).
Proof.
  intros Hnet Hp Hw.
  destruct (wf_payload_inv j Hw) as (l & sym' & h & r & rs' & -> & E1 & E2 & E3 & Hp' & Hs & Hr).
  rewrite Hp in Hp'. injection Hp' as -> ->.
  assert (Hne : r :: rs' <> []) by discriminate.
  set (rs := r :: rs') in *.
  destruct (col_index_In _ _ (date_in_keys rs Hne Hr)) as [i Hi].
  unfold _get_historical_fmp, bind, requests_get. rewrite Hnet. simpl.
  destruct l as [|kv l]; [discriminate | ]. simpl json_is_empty_dict. cbv iota.
  unfold lift. unfold json_getitem. rewrite E1, E2.
  unfold pd.DataFrame_from_dict. rewrite E3.
  pose proof (daily_pipeline px sym' rs Hne Hr Hs) as Hpipe.
  destruct (pd.insert0 px "symbol" sym' (pd.from_records rs)) as [df1|e]; [ | discriminate].
  simpl in Hpipe.
  destruct (pd.sort_values px "date" df1) as [df2|e]; [ | discriminate].
  simpl in Hpipe. rewrite Hpipe. reflexivity.
Qed.


End Fetch.

(** ** Reading and writing columns *)

Section Columns.

Lemma map_combine_l {A B C} (f : A -> C) (l : list A) (l' : list B) :
  length l' = length l ->
  map (fun p => f (fst p)) (combine l l') = map f l.
Proof.
  revert l'. induction l as [|x l IH]; intros [|y l'] H; simpl in *; try discriminate;
    [reflexivity | ].
  f_equal. apply IH. lia.
Qed.

Lemma map_combine_r {A B C} (f : B -> C) (l : list A) (l' : list B) :
  length l' = length l ->
  map (fun p => f (snd p)) (combine l l') = map f l'.
Proof.
  revert l'. induction l as [|x l IH]; intros [|y l'] H; simpl in *; try discriminate;
    [reflexivity | ].
  f_equal. apply IH. lia.
Qed.

Lemma map_combine_ext {A B C} (f : A * B -> C) (g : A -> C) (l : list A) (l' : list B) :
  length l' = length l ->
  (forall x y, In (x, y) (combine l l') -> f (x, y) = g x) ->
  map f (combine l l') = map g l.
Proof.
  revert l'. induction l as [|x l IH]; intros [|y l'] H Hf; simpl in *; try discriminate;
    [reflexivity | ].
  f_equal; [apply Hf; now left | ].
  apply IH; [lia | ]. intros. apply Hf. now right.
Qed.

Lemma map_combine_ext_r {A B C} (f : A * B -> C) (g : B -> C) (l : list A) (l' : list B) :
  length l' = length l ->
  (forall x y, In (x, y) (combine l l') -> f (x, y) = g y) ->
  map f (combine l l') = map g l'.
Proof.
  revert l'. induction l as [|x l IH]; intros [|y l'] H Hf; simpl in *; try discriminate;
    [reflexivity | ].
  f_equal; [apply Hf; now left | ].
  apply IH; [lia | ]. intros. apply Hf. now right.
Qed.

Lemma nth_insert_eq {A} (l : list A) (i : nat) (x d : A) :
  (i < length l)%nat -> nth i (<[i := x]> l) d = x.
Proof.
  revert i. induction l as [|y l IH]; intros [|i] H; simpl in *; try lia; [reflexivity | ].
  apply IH. lia.
Qed.

Lemma nth_insert_ne {A} (l : list A) (i j : nat) (x d : A) :
  i <> j -> nth j (<[i := x]> l) d = nth j l d.
Proof.
  revert i j. induction l as [|y l IH]; intros [|i] [|j] H; simpl in *;
    try reflexivity; try congruence.
  apply IH. congruence.
Qed.

Lemma nth_app_l {A} (l l' : list A) (i : nat) (d : A) :
  (i < length l)%nat -> nth i (l ++ l') d = nth i l d.
Proof. intros H. now apply app_nth1. Qed.

Lemma column_Some (name : string) (df : DataFrame) (i : nat) :
  col_index name (columns df) = Some i ->
  column name df = Some (map (row_cell i) (rows df)).
Proof. intros H. unfold column. now rewrite H. Qed.

Lemma column_None (name : string) (df : DataFrame) :
  col_index name (columns df) = None -> column name df = None.
Proof. intros H. unfold column. now rewrite H. Qed.

(** What [df[name] = values] leaves behind. *)
Lemma setitem_spec (name : string) (values : list cell) (df : DataFrame) :
  well_shaped df ->
  length values = length (rows df) ->
  exists df',
    pd.setitem name values df = Ok df' /\
    index_name df' = index_name df /\
    index df' = index df /\
    column name df' = Some values /\
    (forall k, k <> name -> column k df' = column k df) /\
    well_shaped df' /\
    (columns df' = columns df \/
     (~ In name (columns df) /\ columns df' = columns df ++ [name])).
Proof.
  intros Hws Hlen. unfold pd.setitem.
  rewrite Hlen, Nat.eqb_refl. simpl negb. cbv iota.
  unfold well_shaped in Hws. rewrite List.Forall_forall in Hws.
  destruct (col_index name (columns df)) as [i|] eqn:Hi.
  - eexists. split; [reflexivity | ]. simpl.
    destruct (col_index_nth _ _ _ Hi) as [Hn Hlt].
    repeat split.
    + unfold index. simpl. rewrite map_map. simpl. now apply (map_combine_l fst).
    + unfold column. simpl. rewrite Hi, map_map. f_equal.
      rewrite <- (map_id values) at 2.
      apply map_combine_ext_r; [exact Hlen | ].
      intros r v Hin. unfold row_cell. simpl.
      apply nth_insert_eq. rewrite (Hws r); [exact Hlt | ].
      now apply in_combine_l in Hin.
    + intros k Hk. unfold column. simpl.
      destruct (col_index k (columns df)) as [j|] eqn:Hj; [ | reflexivity].
      f_equal. rewrite map_map. apply map_combine_ext; [exact Hlen | ].
      intros r v Hin. unfold row_cell. simpl. apply nth_insert_ne.
      intros ->. apply Hk. symmetry. exact (col_index_inj _ _ _ _ Hi Hj).
    + unfold well_shaped. simpl. rewrite List.Forall_forall. intros r' Hr'.
      apply in_map_iff in Hr'. destruct Hr' as [[r v] [<- Hin]]. simpl.
      rewrite length_insert. apply Hws. now apply in_combine_l in Hin.
    + now left.
  - eexists. split; [reflexivity | ]. simpl.
    assert (Hnot : ~ In name (columns df)).
    { intros Hin. destruct (col_index_In _ _ Hin). congruence. }
    repeat split.
    + unfold index. simpl. rewrite map_map. simpl. now apply (map_combine_l fst).
    + unfold column. simpl. rewrite (col_index_app_new _ _ Hi), map_map. f_equal.
      rewrite <- (map_id values) at 2.
      apply map_combine_ext_r; [exact Hlen | ].
      intros r v Hin. unfold row_cell. simpl.
      rewrite <- (Hws r) by now apply in_combine_l in Hin.
      now rewrite nth_middle.
    + intros k Hk. unfold column. simpl.
      destruct (col_index k (columns df)) as [j|] eqn:Hj.
      * rewrite (col_index_app_l _ _ [name] _ Hj). f_equal. rewrite map_map.
        apply map_combine_ext; [exact Hlen | ].
        intros r v Hin. unfold row_cell. simpl. apply app_nth1.
        rewrite (Hws r) by now apply in_combine_l in Hin.
        now apply col_index_nth in Hj.
      * now rewrite (col_index_app_other _ _ _ Hk Hj).
    + unfold well_shaped. simpl. rewrite List.Forall_forall. intros r' Hr'.
      apply in_map_iff in Hr'. destruct Hr' as [[r v] [<- Hin]]. simpl.
      rewrite !length_app. simpl. f_equal. apply Hws. now apply in_combine_l in Hin.
    + right. split; [exact Hnot | reflexivity].
Qed.

Lemma getitem_column (name : string) (df : DataFrame) (c : list cell) :
  column name df = Some c -> pd.getitem name df = Ok c.
Proof. intros H. unfold pd.getitem. now rewrite H. Qed.

Lemma column_length (name : string) (df : DataFrame) (c : list cell) :
  column name df = Some c -> length c = length (rows df).
Proof.
  unfold column. destruct (col_index name (columns df)); [ | discriminate].
  intros [= <-]. apply length_map.
Qed.

Lemma index_length (df : DataFrame) : length (index df) = length (rows df).
Proof. apply length_map. Qed.

End Columns.

(** ** Percent changes *)

Section PctChange.

Lemma combine_shift (p : cell) (s : list cell) :
  combine s (p :: removelast s) = prev_pairs p s.
Proof.
  revert p. induction s as [|x s IH]; intros p; [reflexivity | ].
  destruct s as [|y s]; [reflexivity | ].
  change (removelast (x :: y :: s)) with (x :: removelast (y :: s)).
  simpl combine. simpl prev_pairs. f_equal. apply IH.
Qed.

Lemma prev_pairs_length (p : cell) (s : list cell) : length (prev_pairs p s) = length s.
Proof. revert p. induction s; intros p; simpl; [reflexivity | now rewrite IHs]. Qed.


Lemma ffill_from_id (last : cell) (s : list cell) :
  no_na_numeric s -> ffill_from last s = s.
Proof.
  intros H. revert last. induction H as [|c s [_ Hc] _ IH]; intros last; simpl;
    [reflexivity | ].
  rewrite Hc. now rewrite IH.
Qed.

(** On a column of numbers without gaps, [pct_change] pairs every entry
    with the one before it. *)
Lemma pct_change_numbers (px : pd.ext) (s : list cell) :
  no_na_numeric s ->
  pd.pct_change px s = Ok (map (fun cp => pct_cell (fst cp) (snd cp)) (prev_pairs CNaN s)).
Proof.
  intros H. unfold pd.pct_change.
  assert (Hn : forallb is_numeric s = true).
  { apply forallb_forall. intros c Hc.
    unfold no_na_numeric in H. rewrite List.Forall_forall in H. now apply H. }
  rewrite Hn. unfold ffill. rewrite (ffill_from_id _ _ H).
  unfold shift1. now rewrite combine_shift.
Qed.

Lemma pct_cell_first (c : cell) : pct_cell c CNaN = CNaN.
Proof. now destruct c. Qed.

End PctChange.

(** ** ISO dates: string order is chronological order *)

Section IsoOrder.

Open Scope Z_scope.

Lemma digit_range (c : ascii) (x : Z) : digit_of_ascii c = Some x -> 0 <= x <= 9.
Proof.
  unfold digit_of_ascii.
  destruct ((48 <=? Z.of_N (N_of_ascii c)) && (Z.of_N (N_of_ascii c) <=? 57)) eqn:E;
    [ | discriminate].
  intros [= <-]. apply andb_true_iff in E. lia.
Qed.

Lemma digit_compare (a b : ascii) (x y : Z) :
  digit_of_ascii a = Some x -> digit_of_ascii b = Some y ->
  Ascii.compare a b = (x ?= y).
Proof.
  unfold digit_of_ascii, Ascii.compare.
  destruct ((48 <=? Z.of_N (N_of_ascii a)) && _); [ | discriminate].
  destruct ((48 <=? Z.of_N (N_of_ascii b)) && _); [ | discriminate].
  intros [= <-] [= <-].
  rewrite <- N2Z.inj_compare.
  destruct (Z.compare_spec (Z.of_N (N_of_ascii a)) (Z.of_N (N_of_ascii b)));
    symmetry; [apply Z.compare_eq_iff | apply Z.compare_lt_iff | apply Z.compare_gt_iff]; lia.
Qed.

Lemma lex_compare (base a b c d : Z) :
  0 <= b < base -> 0 <= d < base ->
  (base * a + b ?= base * c + d) =
  match a ?= c with
  | Eq => b ?= d
  | r => r
  end.
Proof.
  intros Hb Hd.
  destruct (Z.compare_spec a c) as [->|H|H].
  - destruct (Z.compare_spec b d);
      [apply Z.compare_eq_iff | apply Z.compare_lt_iff | apply Z.compare_gt_iff]; nia.
  - apply Z.compare_lt_iff. nia.
  - apply Z.compare_gt_iff. nia.
Qed.

Lemma num2_range (a b : ascii) (x : Z) : num2 a b = Some x -> 0 <= x < 100.
Proof.
  unfold num2.
  destruct (digit_of_ascii a) as [p|] eqn:Ea; [ | discriminate].
  destruct (digit_of_ascii b) as [q|] eqn:Eb; [ | discriminate].
  intros [= <-]. apply digit_range in Ea, Eb. lia.
Qed.

Lemma num2_compare (a b c d : ascii) (x y : Z) :
  num2 a b = Some x -> num2 c d = Some y ->
  (x ?= y) = match Ascii.compare a c with
             | Eq => Ascii.compare b d
             | r => r
             end.
Proof.
  unfold num2.
  destruct (digit_of_ascii a) as [p|] eqn:Ea; [ | discriminate].
  destruct (digit_of_ascii b) as [q|] eqn:Eb; [ | discriminate].
  destruct (digit_of_ascii c) as [p'|] eqn:Ec; [ | discriminate].
  destruct (digit_of_ascii d) as [q'|] eqn:Ed; [ | discriminate].
  intros [= <-] [= <-].
  rewrite (digit_compare _ _ _ _ Ea Ec), (digit_compare _ _ _ _ Eb Ed).
  apply digit_range in Eb, Ed. apply lex_compare; lia.
Qed.

Lemma num4_compare (a b c d a' b' c' d' : ascii) (x y : Z) :
  num4 a b c d = Some x -> num4 a' b' c' d' = Some y ->
  (x ?= y) = match Ascii.compare a a' with
             | Eq => match Ascii.compare b b' with
                     | Eq => match Ascii.compare c c' with
                             | Eq => Ascii.compare d d'
                             | r => r
                             end
                     | r => r
                     end
             | r => r
             end.
Proof.
  unfold num4.
  destruct (num2 a b) as [p|] eqn:E1; [ | discriminate].
  destruct (num2 c d) as [q|] eqn:E2; [ | discriminate].
  destruct (num2 a' b') as [p'|] eqn:E3; [ | discriminate].
  destruct (num2 c' d') as [q'|] eqn:E4; [ | discriminate].
  intros [= <-] [= <-].
  rewrite lex_compare by (eapply num2_range; eassumption).
  rewrite (num2_compare _ _ _ _ _ _ E1 E3), (num2_compare _ _ _ _ _ _ E2 E4).
  destruct (Ascii.compare a a'); reflexivity.
Qed.

Lemma iso_fields_inv (s : string) (a : date) :
  iso_fields s = Some a ->
  exists y1 y2 y3 y4 m1 m2 d1 d2,
    s = String y1 (String y2 (String y3 (String y4 (String "-"
          (String m1 (String m2 (String "-" (String d1 (String d2 EmptyString))))))))) /\
    num4 y1 y2 y3 y4 = Some (year a) /\ num2 m1 m2 = Some (month a) /\
    num2 d1 d2 = Some (day a).
Proof.
  unfold iso_fields.
  destruct s as [|y1 [|y2 [|y3 [|y4 [|h1 [|m1 [|m2 [|h2 [|d1 [|d2 [|]]]]]]]]]]];
    try discriminate.
  all: destruct h1 as [[] [] [] [] [] [] [] []]; try discriminate.
  all: destruct h2 as [[] [] [] [] [] [] [] []]; try discriminate.
  destruct (num4 y1 y2 y3 y4) as [y|] eqn:Ey; [ | discriminate].
  destruct (num2 m1 m2) as [m|] eqn:Em; [ | discriminate].
  destruct (num2 d1 d2) as [d|] eqn:Ed; [ | discriminate].
  intros [= <-]. exists y1, y2, y3, y4, m1, m2, d1, d2. simpl. auto.
Qed.

(** Two strings of the shape [dddd-dd-dd] compare as their dates do. *)
Lemma iso_compare (s t : string) (a b : date) :
  iso_fields s = Some a -> iso_fields t = Some b ->
  String.compare s t = date_compare a b.
Proof.
  intros Hs Ht.
  destruct (iso_fields_inv s a Hs) as (y1 & y2 & y3 & y4 & m1 & m2 & d1 & d2 & -> & Hy & Hm & Hd).
  destruct (iso_fields_inv t b Ht) as (z1 & z2 & z3 & z4 & n1 & n2 & e1 & e2 & -> & Hz & Hn & He).
  unfold date_compare.
  rewrite (num4_compare _ _ _ _ _ _ _ _ _ _ Hy Hz).
  rewrite (num2_compare _ _ _ _ _ _ Hm Hn), (num2_compare _ _ _ _ _ _ Hd He).
  simpl String.compare.
  change (Ascii.compare "-" "-") with Eq.
  destruct (Ascii.compare y1 z1); try reflexivity.
  destruct (Ascii.compare y2 z2); try reflexivity.
  destruct (Ascii.compare y3 z3); try reflexivity.
  destruct (Ascii.compare y4 z4); try reflexivity.
  destruct (Ascii.compare m1 n1); try reflexivity.
  destruct (Ascii.compare m2 n2); try reflexivity.
  destruct (Ascii.compare d1 e1); try reflexivity.
  destruct (Ascii.compare d2 e2); reflexivity.
Qed.

Lemma iso_leb (s t : string) (a b : date) :
  iso_fields s = Some a -> iso_fields t = Some b ->
  String.leb s t = date_leb a b.
Proof.
  intros Hs Ht. unfold String.leb, date_leb. now rewrite (iso_compare s t a b Hs Ht).
Qed.

End IsoOrder.

(** ** Sorting *)

Section Sorting.

Context {A : Type} (leb : A -> A -> bool) (P : A -> Prop).

Hypothesis leb_total : forall a b, P a -> P b -> leb a b = false -> leb b a = true.
Hypothesis leb_trans :
  forall a b c, P a -> P b -> P c -> leb a b = true -> leb b c = true -> leb a c = true.

Lemma insert_by_perm (x : A) (l : list A) : Permutation (insert_by leb x l) (x :: l).
Proof.
  induction l as [|y l IH]; simpl; [reflexivity | ].
  destruct (leb x y); [reflexivity | ].
  rewrite IH. apply perm_swap.
Qed.

Lemma sort_by_perm (l : list A) : Permutation (sort_by leb l) l.
Proof.
  unfold sort_by. induction l as [|x l IH]; simpl; [reflexivity | ].
  rewrite insert_by_perm. now apply perm_skip.
Qed.

Lemma insert_by_sorted (x : A) (l : list A) :
  P x -> List.Forall P l ->
  StronglySorted (fun a b => leb a b = true) l ->
  StronglySorted (fun a b => leb a b = true) (insert_by leb x l).
Proof using leb_total leb_trans.
  intros Hx HP Hs. induction Hs as [|y l Hs IH Hy]; simpl.
  - constructor; constructor.
  - inversion HP as [|? ? Py Pl]; subst.
    destruct (leb x y) eqn:E.
    + constructor; [now constructor | ].
      constructor; [exact E | ].
      rewrite List.Forall_forall in Hy, Pl |- *. intros z Hz.
      apply (leb_trans x y z); auto.
    + constructor; [now apply IH | ].
      rewrite List.Forall_forall in Hy |- *. intros z Hz.
      apply (Permutation_in _ (insert_by_perm x l)) in Hz.
      destruct Hz as [<-|Hz]; [now apply leb_total | now apply Hy].
Qed.

Lemma sort_by_sorted (l : list A) :
  List.Forall P l -> StronglySorted (fun a b => leb a b = true) (sort_by leb l).
Proof using leb_total leb_trans.
  unfold sort_by. induction l as [|x l IH]; intros HP; simpl; [constructor | ].
  inversion HP as [|? ? Px Pl]; subst.
  apply insert_by_sorted; [exact Px | | now apply IH].
  rewrite List.Forall_forall in Pl |- *. intros z Hz.
  apply Pl. exact (Permutation_in _ (sort_by_perm l) Hz).
Qed.

End Sorting.

(** ** Chronological order *)

Section Chronology.

Open Scope Z_scope.

Lemma date_compare_eq (a b : date) : date_compare a b = Eq -> a = b.
Proof.
  unfold date_compare. destruct a as [y m d], b as [y' m' d']. simpl.
  destruct (Z.compare_spec y y'); try discriminate.
  destruct (Z.compare_spec m m'); try discriminate.
  destruct (Z.compare_spec d d'); try discriminate.
  intros _. congruence.
Qed.

Lemma date_compare_refl (a : date) : date_compare a a = Eq.
Proof. unfold date_compare. now rewrite !Z.compare_refl. Qed.

(** [date_leb] as an order on triples. *)
Lemma date_leb_spec (a b : date) :
  date_leb a b = true <->
  year a < year b \/
  (year a = year b /\ (month a < month b \/ (month a = month b /\ day a <= day b))).
Proof.
  unfold date_leb, date_compare.
  destruct (Z.compare_spec (year a) (year b));
    [destruct (Z.compare_spec (month a) (month b));
       [destruct (Z.compare_spec (day a) (day b)) | | ] | | ];
    split; intros; try discriminate; try reflexivity; lia.
Qed.

Lemma date_leb_false (a b : date) :
  date_leb a b = false <->
  year b < year a \/
  (year a = year b /\ (month b < month a \/ (month a = month b /\ day b < day a))).
Proof.
  unfold date_leb, date_compare.
  destruct (Z.compare_spec (year a) (year b));
    [destruct (Z.compare_spec (month a) (month b));
       [destruct (Z.compare_spec (day a) (day b)) | | ] | | ];
    split; intros; try discriminate; try reflexivity; lia.
Qed.


Lemma date_leb_total (a b : date) : date_leb a b = false -> date_leb b a = true.
Proof. rewrite date_leb_false, date_leb_spec. lia. Qed.

Lemma date_leb_trans (a b c : date) :
  date_leb a b = true -> date_leb b c = true -> date_leb a c = true.
Proof. rewrite !date_leb_spec. lia. Qed.

Lemma date_leb_antisym (a b : date) :
  date_leb a b = true -> date_leb b a = true -> a = b.
Proof.
  rewrite !date_leb_spec. destruct a, b; simpl. intros. f_equal; lia.
Qed.

Lemma date_eqb_eq (a b : date) : date_eqb a b = true <-> a = b.
Proof.
  unfold date_eqb. rewrite !andb_true_iff, !Z.eqb_eq.
  destruct a, b; simpl. split; [intros [[-> ->] ->]; reflexivity | intros [= -> -> ->]; auto].
Qed.

End Chronology.

(** ** The daily table of a well-formed payload *)

Section DailyFrame.

Lemma record_date_cell (r : list (string * json)) (d : date) :
  record_date r = Some d ->
  exists s, cell_at r "date" = CStr s /\ iso_fields s = Some d /\
            valid_date d && timestamp_in_bounds d = true.
Proof.
  unfold record_date, cell_at.
  destruct (assoc "date" r) as [[| | |s| |]|]; try discriminate.
  destruct (iso_fields s) as [d'|] eqn:E; [ | discriminate].
  destruct (valid_date d' && timestamp_in_bounds d') eqn:Hv; [ | discriminate].
  intros [= <-]. exists s. auto.
Qed.

Lemma wf_record_date (r : list (string * json)) :
  wf_record r = true -> exists d, record_date r = Some d.
Proof.
  unfold wf_record. destruct (record_date r) as [d|]; [eauto | discriminate].
Qed.

Lemma wf_record_adj (r : list (string * json)) :
  wf_record r = true -> exists q, cell_at r "adjClose" = CNum q /\ record_adj r = Some q.
Proof.
  intros H. destruct (wf_record_inv r H) as (s & d & q & _ & _ & _ & Hq & Hn & _).
  exists q. unfold cell_at, record_adj. rewrite Hq. cbn [cell_of_json].
  unfold cell_of_float. now rewrite Hn.
Qed.

(** On well-formed records the order of [sort_values] is the order of the
    dates. *)
Lemma record_leb_dates (a b : list (string * json)) (da db : date) :
  record_date a = Some da -> record_date b = Some db ->
  pd.date_key_leb (cell_at a "date") (cell_at b "date") = date_leb da db.
Proof.
  intros Ha Hb.
  destruct (record_date_cell a da Ha) as (s & -> & Hs & _).
  destruct (record_date_cell b db Hb) as (t & -> & Ht & _).
  simpl. now apply iso_leb.
Qed.

Lemma sorted_records_perm (rs : list (list (string * json))) :
  Permutation (sorted_records rs) rs.
Proof. apply sort_by_perm. Qed.

Lemma sorted_records_wf (rs : list (list (string * json))) :
  forallb wf_record rs = true -> forallb wf_record (sorted_records rs) = true.
Proof.
  rewrite !forallb_forall. intros H r Hr. apply H.
  exact (Permutation_in _ (sorted_records_perm rs) Hr).
Qed.

Lemma sorted_records_sorted (rs : list (list (string * json))) :
  forallb wf_record rs = true ->
  StronglySorted
    (fun a b => pd.date_key_leb (cell_at a "date") (cell_at b "date") = true)
    (sorted_records rs).
Proof.
  intros Hwf. unfold sorted_records.
  apply (sort_by_sorted _ (fun r => wf_record r = true)).
  - intros a b Ha Hb.
    destruct (wf_record_date a Ha) as [da Hda], (wf_record_date b Hb) as [db Hdb].
    rewrite (record_leb_dates a b da db Hda Hdb), (record_leb_dates b a db da Hdb Hda).
    apply date_leb_total.
  - intros a b c Ha Hb Hc.
    destruct (wf_record_date a Ha) as [da Hda], (wf_record_date b Hb) as [db Hdb],
             (wf_record_date c Hc) as [dc Hdc].
    rewrite (record_leb_dates a b da db Hda Hdb), (record_leb_dates b c db dc Hdb Hdc),
            (record_leb_dates a c da dc Hda Hdc).
    apply date_leb_trans.
  - rewrite List.Forall_forall. intros r Hr. rewrite forallb_forall in Hwf. now apply Hwf.
Qed.

End DailyFrame.

Section DailyTable.

Lemma In_remove_nth {A} (x d : A) (i : nat) (l : list A) :
  In x l -> nth i l d <> x -> In x (pd.remove_nth i l).
Proof.
  unfold pd.remove_nth. revert i. induction l as [|y l IH]; intros i Hin Hn; [destruct Hin | ].
  destruct i as [|i]; simpl in *.
  - destruct Hin as [->|Hin]; [congruence | exact Hin].
  - destruct Hin as [->|Hin]; [now left | right; now apply IH].
Qed.

Lemma remove_nth_In {A} (x : A) (i : nat) (l : list A) :
  In x (pd.remove_nth i l) -> In x l.
Proof.
  unfold pd.remove_nth. revert i. induction l as [|y l IH]; intros i H.
  - destruct i; destruct H.
  - destruct i as [|i]; simpl in *; [now right | ].
    destruct H as [->|H]; [now left | right; now apply (IH i)].
Qed.

Lemma value_keys_sub (rs : list (list (string * json))) (k : string) :
  In k (value_keys rs) -> In k (pd.union_keys rs).
Proof.
  unfold value_keys. destruct (col_index "date" (pd.union_keys rs)); [apply remove_nth_In | auto].
Qed.

Lemma adj_in_value_keys (rs : list (list (string * json))) :
  rs <> [] -> forallb wf_record rs = true -> In "adjClose" (value_keys rs).
Proof.
  intros Hne Hwf. unfold value_keys.
  destruct (col_index "date" (pd.union_keys rs)) as [i|] eqn:Hi;
    [ | now apply adj_in_keys].
  apply In_remove_nth with (d := ""); [now apply adj_in_keys | ].
  apply col_index_nth in Hi. destruct Hi as [-> _]. discriminate.
Qed.

Lemma daily_frame_shaped (sym : json) (rs : list (list (string * json))) :
  well_shaped (daily_frame sym rs).
Proof.
  unfold well_shaped, daily_frame. simpl. rewrite List.Forall_forall.
  intros r Hr. apply in_map_iff in Hr. destruct Hr as [r0 [<- _]]. simpl.
  now rewrite length_map.
Qed.

Lemma daily_frame_index (sym : json) (rs : list (list (string * json))) :
  index (daily_frame sym rs) = map (fun r => cell_at r "date") (sorted_records rs).
Proof. unfold index, daily_frame. simpl. now rewrite map_map. Qed.

Lemma daily_frame_column (sym : json) (rs : list (list (string * json))) (k : string) :
  forallb wf_record rs = true -> In k (value_keys rs) ->
  column k (daily_frame sym rs) = Some (map (fun r => cell_at r k) (sorted_records rs)).
Proof.
  intros Hwf Hk.
  assert (Hne : k <> "symbol").
  { intros ->. apply (symbol_not_in_keys rs Hwf). now apply value_keys_sub. }
  destruct (col_index_In _ _ Hk) as [j Hj].
  unfold column, daily_frame. simpl.
  destruct (String.eqb_spec k "symbol"); [contradiction | ].
  rewrite Hj. simpl. f_equal. rewrite map_map. apply map_ext. intros r.
  unfold row_cell. simpl.
  apply col_index_nth in Hj. destruct Hj as [<- Hlt]. now apply nth_map_default.
Qed.


Lemma adj_cells_numbers (rs : list (list (string * json))) :
  forallb wf_record rs = true -> no_na_numeric (adj_cells rs).
Proof.
  intros Hwf. unfold no_na_numeric, adj_cells. rewrite List.Forall_forall.
  intros c Hc. apply in_map_iff in Hc. destruct Hc as [r [<- Hr]].
  pose proof (sorted_records_wf rs Hwf) as Hs. rewrite forallb_forall in Hs.
  destruct (wf_record_adj r (Hs r Hr)) as [q [-> _]]. auto.
Qed.

Lemma pct_cells_length (s : list cell) : length (pct_cells s) = length s.
Proof. unfold pct_cells. now rewrite length_map, prev_pairs_length. Qed.

End DailyTable.

Section DailyCall.

Variable px : pd.ext.
Variable net : server.

Lemma adj_column (sym : json) (rs : list (list (string * json))) :
  rs <> [] -> forallb wf_record rs = true ->
  column "adjClose" (daily_frame sym rs) = Some (adj_cells rs).
Proof.
  intros Hne Hr. apply daily_frame_column; [exact Hr | now apply adj_in_value_keys].
Qed.

Lemma daily_result_spec (sym : json) (rs : list (list (string * json))) :
  rs <> [] -> forallb wf_record rs = true ->
  exists D,
    daily_result sym rs = Ok D /\
    index_name D = Some "date" /\
    index D = map (fun r => cell_at r "date") (sorted_records rs) /\
    column "pct change" D = Some (pct_cells (adj_cells rs)) /\
    (forall k, k <> "pct change" -> column k D = column k (daily_frame sym rs)) /\
    well_shaped D /\
    (columns D = columns (daily_frame sym rs) \/
     (~ In "pct change" (columns (daily_frame sym rs)) /\
      columns D = columns (daily_frame sym rs) ++ ["pct change"])).
Proof.
  intros Hne Hr.
  destruct (setitem_spec "pct change" (pct_cells (adj_cells rs)) (daily_frame sym rs))
    as (D & HD & Hname & Hidx & Hcol & Hoth & Hsh & Hcols).
  { apply daily_frame_shaped. }
  { rewrite pct_cells_length. exact (column_length _ _ _ (adj_column sym rs Hne Hr)). }
  exists D. split; [exact HD | ].
  rewrite Hname, Hidx, daily_frame_index. auto 10.
Qed.

Lemma payload_records_wf (j : json) (sym : json) (rs : list (list (string * json))) :
  payload_records j = Some (sym, rs) -> wf_payload j = true ->
  rs <> [] /\ forallb wf_record rs = true /\ pd.is_scalar sym = true.
Proof.
  intros Hp Hw.
  destruct (wf_payload_inv j Hw) as (l & sym' & h & r & rs' & -> & _ & _ & _ & Hp' & Hs & Hr).
  rewrite Hp in Hp'. injection Hp' as -> ->. repeat split; [discriminate | exact Hr | exact Hs].
Qed.

(** The steps every non-intraday call starts with: the fetch, the
    adjusted closes, their percent changes, the new column. *)
Lemma daily_steps self ticker j sym rs w {B} (k : DataFrame -> M B) D :
  net (daily_url_of self ticker) = mkResponse 200 (Some j) ->
  payload_records j = Some (sym, rs) ->
  wf_payload j = true ->
  daily_result sym rs = Ok D ->
  (let* fetched := _get_historical_fmp px net self (daily_url_of self ticker) in
   let* historical_df := lift (subscriptable fetched) in
   let* adj := lift (pd.getitem "adjClose" historical_df) in
   let* pct := lift (pd.pct_change px adj) in
   let* historical_df := lift (pd.setitem "pct change" pct historical_df) in
   k historical_df) w
  = k D (logged (daily_url_of self ticker) w).
Proof.
  intros Hnet Hp Hw HD.
  destruct (payload_records_wf j sym rs Hp Hw) as (Hne & Hr & _).
  unfold bind.
  rewrite (get_historical_wf px net self _ _ sym rs w Hnet Hp Hw).
  unfold lift, subscriptable.
  rewrite (getitem_column _ _ _ (adj_column sym rs Hne Hr)).
  rewrite (pct_change_numbers px _ (adj_cells_numbers rs Hr)).
  fold (pct_cells (adj_cells rs)). fold (daily_result sym rs). rewrite HD. reflexivity.
Qed.

(** What the ['1d'] call returns on a well-formed payload. *)
Lemma daily_call self ticker j sym rs w D :
  net (daily_url_of self ticker) = mkResponse 200 (Some j) ->
  payload_records j = Some (sym, rs) ->
  wf_payload j = true ->
  daily_result sym rs = Ok D ->
  historical_price_by_interval px net self ticker "1d" w
  = (Ok D, logged (daily_url_of self ticker) w).
Proof.
  intros Hnet Hp Hw HD.
  unfold historical_price_by_interval.
  change (existsb (String.eqb "1d") intraday_intervals) with false.
  change (String.eqb "1d" "1d") with true. cbv iota.
  fold (daily_url_of self ticker).
  exact (daily_steps self ticker j sym rs w ret D Hnet Hp Hw HD).
Qed.

End DailyCall.

(** ** Dropping duplicates *)

Section Masks.

Lemma drop_dups_pick {A} (key : A -> cell) (seen : list cell) (l : list A) :
  drop_dups key seen l = pick (first_mask_from seen (map key l)) l.
Proof.
  revert seen. induction l as [|x l IH]; intros seen; simpl; [reflexivity | ].
  destruct (existsb (cell_eqb (key x)) seen); simpl; now rewrite IH.
Qed.

Lemma pick_map {A B} (f : A -> B) (mask : list bool) (l : list A) :
  map f (pick mask l) = pick mask (map f l).
Proof.
  revert l. induction mask as [|b mask IH]; intros [|x l]; simpl; try reflexivity.
  destruct b; simpl; now rewrite IH.
Qed.

(** What [drop_duplicates] keeps, column by column. *)
Lemma drop_duplicates_spec (name : string) (df : DataFrame) (keys : list cell) :
  column name df = Some keys ->
  exists T,
    pd.drop_duplicates name df = Ok T /\
    index_name T = index_name df /\
    columns T = columns df /\
    index T = pick (first_mask keys) (index df) /\
    (forall k, column k T = option_map (pick (first_mask keys)) (column k df)).
Proof.
  unfold column, pd.drop_duplicates.
  destruct (col_index name (columns df)) as [i|] eqn:Hi; [ | discriminate].
  intros [= <-]. eexists. split; [reflexivity | ]. simpl.
  repeat split.
  - unfold index. simpl. rewrite drop_dups_pick. apply pick_map.
  - intros k. unfold column. simpl. destruct (col_index k (columns df)); [ | reflexivity].
    simpl. f_equal. rewrite drop_dups_pick. apply pick_map.
Qed.

(** Storing a column of bucket cells and dropping its duplicates. *)
Lemma bucket_steps (name : string) (bcells : list cell) (df : DataFrame) :
  well_shaped df ->
  length bcells = length (rows df) ->
  exists T,
    pd.rbind (pd.setitem name bcells df) (pd.drop_duplicates name) = Ok T /\
    index_name T = index_name df /\
    index T = pick (first_mask bcells) (index df) /\
    column name T = Some (pick (first_mask bcells) bcells) /\
    (forall k, k <> name ->
               column k T = option_map (pick (first_mask bcells)) (column k df)).
Proof.
  intros Hws Hlen.
  destruct (setitem_spec name bcells df Hws Hlen)
    as (D2 & HD2 & Hname & Hidx & Hcol & Hoth & _ & _).
  destruct (drop_duplicates_spec name D2 bcells Hcol) as (T & HT & Hn & _ & Hi & Hc).
  exists T. rewrite HD2. simpl. split; [exact HT | ].
  rewrite Hn, Hi, Hname, Hidx. repeat split.
  - now rewrite Hc, Hcol.
  - intros k Hk. now rewrite Hc, (Hoth k Hk).
Qed.



Lemma rmap_map_ok {A B C} (f : B -> result C) (h : A -> B) (g : A -> C) (l : list A) :
  (forall x, In x l -> f (h x) = Ok (g x)) -> pd.rmap f (map h l) = Ok (map g l).
Proof.
  induction l as [|x l IH]; intros H; simpl; [reflexivity | ].
  rewrite (H x) by now left. simpl. rewrite IH; [reflexivity | ].
  intros y Hy. apply H. now right.
Qed.

End Masks.

(** Evaluates the tests on a literal interval. *)
Ltac eval_string_tests :=
  repeat match goal with
         | |- context [String.eqb ?a ?b] =>
             let v := eval vm_compute in (String.eqb a b) in
             match v with
             | true => change (String.eqb a b) with true
             | false => change (String.eqb a b) with false
             end
         | |- context [existsb (String.eqb ?a) intraday_intervals] =>
             let v := eval vm_compute in (existsb (String.eqb a) intraday_intervals) in
             match v with
             | true => change (existsb (String.eqb a) intraday_intervals) with true
             | false => change (existsb (String.eqb a) intraday_intervals) with false
             end
         end; cbv iota.

Section BucketCall.

Variable px : pd.ext.
Variable net : server.

Lemma record_day_cell (r : list (string * json)) :
  wf_record r = true ->
  pd.to_datetime_cell px (cell_at r "date") = Ok (CTime (record_day r)).
Proof.
  intros H. destruct (wf_record_date r H) as [d Hd].
  destruct (record_date_cell r d Hd) as (s & Hc & Hs & Hv).
  unfold record_day. rewrite Hd, Hc. simpl. now rewrite Hs, Hv.
Qed.

Lemma to_datetime_index (rs : list (list (string * json))) :
  forallb wf_record rs = true ->
  pd.to_datetime px (map (fun r => cell_at r "date") (sorted_records rs))
  = Ok (map CTime (dates_of rs)).
Proof.
  intros Hwf. unfold pd.to_datetime, dates_of. rewrite map_map.
  apply rmap_map_ok. intros r Hr. apply record_day_cell.
  pose proof (sorted_records_wf rs Hwf) as Hs. rewrite forallb_forall in Hs. now apply Hs.
Qed.

(** The Mondays of weeks within bounds, as timestamps. *)
Lemma start_time_weeks (ds : list date) :
  weeks_in_bounds ds = true ->
  pd.start_time px (map (fun d => CPeriod FW (week_start d)) ds)
  = Ok (map (fun d => CTime (week_start d)) ds).
Proof.
  intros H. unfold pd.start_time. apply rmap_map_ok. intros d Hd.
  unfold weeks_in_bounds in H. rewrite forallb_forall in H.
  cbn [pd.start_time_cell]. now rewrite (H d Hd).
Qed.


Lemma dates_of_length (rs : list (list (string * json))) :
  length (dates_of rs) = length (sorted_records rs).
Proof. unfold dates_of. apply length_map. Qed.

(** What a weekly, monthly, quarterly or yearly call returns on a
    well-formed payload, against the table [D] of the daily call. *)
Lemma bucket_call self ticker interval j sym rs w D :
  net (daily_url_of self ticker) = mkResponse 200 (Some j) ->
  payload_records j = Some (sym, rs) ->
  wf_payload j = true ->
  daily_result sym rs = Ok D ->
  In interval bucketed_intervals ->
  buckets_readable px interval (dates_of rs) = true ->
  exists T,
    historical_price_by_interval px net self ticker interval w
      = (Ok T, logged (daily_url_of self ticker) w) /\
    index_name T = Some "date" /\
    index T = pick (first_mask (map (bucket_cell interval) (dates_of rs))) (index D) /\
    column (bucket_column interval) T
      = Some (pick (first_mask (map (bucket_cell interval) (dates_of rs)))
                   (map (bucket_cell interval) (dates_of rs))) /\
    (forall k, k <> "daily" -> k <> bucket_column interval ->
               column k T
               = option_map (pick (first_mask (map (bucket_cell interval) (dates_of rs))))
                            (column k D)).
Proof.
  intros Hnet Hp Hw HD Hin Hok.
  destruct (payload_records_wf j sym rs Hp Hw) as (Hne & Hr & _).
  destruct (daily_result_spec sym rs Hne Hr) as (D' & HD' & Hname & Hidx & _ & _ & Hsh & _).
  rewrite HD in HD'. injection HD' as <-.
  assert (Hlen : length (map CTime (dates_of rs)) = length (rows D)).
  { rewrite length_map, dates_of_length, <- index_length, Hidx. now rewrite length_map. }
  destruct (setitem_spec "daily" (map CTime (dates_of rs)) D Hsh Hlen)
    as (D1 & HD1 & Hname1 & Hidx1 & Hcol1 & Hoth1 & Hsh1 & _).
  assert (Hlen1 : length (map (bucket_cell interval) (dates_of rs)) = length (rows D1)).
  { rewrite <- index_length, Hidx1, index_length, <- Hlen. now rewrite !length_map. }
  destruct (bucket_steps (bucket_column interval) (map (bucket_cell interval) (dates_of rs))
                         D1 Hsh1 Hlen1)
    as (T & HT & HnT & HiT & HcT & HoT).
  exists T. split.
  - unfold historical_price_by_interval.
    fold (daily_url_of self ticker).
    simpl in Hin. destruct Hin as [<-|[<-|[<-|[<-|[]]]]];
      eval_string_tests;
      rewrite (daily_steps px net self ticker j sym rs w _ D Hnet Hp Hw HD);
      unfold bind, lift;
      rewrite Hidx, (to_datetime_index rs Hr), HD1, (getitem_column _ _ _ Hcol1).
    + change (pd.dt_to_period px "w" (map CTime (dates_of rs)))
        with (Ok (map (fun c => match c with
                                | CTime d => CPeriod FW (week_start d)
                                | _ => CNaN
                                end) (map CTime (dates_of rs)))).
      rewrite !map_map. rewrite (start_time_weeks _ Hok).
      revert HT. unfold bucket_column, bucket_cell. eval_string_tests.
      destruct (pd.setitem "week" _ D1) as [D2|e]; [ | discriminate].
      simpl. now intros ->.
    + unfold pd.astype_month.
      revert Hok. unfold buckets_readable. eval_string_tests.
      destruct (pd.cast_month px); [intros _ | discriminate].
      revert HT. unfold bucket_column, bucket_cell. eval_string_tests.
      destruct (pd.setitem "monthly" _ D1) as [D2|e]; [ | discriminate].
      simpl. now intros ->.
    + change (pd.dt_to_period px "q" (map CTime (dates_of rs)))
        with (Ok (map (fun c => match c with
                                | CTime d => CPeriod FQ (quarter_start d)
                                | _ => CNaN
                                end) (map CTime (dates_of rs)))).
      rewrite !map_map.
      revert HT. unfold bucket_column, bucket_cell. eval_string_tests.
      destruct (pd.setitem "quarter" _ D1) as [D2|e]; [ | discriminate].
      simpl. now intros ->.
    + unfold pd.dt_year. rewrite !map_map.
      revert HT. unfold bucket_column, bucket_cell. eval_string_tests.
      destruct (pd.setitem "year" _ D1) as [D2|e]; [ | discriminate].
      simpl. now intros ->.
  - rewrite HnT, Hname1, Hname, HiT, Hidx1. repeat split; [exact HcT | ].
    intros k Hk1 Hk2. now rewrite (HoT k Hk2), (Hoth1 k Hk1).
Qed.


End BucketCall.

(** ** First entries of buckets *)

Section FirstOfBucket.

Context {A B : Type} (kc : A -> cell) (f : A -> B).

Hypothesis kc_eq : forall a b, cell_eqb (kc a) (kc b) = true <-> f a = f b.

Lemma seen_In (x : A) (seen : list A) :
  existsb (cell_eqb (kc x)) (map kc seen) = true <-> In (f x) (map f seen).
Proof using kc_eq.
  rewrite existsb_exists. split.
  - intros [c [Hc He]]. apply in_map_iff in Hc. destruct Hc as [y [<- Hy]].
    apply kc_eq in He. rewrite He. now apply in_map.
  - intros H. apply in_map_iff in H. destruct H as [y [Hy Hin]].
    exists (kc y). split; [now apply in_map | ]. apply kc_eq. congruence.
Qed.

Lemma pick_In (mask : list bool) (l : list A) (x : A) : In x (pick mask l) -> In x l.
Proof.
  revert l. induction mask as [|b mask IH]; intros [|y l] H; simpl in *; try tauto.
  destruct b; [destruct H as [->|H]; [now left | right; now apply IH] | right; now apply IH].
Qed.

Lemma pick_sorted (R : A -> A -> Prop) (mask : list bool) (l : list A) :
  StronglySorted R l -> StronglySorted R (pick mask l).
Proof.
  revert l. induction mask as [|b mask IH]; intros [|y l] H; simpl; try constructor.
  inversion H as [|? ? Hs Hy]; subst.
  destruct b; [ | now apply IH].
  constructor; [now apply IH | ].
  rewrite List.Forall_forall in Hy |- *. intros z Hz. apply Hy. exact (pick_In _ _ _ Hz).
Qed.

(** The kept entries have pairwise different buckets, none seen before. *)
Lemma first_mask_nodup (seen l : list A) :
  List.NoDup (map f (pick (first_mask_from (map kc seen) (map kc l)) l)) /\
  (forall x, In x (pick (first_mask_from (map kc seen) (map kc l)) l) ->
             ~ In (f x) (map f seen)).
Proof using kc_eq.
  revert seen. induction l as [|y l IH]; intros seen; simpl.
  - split; [constructor | tauto].
  - destruct (existsb (cell_eqb (kc y)) (map kc seen)) eqn:E; simpl.
    + apply IH.
    + assert (Hy : ~ In (f y) (map f seen)).
      { intros H. apply seen_In in H. congruence. }
      destruct (IH (y :: seen)) as [Hnd Hout]. simpl in Hout.
      split.
      * constructor; [ | exact Hnd].
        intros H. apply in_map_iff in H. destruct H as [z [Hz Hin]].
        apply (Hout z Hin). now left.
      * intros x [<-|Hx]; [exact Hy | ].
        intros H. apply (Hout x Hx). now right.
Qed.

(** Every bucket of the list is seen before or kept, by an entry at or
    before each of its members. *)
Lemma first_mask_covers (R : A -> A -> Prop) (seen l : list A) :
  StronglySorted R l ->
  forall d, In d l ->
    In (f d) (map f seen) \/
    exists k, In k (pick (first_mask_from (map kc seen) (map kc l)) l) /\
              f k = f d /\ (k = d \/ R k d).
Proof using kc_eq.
  intros Hs. revert seen. induction Hs as [|y l Hs IH Hy]; intros seen d Hd; [destruct Hd | ].
  simpl. destruct (existsb (cell_eqb (kc y)) (map kc seen)) eqn:E; simpl.
  - destruct Hd as [<-|Hd]; [left; now apply seen_In | ].
    exact (IH seen d Hd).
  - destruct Hd as [<-|Hd]; [right; exists y; auto | ].
    destruct (IH (y :: seen) d Hd) as [[Hf|Hf]|[k [Hk [Hfk Hr]]]].
    + right. exists y. rewrite List.Forall_forall in Hy. auto.
    + now left.
    + right. exists k. auto.
Qed.

End FirstOfBucket.

Section Strict.

Context {B : Type} (le : B -> B -> Prop).

Lemma sorted_nodup_strict (l : list B) :
  StronglySorted le l -> List.NoDup l ->
  StronglySorted (fun a b => le a b /\ a <> b) l.
Proof.
  intros Hs. induction Hs as [|x l Hs IH Hx]; intros Hnd; constructor.
  - apply IH. now inversion Hnd.
  - inversion Hnd as [|? ? Hnot _]; subst.
    rewrite List.Forall_forall in Hx |- *. intros y Hy. split; [now apply Hx | ].
    intros ->. contradiction.
Qed.

Lemma sorted_map {A} (R : A -> A -> Prop) (g : A -> B) (l : list A) :
  (forall a b, In a l -> In b l -> R a b -> le (g a) (g b)) ->
  StronglySorted R l -> StronglySorted le (map g l).
Proof.
  intros Hg Hs. induction Hs as [|x l Hs IH Hx]; simpl; constructor.
  - apply IH. intros a b Ha Hb. apply Hg; now right.
  - rewrite List.Forall_forall in Hx |- *. intros y Hy.
    apply in_map_iff in Hy. destruct Hy as [z [<- Hz]].
    apply Hg; [now left | now right | now apply Hx].
Qed.

End Strict.

(** ** The calendar *)

Section Calendar.

Open Scope Z_scope.

Ltac div_lia := Z.to_euclidean_division_equations; lia.

Lemma is_leap_spec (y : Z) :
  is_leap y = true <-> (y mod 4 = 0 /\ (y mod 100 <> 0 \/ y mod 400 = 0)).
Proof.
  unfold is_leap. rewrite andb_true_iff, orb_true_iff, negb_true_iff, !Z.eqb_eq, Z.eqb_neq.
  tauto.
Qed.

(** Days before the first of month [m] of year [y], counted from the
    epoch. *)
Lemma days_split (y m d : Z) :
  days_from_civil (mkDate y m d) = days_from_civil (mkDate y m 1) + (d - 1).
Proof. unfold days_from_civil. simpl. lia. Qed.

Lemma month_cases (m : Z) :
  1 <= m <= 12 ->
  m = 1 \/ m = 2 \/ m = 3 \/ m = 4 \/ m = 5 \/ m = 6 \/
  m = 7 \/ m = 8 \/ m = 9 \/ m = 10 \/ m = 11 \/ m = 12.
Proof. lia. Qed.

(** The first of a month comes right after the last day of the month
    before. *)
Lemma next_month_start (y m : Z) :
  1 <= m < 12 ->
  days_from_civil (mkDate y (m + 1) 1)
  = days_from_civil (mkDate y m 1) + days_in_month y m.
Proof.
  intros Hm.
  assert (Hc : m = 1 \/ m = 2 \/ m = 3 \/ m = 4 \/ m = 5 \/ m = 6 \/
               m = 7 \/ m = 8 \/ m = 9 \/ m = 10 \/ m = 11) by lia.
  unfold days_in_month.
  destruct (is_leap y) eqn:El;
    [apply is_leap_spec in El
    | assert (El' : ~ (y mod 4 = 0 /\ (y mod 100 <> 0 \/ y mod 400 = 0)))
        by (rewrite <- is_leap_spec; congruence)];
    destruct Hc as [->|[->|[->|[->|[->|[->|[->|[->|[->|[->| ->]]]]]]]]]];
    unfold days_from_civil; simpl; div_lia.
Qed.

Lemma next_year_start (y : Z) :
  days_from_civil (mkDate (y + 1) 1 1) = days_from_civil (mkDate y 12 1) + 31.
Proof. unfold days_from_civil. simpl. replace (y + 1 - 1) with y by lia. div_lia. Qed.

Lemma days_in_month_range (y m : Z) : 28 <= days_in_month y m <= 31.
Proof.
  unfold days_in_month.
  destruct (m =? 2); [destruct (is_leap y); lia | ].
  destruct ((m =? 4) || (m =? 6) || (m =? 9) || (m =? 11)); lia.
Qed.

Lemma valid_date_spec (d : date) :
  valid_date d = true <->
  1 <= month d <= 12 /\ 1 <= day d <= days_in_month (year d) (month d).
Proof. unfold valid_date. rewrite !andb_true_iff, !Z.leb_le. tauto. Qed.

(** Within a year, a later month starts after the end of an earlier
    one. *)
Lemma month_start_le (y m1 : Z) (n : nat) :
  1 <= m1 -> m1 + 1 + Z.of_nat n <= 12 ->
  days_from_civil (mkDate y m1 1) + days_in_month y m1
  <= days_from_civil (mkDate y (m1 + 1 + Z.of_nat n) 1).
Proof.
  intros H1. induction n as [|n IH]; intros H2.
  - rewrite Z.add_0_r, next_month_start by lia. lia.
  - replace (m1 + 1 + Z.of_nat (S n)) with ((m1 + 1 + Z.of_nat n) + 1) by lia.
    rewrite next_month_start by lia.
    pose proof (days_in_month_range y (m1 + 1 + Z.of_nat n)).
    assert (m1 + 1 + Z.of_nat n <= 12) by lia. specialize (IH H0). lia.
Qed.

Lemma month_start_lt (y m1 m2 : Z) :
  1 <= m1 -> m1 < m2 -> m2 <= 12 ->
  days_from_civil (mkDate y m1 1) + days_in_month y m1
  <= days_from_civil (mkDate y m2 1).
Proof.
  intros H1 H2 H3.
  replace m2 with (m1 + 1 + Z.of_nat (Z.to_nat (m2 - m1 - 1))) by lia.
  apply month_start_le; lia.
Qed.

(** A valid date lies within its year. *)
Lemma days_in_year (d : date) :
  valid_date d = true ->
  days_from_civil (mkDate (year d) 1 1) <= days_from_civil d
  /\ days_from_civil d < days_from_civil (mkDate (year d + 1) 1 1).
Proof.
  intros Hv. apply valid_date_spec in Hv. destruct d as [y m d]. simpl in *.
  rewrite (days_split y m d), next_year_start.
  pose proof (days_in_month_range y 1). pose proof (days_in_month_range y m).
  split.
  - destruct (Z.eq_dec m 1) as [->|Hm]; [lia | ].
    pose proof (month_start_lt y 1 m). lia.
  - destruct (Z.eq_dec m 12) as [->|Hm]; [unfold days_in_month in *; simpl in *; lia | ].
    pose proof (month_start_lt y m 12). lia.
Qed.

Lemma year_start_lt (y : Z) :
  days_from_civil (mkDate y 1 1) < days_from_civil (mkDate (y + 1) 1 1).
Proof.
  pose proof (days_in_year (mkDate y 1 1)). simpl in H. apply H. reflexivity.
Qed.

Lemma year_start_le (y : Z) (n : nat) :
  days_from_civil (mkDate y 1 1) <= days_from_civil (mkDate (y + Z.of_nat n) 1 1).
Proof.
  induction n as [|n IH]; [rewrite Z.add_0_r; lia | ].
  replace (y + Z.of_nat (S n)) with ((y + Z.of_nat n) + 1) by lia.
  pose proof (year_start_lt (y + Z.of_nat n)). lia.
Qed.

(** The day count is strictly increasing along the calendar. *)
Lemma days_from_civil_lt (a b : date) :
  valid_date a = true -> valid_date b = true ->
  date_leb b a = false -> days_from_civil a < days_from_civil b.
Proof.
  intros Ha Hb Hlt. apply date_leb_false in Hlt.
  pose proof (days_in_year a Ha) as Ya. pose proof (days_in_year b Hb) as Yb.
  apply valid_date_spec in Ha, Hb.
  destruct a as [y m d], b as [y' m' d']. simpl in *.
  destruct Hlt as [Hy|[Ey [Hm|[Em Hd]]]].
  - pose proof (year_start_le (y + 1) (Z.to_nat (y' - (y + 1)))) as H.
    replace (y + 1 + Z.of_nat (Z.to_nat (y' - (y + 1)))) with y' in H by lia. lia.
  - subst y'. rewrite (days_split y m d), (days_split y m' d').
    pose proof (month_start_lt y m m'). lia.
  - subst y' m'. rewrite (days_split y m d), (days_split y m d'). lia.
Qed.

Lemma days_from_civil_le (a b : date) :
  valid_date a = true -> valid_date b = true ->
  (date_leb a b = true <-> days_from_civil a <= days_from_civil b).
Proof.
  intros Ha Hb. split.
  - intros H. destruct (date_leb b a) eqn:E.
    + rewrite (date_leb_antisym a b H E). lia.
    + pose proof (days_from_civil_lt a b Ha Hb E). lia.
  - intros H. destruct (date_leb a b) eqn:E; [reflexivity | ].
    pose proof (days_from_civil_lt b a Hb Ha E). lia.
Qed.

(** The day before a valid date is valid and one day earlier. *)
Lemma prev_day_spec (d : date) :
  valid_date d = true ->
  valid_date (prev_day d) = true /\
  days_from_civil (prev_day d) = days_from_civil d - 1.
Proof.
  intros Hv. apply valid_date_spec in Hv. destruct d as [y m d]. simpl in Hv.
  unfold prev_day. simpl.
  destruct (Z.ltb_spec 1 d) as [Hd|Hd].
  - split; [apply valid_date_spec; simpl; lia | ].
    rewrite (days_split y m (d - 1)), (days_split y m d). lia.
  - assert (d = 1) by lia. subst d.
    destruct (Z.ltb_spec 1 m) as [Hm|Hm].
    + pose proof (days_in_month_range y (m - 1)).
      split; [apply valid_date_spec; simpl; lia | ].
      rewrite (days_split y (m - 1)).
      pose proof (next_month_start y (m - 1)) as Hn.
      replace (m - 1 + 1) with m in Hn by lia. lia.
    + assert (m = 1) by lia. subst m.
      split; [reflexivity | ].
      rewrite (days_split (y - 1) 12 31).
      pose proof (next_year_start (y - 1)) as Hn.
      replace (y - 1 + 1) with y in Hn by lia. lia.
Qed.

Lemma iter_prev_day (n : nat) (d : date) :
  valid_date d = true ->
  valid_date (Nat.iter n prev_day d) = true /\
  days_from_civil (Nat.iter n prev_day d) = days_from_civil d - Z.of_nat n.
Proof.
  intros Hv. induction n as [|n [IHv IHd]]; simpl.
  - split; [exact Hv | lia].
  - destruct (prev_day_spec _ IHv) as [Hv' Hd']. split; [exact Hv' | ]. lia.
Qed.

Lemma weekday_range (d : date) : 0 <= weekday d < 7.
Proof. unfold weekday. apply Z.mod_pos_bound. lia. Qed.

(** The Monday of the week of a valid date. *)
Lemma week_start_spec (d : date) :
  valid_date d = true ->
  valid_date (week_start d) = true /\
  days_from_civil (week_start d) = days_from_civil d - weekday d.
Proof.
  intros Hv. unfold week_start.
  destruct (iter_prev_day (Z.to_nat (weekday d)) d Hv) as [H1 H2].
  split; [exact H1 | ]. rewrite H2. pose proof (weekday_range d). lia.
Qed.

Lemma week_start_mono (a b : date) :
  valid_date a = true -> valid_date b = true ->
  date_leb a b = true -> date_leb (week_start a) (week_start b) = true.
Proof.
  intros Ha Hb Hab.
  destruct (week_start_spec a Ha) as [Va Da], (week_start_spec b Hb) as [Vb Db].
  apply (days_from_civil_le _ _ Va Vb). rewrite Da, Db.
  apply (days_from_civil_le _ _ Ha Hb) in Hab.
  unfold weekday. div_lia.
Qed.

Lemma month_start_mono (a b : date) :
  date_leb a b = true -> date_leb (month_start a) (month_start b) = true.
Proof. rewrite !date_leb_spec. unfold month_start. simpl. lia. Qed.

Lemma quarter_start_mono (a b : date) :
  date_leb a b = true -> date_leb (quarter_start a) (quarter_start b) = true.
Proof. rewrite !date_leb_spec. unfold quarter_start. simpl. div_lia. Qed.

Lemma year_start_mono (a b : date) :
  date_leb a b = true -> date_leb (year_start a) (year_start b) = true.
Proof. rewrite !date_leb_spec. unfold year_start. simpl. lia. Qed.


(** Two dates have equal bucket cells when their buckets start on the
    same day. *)
Lemma bucket_cell_eq (interval : string) (a b : date) :
  cell_eqb (bucket_cell interval a) (bucket_cell interval b) = true
  <-> bucket_start interval a = bucket_start interval b.
Proof.
  unfold bucket_cell, bucket_start.
  destruct (String.eqb interval "1w"); [apply date_eqb_eq | ].
  destruct (String.eqb interval "1m"); [apply date_eqb_eq | ].
  destruct (String.eqb interval "1q"); [apply date_eqb_eq | ].
  simpl. unfold year_start. rewrite Z.eqb_eq. split; [now intros -> | now intros [= ->]].
Qed.

End Calendar.

(** ** The dates of the daily table *)

Section Dates.

Lemma record_day_date (r : list (string * json)) :
  wf_record r = true -> record_date r = Some (record_day r).
Proof.
  intros H. destruct (wf_record_date r H) as [d Hd]. unfold record_day. now rewrite Hd.
Qed.

Lemma record_day_valid (r : list (string * json)) :
  wf_record r = true -> valid_date (record_day r) = true.
Proof.
  intros H. destruct (record_date_cell r _ (record_day_date r H)) as (s & _ & _ & Hv).
  apply andb_true_iff in Hv. tauto.
Qed.

Lemma record_day_label (r : list (string * json)) :
  wf_record r = true -> label_date (cell_at r "date") = Some (record_day r).
Proof.
  intros H. destruct (record_date_cell r _ (record_day_date r H)) as (s & -> & Hs & _).
  exact Hs.
Qed.

Lemma sorted_In_wf (rs : list (list (string * json))) (r : list (string * json)) :
  forallb wf_record rs = true -> In r (sorted_records rs) -> wf_record r = true.
Proof.
  intros Hwf Hr. pose proof (sorted_records_wf rs Hwf) as Hs.
  rewrite forallb_forall in Hs. now apply Hs.
Qed.

Lemma dates_of_valid (rs : list (list (string * json))) (d : date) :
  forallb wf_record rs = true -> In d (dates_of rs) -> valid_date d = true.
Proof.
  intros Hwf Hd. unfold dates_of in Hd. apply in_map_iff in Hd.
  destruct Hd as [r [<- Hr]]. apply record_day_valid. now apply (sorted_In_wf rs).
Qed.


(** The dates of the daily table are in chronological order. *)
Lemma dates_of_sorted (rs : list (list (string * json))) :
  forallb wf_record rs = true ->
  StronglySorted (fun a b => date_leb a b = true) (dates_of rs).
Proof.
  intros Hwf. unfold dates_of.
  eapply sorted_map; [ | exact (sorted_records_sorted rs Hwf)].
  intros a b Ha Hb. simpl.
  rewrite (record_leb_dates a b _ _ (record_day_date a (sorted_In_wf rs a Hwf Ha))
                                    (record_day_date b (sorted_In_wf rs b Hwf Hb))).
  auto.
Qed.

Lemma index_labels (rs : list (list (string * json))) :
  forallb wf_record rs = true ->
  map label_date (map (fun r => cell_at r "date") (sorted_records rs))
  = map Some (dates_of rs).
Proof.
  intros Hwf. unfold dates_of. rewrite !map_map. apply map_ext_in.
  intros r Hr. apply record_day_label. now apply (sorted_In_wf rs).
Qed.





End Dates.

(** ** Daily prices *)

Section Daily.

Variable px : pd.ext.
Variable net : server.


End Daily.


(** ** Weekly, monthly, quarterly and yearly prices *)

Section Bucketed.

Variable px : pd.ext.
Variable net : server.


End Bucketed.


(** ** Fetching *)

Section LogEffects.

Lemma pl_ret {A} (a : A) : preserves_log (ret a).
Proof. intros w. reflexivity. Qed.

Lemma pl_raise {A} (e : exn) : preserves_log (@raise A e).
Proof. intros w. reflexivity. Qed.

Lemma pl_lift {A} (r : result A) : preserves_log (lift r).
Proof. intros w. reflexivity. Qed.

Lemma pl_bind {A B} (m : M A) (k : A -> M B) :
  preserves_log m -> (forall a, preserves_log (k a)) -> preserves_log (bind m k).
Proof.
  intros Hm Hk w. unfold bind.
  specialize (Hm w). destruct (m w) as [r w']. simpl in Hm.
  destruct r as [a|e]; [rewrite Hk | simpl]; exact Hm.
Qed.

Lemma pl_json r : preserves_log (response_json r).
Proof. unfold response_json. destruct (body r); [apply pl_ret | apply pl_raise]. Qed.

Lemma pl_print l : preserves_log (print l).
Proof. intros w. reflexivity. Qed.

End LogEffects.

Section Fetching.

Variable px : pd.ext.
Variable net : server.

Lemma as_records_objects (rs : list (list (string * json))) :
  pd.as_records (map JObj rs) = Some rs.
Proof. induction rs as [|r rs IH]; simpl; [reflexivity | now rewrite IH]. Qed.

(** Each fetch issues one GET, whatever the response. *)
Lemma get_df_log self url w :
  http_log (snd (_get_df px net self url w)) = http_log w ++ [url].
Proof.
  unfold _get_df. unfold bind at 1. simpl.
  match goal with
  | |- http_log (snd (?m ?w')) = _ =>
      assert (H : preserves_log m); [ | now rewrite H]
  end.
  destruct (status_code (net url) =? 200)%Z;
    repeat first [ apply pl_ret | apply pl_raise | apply pl_lift | apply pl_json
                 | apply pl_print | apply pl_bind; [ | intros ? ] ].
Qed.

Lemma get_historical_log self url w :
  http_log (snd (_get_historical_fmp px net self url w)) = http_log w ++ [url].
Proof.
  unfold _get_historical_fmp. unfold bind at 1. simpl.
  match goal with
  | |- http_log (snd (?m ?w')) = _ =>
      assert (H : preserves_log m); [ | now rewrite H]
  end.
  destruct (status_code (net url) =? 200)%Z;
    repeat first [ apply pl_ret | apply pl_raise | apply pl_lift | apply pl_json
                 | apply pl_print | apply pl_bind; [ | intros ? ]
                 | match goal with
                   | |- preserves_log (if ?b then _ else _) => destruct b
                   end ].
Qed.

(** A status other than 200 with a JSON body: the body is printed and
    [ConnectionError] raised. *)
Lemma get_df_failed self url j w :
  status_code (net url) <> 200%Z -> body (net url) = Some j ->
  _get_df px net self url w
  = (Raise ConnectionError,
     mkWorld (heap w) (http_log w ++ [url]) (stdout w ++ [LineResponse j])).
Proof.
  intros Hs Hb. unfold _get_df, bind, requests_get, response_json. simpl.
  apply Z.eqb_neq in Hs. rewrite Hs, Hb. reflexivity.
Qed.

Lemma get_historical_failed self url j w :
  status_code (net url) <> 200%Z -> body (net url) = Some j ->
  _get_historical_fmp px net self url w
  = (Raise ConnectionError,
     mkWorld (heap w) (http_log w ++ [url]) (stdout w ++ [LineResponse j])).
Proof.
  intros Hs Hb. unfold _get_historical_fmp, bind, requests_get, response_json. simpl.
  apply Z.eqb_neq in Hs. rewrite Hs, Hb. reflexivity.
Qed.

(** Status 200 with a JSON body: [_get_df] hands the body to pandas. *)
Lemma get_df_ok self url j w :
  status_code (net url) = 200%Z -> body (net url) = Some j ->
  fst (_get_df px net self url w) = pd.DataFrame_from_dict px j.
Proof.
  intros Hs Hb. unfold _get_df, bind, requests_get, response_json, lift, ret. simpl.
  rewrite Hs, Hb. simpl. destruct (pd.DataFrame_from_dict px j); reflexivity.
Qed.

(** Status 200 with an empty object: the ticker is reported and [None]
    returned. *)
Lemma get_historical_empty self url w :
  status_code (net url) = 200%Z -> body (net url) = Some (JObj []) ->
  _get_historical_fmp px net self url w
  = (Ok None,
     mkWorld (heap w) (http_log w ++ [url]) (stdout w ++ [LineEmpty (_ticker self)])).
Proof.
  intros Hs Hb. unfold _get_historical_fmp, bind, requests_get, response_json. simpl.
  rewrite Hs, Hb. reflexivity.
Qed.

Lemma from_dict_not_ConnectionError (j : json) :
  pd.DataFrame_from_dict px j <> Raise ConnectionError.
Proof.
  unfold pd.DataFrame_from_dict, pd.other.
  destruct j as [| | | |l|[|kv l]]; try (destruct (pd.from_dict_other px _); discriminate).
  - destruct (pd.as_records l); [discriminate | ].
    destruct (pd.from_dict_other px _); discriminate.
  - discriminate.
Qed.

Lemma getitem_not_ConnectionError (j : json) (k : string) :
  json_getitem j k <> Raise ConnectionError.
Proof.
  unfold json_getitem. destruct j; try discriminate. destruct (assoc k l); discriminate.
Qed.

Lemma insert0_not_ConnectionError (name : string) (v : json) (df : DataFrame) :
  pd.insert0 px name v df <> Raise ConnectionError.
Proof.
  unfold pd.insert0, pd.other. destruct (has_column name df); [discriminate | ].
  destruct (pd.is_scalar v); [discriminate | ].
  destruct (pd.insert_other px v df); discriminate.
Qed.

Lemma sort_values_not_ConnectionError (name : string) (df : DataFrame) :
  pd.sort_values px name df <> Raise ConnectionError.
Proof.
  unfold pd.sort_values, pd.other. destruct (col_index name (columns df)); [ | discriminate].
  destruct (forallb _ _); [discriminate | ].
  destruct (pd.sort_values_other px name df); discriminate.
Qed.

Lemma set_index_not_ConnectionError (name : string) (df : DataFrame) :
  pd.set_index name df <> Raise ConnectionError.
Proof.
  unfold pd.set_index. destruct (col_index name (columns df)); discriminate.
Qed.

(** With status 200, no fetch raises [ConnectionError]. *)
Lemma get_historical_200 self url j w :
  status_code (net url) = 200%Z -> body (net url) = Some j ->
  fst (_get_historical_fmp px net self url w) <> Raise ConnectionError.
Proof.
  intros Hs Hb. unfold _get_historical_fmp, bind, requests_get, response_json, lift, ret, print.
  simpl. rewrite Hs, Hb. simpl.
  destruct (json_is_empty_dict j); simpl; [discriminate | ].
  pose proof (getitem_not_ConnectionError j "symbol").
  destruct (json_getitem j "symbol") as [sym|e]; simpl; [ | congruence].
  pose proof (getitem_not_ConnectionError j "historical").
  destruct (json_getitem j "historical") as [h|e]; simpl; [ | congruence].
  pose proof (from_dict_not_ConnectionError h).
  destruct (pd.DataFrame_from_dict px h) as [df|e]; simpl; [ | congruence].
  pose proof (insert0_not_ConnectionError "symbol" sym df).
  destruct (pd.insert0 px "symbol" sym df) as [df1|e]; simpl; [ | congruence].
  pose proof (sort_values_not_ConnectionError "date" df1).
  destruct (pd.sort_values px "date" df1) as [df2|e]; simpl; [ | congruence].
  pose proof (set_index_not_ConnectionError "date" df2).
  destruct (pd.set_index "date" df2) as [df3|e]; simpl; [discriminate | congruence].
Qed.

(** C4: for a fetch by [_get_df] or [_get_historical_fmp] whose response
    has a JSON body, [ConnectionError] is raised if and only if the status
    code is not 200, and one GET request is issued, never a second one.
    With status 200 the call returns without raising on the bodies the
    endpoints send: a list of records or an empty object for [_get_df], an
    empty object ([None] is returned) or a well-formed payload for
    [_get_historical_fmp]. *)
Theorem fetch_ConnectionError_iff_not_200 self url j w :
  body (net url) = Some j ->
  (fst (_get_df px net self url w) = Raise ConnectionError
   <-> status_code (net url) <> 200%Z) /\
  (fst (_get_historical_fmp px net self url w) = Raise ConnectionError
   <-> status_code (net url) <> 200%Z) /\
  http_log (snd (_get_df px net self url w)) = http_log w ++ [url] /\
  http_log (snd (_get_historical_fmp px net self url w)) = http_log w ++ [url] /\
  (status_code (net url) = 200%Z ->
   (forall rs, j = JArr (map JObj rs) ->
               fst (_get_df px net self url w) = Ok (pd.from_records rs)) /\
   (j = JObj [] ->
    fst (_get_df px net self url w) = Ok (mkDF None [] []) /\
    fst (_get_historical_fmp px net self url w) = Ok None) /\
   (forall sym rs,
      payload_records j = Some (sym, rs) -> wf_payload j = true ->
      fst (_get_historical_fmp px net self url w) = Ok (Some (daily_frame sym rs)))).
Proof.
  intros Hb. repeat split.
  - intros H Hs. rewrite (get_df_ok self url j w Hs Hb) in H.
    exact (from_dict_not_ConnectionError j H).
  - intros Hs. now rewrite (get_df_failed self url j w Hs Hb).
  - intros H Hs. exact (get_historical_200 self url j w Hs Hb H).
  - intros Hs. now rewrite (get_historical_failed self url j w Hs Hb).
  - apply get_df_log.
  - apply get_historical_log.
  - intros rs ->. rewrite (get_df_ok self url _ w H Hb). simpl.
    now rewrite as_records_objects.
  - subst j. now rewrite (get_df_ok self url _ w H Hb).
  - subst j. now rewrite (get_historical_empty self url w H Hb).
  - intros sym rs Hp Hw.
    rewrite (get_historical_wf px net self url j sym rs w); [reflexivity | | assumption ..].
    destruct (net url) as [code b]. simpl in *. congruence.
Qed.

End Fetching.

Lemma fetch_ConnectionError_iff_not_200_witness :
  body (Fixture.net (daily_url "MSFT" "k")) = Some (JObj [("Error Message", JStr "Not Found")]) /\
  fst (_get_historical_fmp Fixture.px Fixture.net Fixture.self (daily_url "MSFT" "k") Fixture.w0)
  = Raise ConnectionError.
Proof.
  split; [reflexivity | ].
  apply (fetch_ConnectionError_iff_not_200 Fixture.px Fixture.net Fixture.self
           (daily_url "MSFT" "k") (JObj [("Error Message", JStr "Not Found")]) Fixture.w0
           eq_refl).
  discriminate.
Defined.

(** A body without the members the client reads: status 200, and the fetch
    raises all the same. *)
Lemma fetch_200_KeyError :
  status_code (Fixture.net (daily_url "LIMIT" "k")) = 200%Z /\
  body (Fixture.net (daily_url "LIMIT" "k")) = Some (JObj [("Error Message", JStr "Limit Reach")]) /\
  fst (_get_historical_fmp Fixture.px Fixture.net Fixture.self (daily_url "LIMIT" "k") Fixture.w0)
  = Raise KeyError.
Proof. repeat split; reflexivity. Qed.

(** ** Empty bodies and unsupported intervals *)

Section Intervals.

Variable px : pd.ext.
Variable net : server.

Lemma not_In_eqb (s x : string) (l : list string) :
  ~ In s l -> In x l -> String.eqb s x = false.
Proof.
  intros Hs Hx. apply String.eqb_neq. intros ->. contradiction.
Qed.

Lemma not_intraday (interval : string) :
  ~ In interval supported_intervals ->
  existsb (String.eqb interval) intraday_intervals = false.
Proof.
  intros H. apply mem_false. intros Hin. apply H.
  unfold supported_intervals. unfold intraday_intervals in Hin. simpl in *. tauto.
Qed.

(** C9: when the response to a historical-price fetch has status 200 and
    an empty object as its body, [_get_historical_fmp] returns [None], not
    a table, and [historical_price_by_interval] then raises [TypeError] by
    subscripting that [None], for ['1d'] as for ['1w'], ['1m'], ['1q'] and
    ['1y']. *)
Theorem empty_body_None_then_TypeError self ticker interval w :
  net (daily_url_of self ticker) = mkResponse 200 (Some (JObj [])) ->
  In interval ["1d"; "1w"; "1m"; "1q"; "1y"] ->
  fst (_get_historical_fmp px net self (daily_url_of self ticker) w) = Ok None /\
  fst (historical_price_by_interval px net self ticker interval w) = Raise TypeError.
Proof.
  intros Hnet Hin.
  assert (Hs : status_code (net (daily_url_of self ticker)) = 200%Z) by now rewrite Hnet.
  assert (Hb : body (net (daily_url_of self ticker)) = Some (JObj [])) by now rewrite Hnet.
  pose proof (get_historical_empty px net self _ w Hs Hb) as He.
  split; [now rewrite He | ].
  unfold historical_price_by_interval. fold (daily_url_of self ticker).
  simpl in Hin. destruct Hin as [<-|[<-|[<-|[<-|[<-|[]]]]]];
    eval_string_tests; unfold bind; rewrite He; reflexivity.
Qed.

(** An interval the client does not know, after a daily fetch that went
    well. *)
Lemma interval_unknown self ticker interval j w :
  ~ In interval supported_intervals ->
  net (daily_url_of self ticker) = mkResponse 200 (Some j) ->
  wf_payload j = true ->
  fst (historical_price_by_interval px net self ticker interval w) = Raise ValueError.
Proof.
  intros Hno Hnet Hw.
  destruct (wf_payload_inv j Hw) as (l & sym & h & r & rs' & _ & _ & _ & _ & Hp & _ & _).
  destruct (payload_records_wf j sym _ Hp Hw) as (Hne & Hr & _).
  set (rs := r :: rs') in *.
  destruct (daily_result_spec sym rs Hne Hr) as (D & HD & _ & Hidx & _ & _ & Hsh & _).
  assert (Hlen : length (map CTime (dates_of rs)) = length (rows D)).
  { rewrite length_map, dates_of_length, <- index_length, Hidx. now rewrite length_map. }
  destruct (setitem_spec "daily" (map CTime (dates_of rs)) D Hsh Hlen) as (D1 & HD1 & _).
  unfold historical_price_by_interval. fold (daily_url_of self ticker).
  rewrite (not_intraday interval Hno).
  rewrite !(not_In_eqb interval _ supported_intervals Hno) by (simpl; tauto).
  rewrite (daily_steps px net self ticker j sym rs w _ D Hnet Hp Hw HD).
  unfold bind, lift. rewrite Hidx, (to_datetime_index px rs Hr), HD1. reflexivity.
Qed.

(** C3: for an interval outside the eleven supported ones,
    [historical_price_by_interval] raises [ValueError] once the daily fetch
    it starts with has answered 200 with a well-formed payload. *)
Theorem unsupported_interval_ValueError self ticker interval j w :
  ~ In interval supported_intervals ->
  net (daily_url_of self ticker) = mkResponse 200 (Some j) ->
  wf_payload j = true ->
  fst (historical_price_by_interval px net self ticker interval w) = Raise ValueError.
Proof. exact (interval_unknown self ticker interval j w). Qed.

End Intervals.

Lemma empty_body_None_then_TypeError_witness :
  Fixture.net (daily_url_of Fixture.self (PStr "EMPTY")) = mkResponse 200 (Some (JObj [])) /\
  fst (_get_historical_fmp Fixture.px Fixture.net Fixture.self
         (daily_url_of Fixture.self (PStr "EMPTY")) Fixture.w0) = Ok None /\
  fst (historical_price_by_interval Fixture.px Fixture.net Fixture.self (PStr "EMPTY") "1w"
         Fixture.w0) = Raise TypeError.
Proof.
  split; [reflexivity | ].
  apply (empty_body_None_then_TypeError Fixture.px Fixture.net Fixture.self (PStr "EMPTY") "1w"
           Fixture.w0 eq_refl).
  simpl. tauto.
Defined.

Lemma unsupported_interval_ValueError_witness :
  ~ In "2h" supported_intervals /\
  fst (historical_price_by_interval Fixture.px Fixture.net Fixture.self (PStr "AAPL") "2h"
         Fixture.w0) = Raise ValueError.
Proof.
  assert (H : ~ In "2h" supported_intervals).
  { unfold supported_intervals. simpl. intros H.
    repeat (destruct H as [H|H]; [discriminate H | ]). exact H. }
  split; [exact H | ].
  exact (unsupported_interval_ValueError Fixture.px Fixture.net Fixture.self (PStr "AAPL") "2h"
           Fixture.aapl Fixture.w0 H eq_refl eq_refl).
Defined.

(** An unsupported interval, a ticker the server does not know: the fetch
    fails first, and the error is [ConnectionError], not [ValueError]. *)
Lemma unsupported_interval_ConnectionError :
  ~ In "2h" supported_intervals /\
  fst (historical_price_by_interval Fixture.px Fixture.net Fixture.self (PStr "MSFT") "2h"
         Fixture.w0) = Raise ConnectionError /\
  fst (historical_price_by_interval Fixture.px Fixture.net Fixture.self (PStr "MSFT") "2h"
         Fixture.w0) <> Raise ValueError.
Proof.
  split; [ | split; [reflexivity | discriminate]].
  unfold supported_intervals. simpl. intros H.
  repeat (destruct H as [H|H]; [discriminate H | ]). exact H.
Qed.

(** ** Where [ConnectionError] comes from *)

Section Quiet.

Lemma nc_other {A} (o : option A) : no_ConnectionError (pd.other o).
Proof. destruct o; discriminate. Qed.

Lemma nc_rbind {A B} (r : result A) (k : A -> result B) :
  no_ConnectionError r -> (forall a, no_ConnectionError (k a)) ->
  no_ConnectionError (pd.rbind r k).
Proof.
  intros Hr Hk. destruct r as [a|e]; [apply Hk | ].
  intros H. apply Hr. cbn [pd.rbind] in H. now injection H as ->.
Qed.

Lemma nc_rmap {A B} (g : A -> result B) (l : list A) :
  (forall x, no_ConnectionError (g x)) -> no_ConnectionError (pd.rmap g l).
Proof.
  intros Hg. induction l as [|x l IH]; [discriminate | ].
  cbn [pd.rmap]. apply nc_rbind; [apply Hg | ]. intros y.
  apply nc_rbind; [exact IH | discriminate].
Qed.









End Quiet.

(** Takes a pandas operation apart down to its outcomes. *)
Ltac quiet_op :=
  unfold no_ConnectionError, pd.other;
  repeat match goal with
         | |- context [match ?x with _ => _ end] => destruct x
         end;
  discriminate.

Section QuietPandas.

Variable px : pd.ext.

Lemma nc_json_getitem j k : no_ConnectionError (json_getitem j k).
Proof. unfold json_getitem. quiet_op. Qed.

Lemma nc_subscriptable o : no_ConnectionError (subscriptable o).
Proof. unfold subscriptable. quiet_op. Qed.

Lemma nc_from_dict j : no_ConnectionError (pd.DataFrame_from_dict px j).
Proof. unfold pd.DataFrame_from_dict. quiet_op. Qed.

Lemma nc_insert0 name v df : no_ConnectionError (pd.insert0 px name v df).
Proof. unfold pd.insert0. quiet_op. Qed.

Lemma nc_sort_values name df : no_ConnectionError (pd.sort_values px name df).
Proof. unfold pd.sort_values. quiet_op. Qed.

Lemma nc_set_index name df : no_ConnectionError (pd.set_index name df).
Proof. unfold pd.set_index. quiet_op. Qed.

Lemma nc_getitem name df : no_ConnectionError (pd.getitem name df).
Proof. unfold pd.getitem. quiet_op. Qed.

Lemma nc_setitem name values df : no_ConnectionError (pd.setitem name values df).
Proof. unfold pd.setitem. quiet_op. Qed.

Lemma nc_pct_change s : no_ConnectionError (pd.pct_change px s).
Proof. unfold pd.pct_change. quiet_op. Qed.

Lemma nc_to_datetime s : no_ConnectionError (pd.to_datetime px s).
Proof.
  unfold pd.to_datetime. apply nc_rmap. intros c. unfold pd.to_datetime_cell. quiet_op.
Qed.

Lemma nc_dt_to_period f s : no_ConnectionError (pd.dt_to_period px f s).
Proof. unfold pd.dt_to_period. quiet_op. Qed.

Lemma nc_start_time s : no_ConnectionError (pd.start_time px s).
Proof.
  unfold pd.start_time. apply nc_rmap. intros c. unfold pd.start_time_cell. quiet_op.
Qed.

Lemma nc_astype_month s : no_ConnectionError (pd.astype_month px s).
Proof. unfold pd.astype_month. quiet_op. Qed.

Lemma nc_drop_duplicates name df : no_ConnectionError (pd.drop_duplicates name df).
Proof. unfold pd.drop_duplicates. quiet_op. Qed.

Lemma nc_reset_index df : no_ConnectionError (pd.reset_index df).
Proof. unfold pd.reset_index. quiet_op. Qed.

Lemma nc_select name df : no_ConnectionError (pd.select name df).
Proof. unfold pd.select. quiet_op. Qed.

Lemma nc_merge_outer a b : no_ConnectionError (pd.merge_outer px a b).
Proof. unfold pd.merge_outer. quiet_op. Qed.

Lemma nc_reduce (l : list DataFrame) : no_ConnectionError (pd.reduce (pd.merge_outer px) l).
Proof.
  unfold pd.reduce. destruct l as [|x l]; [discriminate | ].
  assert (H : no_ConnectionError (@Ok DataFrame x)) by discriminate.
  revert H. generalize (@Ok DataFrame x) as acc.
  induction l as [|y l IH]; intros acc H; [exact H | ].
  cbn [fold_left]. apply IH. apply nc_rbind; [exact H | ]. intros a. apply nc_merge_outer.
Qed.

End QuietPandas.

Create HintDb quiet.
#[global] Hint Resolve nc_json_getitem nc_subscriptable nc_from_dict nc_insert0 nc_sort_values
  nc_set_index nc_getitem nc_setitem nc_pct_change nc_to_datetime nc_dt_to_period
  nc_start_time nc_astype_month nc_drop_duplicates nc_reset_index nc_select nc_reduce : quiet.


Section QuietClient.

Variable px : pd.ext.
Variable net : server.






End QuietClient.
(** ** Tables built row by row *)

Section RowForms.

Context {X : Type}.

Lemma combine_map {A B} (F : X -> A) (G : X -> B) (l : list X) :
  combine (map F l) (map G l) = map (fun x => (F x, G x)) l.
Proof. induction l as [|x l IH]; simpl; [reflexivity | now rewrite IH]. Qed.

Lemma combine_map_l {A B} (F : X -> A) (l : list X) (l' : list B) :
  combine (map F l) l' = map (fun xc => (F (fst xc), snd xc)) (combine l l').
Proof.
  revert l'. induction l as [|x l IH]; intros [|y l']; simpl; try reflexivity.
  now rewrite IH.
Qed.

Lemma filter_map {A} (g : X -> A) (C : A -> bool) (l : list X) :
  List.filter C (map g l) = map g (List.filter (fun x => C (g x)) l).
Proof.
  induction l as [|x l IH]; simpl; [reflexivity | ].
  destruct (C (g x)); simpl; now rewrite IH.
Qed.

Lemma pick_length_le (mask : list bool) (l : list X) : (length (pick mask l) <= length l)%nat.
Proof.
  revert l. induction mask as [|b mask IH]; intros [|x l]; simpl; try lia.
  specialize (IH l). destruct b; simpl; lia.
Qed.

Variable nm : option string.
Variable cols : list string.
Variable F : X -> cell * list cell.

Lemma getitem_rows (name : string) (i : nat) (l : list X) :
  col_index name cols = Some i ->
  pd.getitem name (mkDF nm cols (map F l)) = Ok (map (fun x => row_cell i (F x)) l).
Proof.
  intros Hi. unfold pd.getitem, column. simpl. rewrite Hi. now rewrite map_map.
Qed.

Lemma setitem_rows_replace (name : string) (i : nat) (G : X -> cell) (l : list X) :
  col_index name cols = Some i ->
  pd.setitem name (map G l) (mkDF nm cols (map F l))
  = Ok (mkDF nm cols (map (fun x => (fst (F x), <[i := G x]> (snd (F x)))) l)).
Proof.
  intros Hi. unfold pd.setitem. simpl. rewrite !length_map, Nat.eqb_refl, Hi. simpl.
  now rewrite combine_map, map_map.
Qed.

Lemma setitem_rows_append (name : string) (vals : list cell) (l : list X) :
  col_index name cols = None -> length vals = length l ->
  pd.setitem name vals (mkDF nm cols (map F l))
  = Ok (mkDF nm (cols ++ [name])
             (map (fun xc => (fst (F (fst xc)), snd (F (fst xc)) ++ [snd xc]))
                  (combine l vals))).
Proof.
  intros Hi Hlen. unfold pd.setitem. simpl. rewrite length_map, Hlen, Nat.eqb_refl, Hi. simpl.
  now rewrite combine_map_l, map_map.
Qed.

Lemma drop_duplicates_rows (name : string) (i : nat) (l : list X) :
  col_index name cols = Some i ->
  pd.drop_duplicates name (mkDF nm cols (map F l))
  = Ok (mkDF nm cols
             (map F (pick (first_mask (map (fun x => row_cell i (F x)) l)) l))).
Proof.
  intros Hi. unfold pd.drop_duplicates. simpl. rewrite Hi.
  now rewrite drop_dups_pick, map_map, pick_map.
Qed.

Lemma set_index_rows (name : string) (i : nat) (l : list X) :
  col_index name cols = Some i ->
  pd.set_index name (mkDF nm cols (map F l))
  = Ok (mkDF (Some name) (pd.remove_nth i cols)
             (map (fun x => (row_cell i (F x), pd.remove_nth i (snd (F x)))) l)).
Proof.
  intros Hi. unfold pd.set_index. simpl. rewrite Hi. now rewrite map_map.
Qed.

Lemma dropna_rows (l : list X) :
  pd.dropna (mkDF nm cols (map F l))
  = mkDF nm cols (map F (List.filter (fun x => complete (snd (F x))) l)).
Proof. unfold pd.dropna. simpl. now rewrite filter_map. Qed.

End RowForms.

Section Renumber.

Lemma renumber_numbered (rs : list (cell * list cell)) (n : nat) :
  pd.renumber n rs
  = map (fun ir => (CInt (Z.of_nat (fst ir)), fst (snd ir) :: snd (snd ir)))
        (combine (seq n (length rs)) rs).
Proof.
  revert n. induction rs as [|r rs IH]; intros n; simpl; [reflexivity | ].
  now rewrite IH.
Qed.

Lemma map_fst_combine {A B} (l : list A) (l' : list B) :
  length l' = length l -> map fst (combine l l') = l.
Proof.
  revert l'. induction l as [|x l IH]; intros [|y l'] H; simpl in *; try discriminate;
    [reflexivity | ].
  f_equal. apply IH. lia.
Qed.

Lemma map_snd_combine {A B} (l : list A) (l' : list B) :
  length l' = length l -> map snd (combine l l') = l'.
Proof.
  revert l'. induction l as [|x l IH]; intros [|y l'] H; simpl in *; try discriminate;
    [reflexivity | ].
  f_equal. apply IH. lia.
Qed.

Lemma positions_fresh (name : string) (cols : list string) (n : nat) :
  ~ In name cols -> pd.positions name n (cols ++ [name]) = [(n + length cols)%nat].
Proof.
  revert n. induction cols as [|c cols IH]; intros n H; simpl.
  - rewrite String.eqb_refl. f_equal. lia.
  - destruct (String.eqb_spec name c) as [->|Hne]; [exfalso; apply H; now left | ].
    rewrite IH by (intros Hin; apply H; now right). f_equal. lia.
Qed.

End Renumber.

(** ** The returns of one ticker *)

Section TickerSteps.

Variable px : pd.ext.
Variable net : server.

Lemma rename_fresh (old new : string) (cols : list string) :
  ~ In old cols ->
  map (fun c => if String.eqb c old then new else c) (cols ++ [old]) = cols ++ [new].
Proof.
  intros H. rewrite map_app. simpl. rewrite String.eqb_refl. f_equal.
  rewrite <- (map_id cols) at 2. apply map_ext_in. intros c Hc.
  destruct (String.eqb_spec c old) as [->|]; [contradiction | reflexivity].
Qed.

Lemma no_na_numeric_pick (mask : list bool) (s : list cell) :
  no_na_numeric s -> no_na_numeric (pick mask s).
Proof.
  unfold no_na_numeric. rewrite !List.Forall_forall. intros H c Hc.
  apply H. exact (pick_In mask s c Hc).
Qed.

(** The loop body of [get_multiple_returns] after the daily call has
    returned the table [D]. *)
Lemma ticker_steps self (period t : string) (f : freq) (start : date -> date)
    (D : DataFrame) (dates : list date) (a : nat) (dfs : list DataFrame) (w w' : world) :
  historical_price_by_interval px net self (PStr t) "1d" w = (Ok D, w') ->
  index_name D = Some "date" ->
  ~ In "date" (columns D) -> ~ In "pct" (columns D) -> ~ In t (columns D) ->
  well_shaped D ->
  length dates = length (rows D) ->
  pd.to_datetime px (index D) = Ok (map CTime dates) ->
  col_index "adjClose" (columns D) = Some a ->
  no_na_numeric (map (row_cell a) (rows D)) ->
  pd.period_of_string px period = Some (f, start) ->
  returns_of_ticker px net self period t dfs w
  = (Ok (dfs ++ [ticker_frame t (ticker_returns (fun d => CPeriod f (start d)) D dates a)]),
     w').
Proof.
  intros Hcall Hname Hdate Hpct Ht Hws Hlen Hdt Ha Hnum Hper.
  set (P := fun d => CPeriod f (start d)).
  set (L := combine (seq 0 (length (rows D))) (rows D)).
  assert (HL : length L = length (rows D)).
  { unfold L. rewrite length_combine, length_seq. lia. }
  assert (HLs : map snd L = rows D).
  { unfold L. apply map_snd_combine. now rewrite length_seq. }
  set (X := combine L dates).
  assert (HX1 : map fst X = L) by (apply map_fst_combine; lia).
  assert (HX2 : map snd X = dates) by (apply map_snd_combine; lia).
  set (cols := "date" :: columns D).
  set (ix := fun x : nat * (cell * list cell) * date => CInt (Z.of_nat (fst (fst x)))).
  set (tl := fun x : nat * (cell * list cell) * date => snd (snd (fst x))).
  set (df1 := mkDF None cols (map (fun x => (ix x, fst (snd (fst x)) :: tl x)) X)).
  set (df2 := mkDF None cols (map (fun x => (ix x, CTime (snd x) :: tl x)) X)).
  set (df3 := mkDF None cols (map (fun x => (ix x, P (snd x) :: tl x)) X)).
  set (X' := pick (first_mask (map (fun x => P (snd x)) X)) X).
  set (df4 := mkDF None cols (map (fun x => (ix x, P (snd x) :: tl x)) X')).
  set (PC := pct_cells (map (fun x => row_cell a (snd (fst x))) X')).
  set (df5 := mkDF None (cols ++ ["pct"])
                   (map (fun xc => (ix (fst xc), (P (snd (fst xc)) :: tl (fst xc)) ++ [snd xc]))
                        (combine X' PC))).
  set (df6 := mkDF (Some "date") (columns D ++ ["pct"])
                   (map (fun xc => (P (snd (fst xc)), tl (fst xc) ++ [snd xc]))
                        (combine X' PC))).
  assert (E1 : pd.reset_index D = Ok df1).
  { unfold pd.reset_index, has_column. rewrite Hname.
    rewrite (proj2 (mem_false "date" (columns D)) Hdate).
    rewrite renumber_numbered. fold L. rewrite <- HX1 at 1. now rewrite map_map. }
  assert (E2 : pd.getitem "date" df1 = Ok (index D)).
  { unfold df1. rewrite (getitem_rows None cols _ "date" 0%nat X eq_refl).
    unfold index. rewrite <- HLs, <- HX1, !map_map. reflexivity. }
  assert (E3 : pd.setitem "date" (map CTime dates) df1 = Ok df2).
  { unfold df1. rewrite <- HX2 at 1. rewrite map_map.
    now rewrite (setitem_rows_replace None cols _ "date" 0%nat _ X eq_refl). }
  assert (E4 : pd.getitem "date" df2 = Ok (map CTime dates)).
  { unfold df2. rewrite (getitem_rows None cols _ "date" 0%nat X eq_refl).
    rewrite <- HX2. now rewrite map_map. }
  assert (E5 : pd.dt_to_period px period (map CTime dates) = Ok (map P dates)).
  { unfold pd.dt_to_period. rewrite Hper. now rewrite map_map. }
  assert (E6 : pd.setitem "date" (map P dates) df2 = Ok df3).
  { unfold df2. rewrite <- HX2 at 1. rewrite map_map.
    now rewrite (setitem_rows_replace None cols _ "date" 0%nat _ X eq_refl). }
  assert (E7 : pd.drop_duplicates "date" df3 = Ok df4).
  { unfold df3. now rewrite (drop_duplicates_rows None cols _ "date" 0%nat X eq_refl). }
  assert (Ha' : col_index "adjClose" cols = Some (S a)).
  { unfold cols. simpl. now rewrite Ha. }
  assert (E8 : pd.getitem "adjClose" df4 = Ok (map (fun x => row_cell a (snd (fst x))) X')).
  { unfold df4. now rewrite (getitem_rows None cols _ "adjClose" (S a) X' Ha'). }
  assert (HX' : forall x, In x X' -> In (snd (fst x)) (rows D)).
  { intros x Hx. apply pick_In in Hx. rewrite <- HLs, <- HX1, map_map.
    apply in_map_iff. now exists x. }
  assert (E9 : pd.pct_change px (map (fun x => row_cell a (snd (fst x))) X') = Ok PC).
  { apply pct_change_numbers. unfold no_na_numeric in *. rewrite List.Forall_forall in *.
    intros c Hc. apply in_map_iff in Hc. destruct Hc as [x [<- Hx]].
    apply Hnum. apply in_map. now apply HX'. }
  assert (Hpct' : col_index "pct" cols = None).
  { apply col_index_not_In. unfold cols. simpl.
    intros [Hd|Hin]; [discriminate | contradiction]. }
  assert (E10 : pd.setitem "pct" PC df4 = Ok df5).
  { unfold df4. rewrite (setitem_rows_append None cols _ "pct" PC X' Hpct'); [reflexivity | ].
    unfold PC. now rewrite pct_cells_length, length_map. }
  assert (E11 : pd.set_index "date" df5 = Ok df6).
  { unfold df5. now rewrite (set_index_rows None (cols ++ ["pct"]) _ "date" 0%nat _ eq_refl). }
  unfold returns_of_ticker, bind. rewrite Hcall. unfold lift.
  rewrite E1. cbv beta iota. rewrite E2, Hdt. cbv beta iota. rewrite E3. cbv beta iota.
  rewrite E4, E5. cbv beta iota. rewrite E6. cbv beta iota. rewrite E7. cbv beta iota.
  rewrite E8, E9. cbv beta iota. rewrite E10. cbv beta iota. rewrite E11. cbv beta iota.
  assert (E12 : pd.select t (pd.dropna (pd.rename "pct" t df6))
                = Ok (ticker_frame t (ticker_returns P D dates a))).
  { unfold pd.rename, df6. cbn [columns rows index_name].
    rewrite (rename_fresh "pct" t (columns D) Hpct), dropna_rows.
    unfold pd.select. cbn [columns rows index_name].
    rewrite (positions_fresh t (columns D) 0 Ht). cbn [map Nat.add].
    unfold ticker_frame, ticker_returns, period_firsts, period_changes.
    assert (HY : map (fun x : nat * (cell * list cell) * date => (snd (fst x), snd x)) X
                 = combine (rows D) dates).
    { unfold X. rewrite <- HLs. now rewrite combine_map_l. }
    assert (Hmask : map (fun x : nat * (cell * list cell) * date => P (snd x)) X = map P dates).
    { rewrite <- HX2. now rewrite map_map. }
    rewrite <- HY, <- pick_map, <- Hmask. fold X'.
    rewrite map_map. fold PC.
    rewrite combine_map_l, filter_map, !map_map.
    cbn [fst snd]. f_equal. apply (f_equal (mkDF _ _)). apply map_ext_in.
    intros [x c] Hin. cbn [fst snd]. f_equal. f_equal.
    apply filter_In in Hin. destruct Hin as [Hin _]. apply in_combine_l in Hin.
    unfold row_cell. cbn [snd].
    unfold well_shaped in Hws. rewrite List.Forall_forall in Hws.
    rewrite <- (Hws _ (HX' x Hin)). unfold tl. now rewrite nth_middle. }
  rewrite E12. reflexivity.
Qed.

End TickerSteps.

(** ** Outer merges *)

Section Merge.

Variable px : pd.ext.
Variable f : freq.

Lemma freq_eqb_refl (g : freq) : freq_eqb g g = true.
Proof. destruct g; simpl; try reflexivity. apply String.eqb_refl. Qed.

Lemma period_eqb (d e : date) :
  cell_eqb (CPeriod f d) (CPeriod f e) = true <-> d = e.
Proof. simpl. rewrite freq_eqb_refl. apply date_eqb_eq. Qed.

Lemma period_eqb_date (d e : date) :
  cell_eqb (CPeriod f d) (CPeriod f e) = date_eqb d e.
Proof. simpl. now rewrite freq_eqb_refl. Qed.

Lemma period_inj (ds es : list date) : map (CPeriod f) ds = map (CPeriod f) es -> ds = es.
Proof.
  revert es. induction ds as [|d ds IH]; intros [|e es] H; simpl in *; try discriminate;
    [reflexivity | ].
  injection H as -> H. f_equal. now apply IH.
Qed.

Lemma strict_sorted_NoDup (l : list date) :
  StronglySorted (fun a b => date_leb a b = true /\ a <> b) l -> List.NoDup l.
Proof.
  intros H. induction H as [|x l Hs IH Hx]; constructor; [ | exact IH].
  intros Hin. rewrite List.Forall_forall in Hx. destruct (Hx x Hin) as [_ Hne]. congruence.
Qed.

Lemma existsb_periods (e : date) (ds : list date) :
  existsb (cell_eqb (CPeriod f e)) (map (CPeriod f) ds) = existsb (date_eqb e) ds.
Proof.
  induction ds as [|d ds IH]; [reflexivity | ].
  cbn [map existsb]. now rewrite period_eqb_date, IH.
Qed.

Lemma existsb_date (e : date) (ds : list date) :
  existsb (date_eqb e) ds = true <-> In e ds.
Proof.
  rewrite existsb_exists. split.
  - intros [d [Hd He]]. apply date_eqb_eq in He. now subst.
  - intros H. exists e. split; [exact H | now apply date_eqb_eq].
Qed.

(** The periods only the right side has. *)
Lemma filter_periods (ds es : list date) :
  List.filter (fun k => negb (existsb (cell_eqb k) (map (CPeriod f) ds))) (map (CPeriod f) es)
  = map (CPeriod f) (List.filter (fun e => negb (existsb (date_eqb e) ds)) es).
Proof.
  induction es as [|e es IH]; [reflexivity | ].
  cbn [map List.filter]. rewrite existsb_periods, IH.
  now destruct (existsb (date_eqb e) ds).
Qed.

(** The periods of a merge hold the periods of both sides, each once. *)
Lemma merged_periods_perm (o : pd.merge_order) (ds es : list date) :
  Permutation (merged_periods o ds es)
              (ds ++ List.filter (fun e => negb (existsb (date_eqb e) ds)) es).
Proof.
  unfold merged_periods. destruct o; [reflexivity | apply sort_by_perm].
Qed.

Lemma merged_periods_In (o : pd.merge_order) (ds es : list date) (d : date) :
  In d (merged_periods o ds es) <-> In d ds \/ In d es.
Proof.
  split.
  - intros H. apply (Permutation_in _ (merged_periods_perm o ds es)) in H.
    apply in_app_or in H. destruct H as [H|H]; [now left | ].
    apply filter_In in H. now right.
  - intros H. apply (Permutation_in _ (Permutation_sym (merged_periods_perm o ds es))).
    apply in_or_app.
    destruct (existsb (date_eqb d) ds) eqn:E; [left; now apply existsb_date | ].
    destruct H as [H|H]; [now left | ].
    right. apply filter_In. split; [exact H | now rewrite E].
Qed.

Lemma merged_periods_NoDup (o : pd.merge_order) (ds es : list date) :
  List.NoDup ds -> List.NoDup es -> List.NoDup (merged_periods o ds es).
Proof.
  intros Hd He.
  apply (Permutation_NoDup (Permutation_sym (merged_periods_perm o ds es))).
  apply List.NoDup_app; [exact Hd | now apply List.NoDup_filter | ].
  intros x Hx Hf. apply filter_In in Hf. destruct Hf as [_ Hf].
  apply negb_true_iff in Hf. apply existsb_date in Hx. congruence.
Qed.

(** Where the merge sorts its keys, the periods are in ascending order. *)
Lemma merged_periods_sorted (ds es : list date) :
  List.NoDup ds -> List.NoDup es ->
  StronglySorted (fun a b => date_leb a b = true /\ a <> b)
                 (merged_periods pd.SortedKeys ds es).
Proof.
  intros Hd He.
  apply sorted_nodup_strict; [ | now apply merged_periods_NoDup].
  unfold merged_periods. apply (sort_by_sorted date_leb (fun _ => True)).
  - intros a b _ _. apply date_leb_total.
  - intros a b c _ _ _. apply date_leb_trans.
  - rewrite List.Forall_forall. auto.
Qed.

(** The keys the merge computes are these periods. *)
Lemma merge_keys (o : pd.merge_order) (ds es : list date) :
  pd.outer_keys o (map (CPeriod f) ds) (map (CPeriod f) es)
  = map (CPeriod f) (merged_periods o ds es).
Proof.
  unfold pd.outer_keys, merged_periods. rewrite filter_periods, <- map_app.
  destruct o; [reflexivity | ].
  apply (sort_by_map (CPeriod f) date_leb pd.period_key_leb). reflexivity.
Qed.

Lemma unique_periods (ds : list date) :
  List.NoDup ds -> pd.unique_keys (map (CPeriod f) ds) = true.
Proof.
  intros H. induction H as [|d ds Hd Hnd IH]; [reflexivity | ].
  cbn [map pd.unique_keys]. rewrite existsb_periods, IH, andb_true_r.
  apply negb_true_iff. destruct (existsb (date_eqb d) ds) eqn:E; [ | reflexivity].
  apply existsb_date in E. contradiction.
Qed.

Lemma uniform_periods (ds : list date) : pd.uniform_keys (map (CPeriod f) ds) = true.
Proof.
  destruct ds as [|d ds]; [reflexivity | ].
  cbn [map pd.uniform_keys]. rewrite forallb_forall. intros c Hc.
  change (CPeriod f d :: map (CPeriod f) ds) with (map (CPeriod f) (d :: ds)) in Hc.
  apply in_map_iff in Hc. destruct Hc as [e [<- _]].
  simpl. apply freq_eqb_refl.
Qed.

Lemma unique_labels_NoDup (l : list string) :
  pd.unique_labels l = true <-> List.NoDup l.
Proof.
  induction l as [|c l IH]; cbn [pd.unique_labels].
  - split; [constructor | reflexivity].
  - rewrite andb_true_iff, IH, negb_true_iff. split.
    + intros [Hc Hl]. constructor; [ | exact Hl].
      intros Hin. apply mem_In in Hin. congruence.
    + intros H. inversion H as [|? ? Hc Hl]; subst. split; [ | exact Hl].
      now apply mem_false.
Qed.

Lemma filter_none {A} (p : A -> bool) (l : list A) :
  (forall y, In y l -> p y = false) -> List.filter p l = [].
Proof.
  induction l as [|y l IH]; intros H; simpl; [reflexivity | ].
  rewrite (H y) by now left. apply IH. intros z Hz. apply H. now right.
Qed.

Lemma filter_unique {A} (p : A -> bool) (x : A) (l : list A) :
  List.NoDup l -> In x l -> (forall y, In y l -> p y = true <-> y = x) ->
  List.filter p l = [x].
Proof.
  intros Hnd. induction Hnd as [|y l Hy Hnd IH]; intros Hin Hp; [destruct Hin | ].
  simpl. destruct (p y) eqn:E.
  - assert (y = x) by (apply Hp; [now left | exact E]). subst y. f_equal.
    apply filter_none. intros z Hz. destruct (p z) eqn:Ez; [ | reflexivity].
    exfalso. apply Hy. replace x with z; [exact Hz | ]. apply Hp; [now right | exact Ez].
  - destruct Hin as [->|Hin].
    + assert (p x = true) by (apply Hp; [now left | reflexivity]). congruence.
    + apply IH; [exact Hin | ]. intros z Hz. apply Hp. now right.
Qed.

(** The rows a table over the periods [ds] has for one period. *)
Lemma rows_with_table (g : date -> list cell) (ds : list date) (e : date) :
  List.NoDup ds ->
  pd.rows_with (CPeriod f e) (map (fun d => (CPeriod f d, g d)) ds)
  = if existsb (date_eqb e) ds then [g e] else [].
Proof.
  intros Hnd. unfold pd.rows_with. rewrite filter_map, map_map. cbn [fst snd].
  destruct (existsb (date_eqb e) ds) eqn:E.
  - apply existsb_exists in E. destruct E as [d [Hd He]]. apply date_eqb_eq in He. subst d.
    rewrite (filter_unique _ e ds Hnd Hd); [reflexivity | ].
    intros y Hy. rewrite period_eqb. split; congruence.
  - rewrite filter_none; [reflexivity | ].
    intros y Hy. rewrite period_eqb_date.
    destruct (date_eqb e y) eqn:Ey; [ | reflexivity].
    assert (existsb (date_eqb e) ds = true) by (apply existsb_exists; eauto). congruence.
Qed.

End Merge.

Section MergeAll.

Variable px : pd.ext.
Variable f : freq.
Variable R : string -> list (cell * cell).
Variable E : string -> list date.

Lemma lookup_absent (s : string) (e : date) :
  keyed f R E s -> ~ In e (E s) -> lookup_return (CPeriod f e) (R s) = CNaN.
Proof.
  intros [Hk _] He. unfold lookup_return.
  destruct (List.find _ (R s)) as [pc|] eqn:Ef; [ | reflexivity].
  apply find_some in Ef. destruct Ef as [Hin Heq]. exfalso. apply He.
  assert (Hfst : In (fst pc) (map (CPeriod f) (E s))) by (rewrite <- Hk; now apply in_map).
  apply in_map_iff in Hfst. destruct Hfst as [d [Hd Hin']]. rewrite <- Hd in Heq.
  apply (period_eqb f) in Heq. now subst.
Qed.

Lemma filter_find {A} (p : A -> bool) (key : A -> cell) (l : list A) :
  List.NoDup (map key l) ->
  (forall x y, In x l -> In y l -> p x = true -> p y = true -> key x = key y) ->
  List.filter p l = match List.find p l with
                    | Some x => [x]
                    | None => []
                    end.
Proof.
  induction l as [|x l IH]; intros Hnd Hp; simpl; [reflexivity | ].
  inversion Hnd as [|? ? Hx Hnd']; subst.
  destruct (p x) eqn:E'.
  - f_equal. apply filter_none. intros y Hy. destruct (p y) eqn:Ey; [ | reflexivity].
    exfalso. apply Hx. rewrite (Hp x y); [now apply in_map | now left | now right | | ]; auto.
  - apply IH; [exact Hnd' | ]. intros a b Ha Hb. apply Hp; now right.
Qed.

Lemma keyed_NoDup (s : string) : keyed f R E s -> List.NoDup (map fst (R s)).
Proof.
  intros [Hk Hnd]. rewrite Hk. clear Hk.
  induction Hnd as [|d ds Hd Hnd IH]; simpl; constructor; [ | exact IH].
  intros H. apply in_map_iff in H. destruct H as [e [[= ->] He]]. contradiction.
Qed.

Lemma keyed_eqb (s : string) (e : date) (x : cell * cell) :
  keyed f R E s -> In x (R s) ->
  (cell_eqb (CPeriod f e) (fst x) = true <-> fst x = CPeriod f e).
Proof.
  intros [Hk _] Hx.
  assert (Hfst : In (fst x) (map (CPeriod f) (E s))) by (rewrite <- Hk; now apply in_map).
  apply in_map_iff in Hfst. destruct Hfst as [d [<- _]].
  rewrite (period_eqb f). split; [now intros -> | now intros [= ->]].
Qed.

(** The rows the one-column table of a ticker has for a period. *)
Lemma rows_with_frame (t : string) (e : date) :
  keyed f R E t ->
  pd.or_missing 1 (pd.rows_with (CPeriod f e) (rows (ticker_frame t (R t))))
  = [[lookup_return (CPeriod f e) (R t)]].
Proof.
  intros Hk. unfold pd.or_missing, pd.rows_with, ticker_frame. cbn [rows].
  rewrite filter_map, map_map. cbn [fst snd].
  rewrite (filter_find _ fst (R t) (keyed_NoDup t Hk)).
  - unfold lookup_return. destruct (List.find _ (R t)); reflexivity.
  - intros x y Hx Hy Hpx Hpy.
    apply (keyed_eqb t e x Hk Hx) in Hpx. apply (keyed_eqb t e y Hk Hy) in Hpy. congruence.
Qed.

Lemma NoDup_key_inj {A} (key : A -> cell) (l : list A) (x y : A) :
  List.NoDup (map key l) -> In x l -> In y l -> key x = key y -> x = y.
Proof.
  induction l as [|z l IH]; intros Hnd Hx Hy Hk; [destruct Hx | ].
  inversion Hnd as [|? ? Hz Hnd']; subst.
  destruct Hx as [->|Hx], Hy as [->|Hy]; try reflexivity.
  - exfalso. apply Hz. rewrite Hk. now apply in_map.
  - exfalso. apply Hz. rewrite <- Hk. now apply in_map.
  - now apply IH.
Qed.

Lemma lookup_present (s : string) (pc : cell * cell) :
  keyed f R E s -> In pc (R s) -> lookup_return (fst pc) (R s) = snd pc.
Proof.
  intros Hk Hin. unfold lookup_return.
  assert (Hfst : In (fst pc) (map (CPeriod f) (E s))).
  { destruct Hk as [Hk _]. rewrite <- Hk. now apply in_map. }
  apply in_map_iff in Hfst. destruct Hfst as [d [Hd _]].
  destruct (List.find _ (R s)) as [x|] eqn:Ef.
  - apply find_some in Ef. destruct Ef as [Hx Heq]. rewrite <- Hd in Heq.
    apply (keyed_eqb s d x Hk Hx) in Heq.
    now rewrite (NoDup_key_inj fst (R s) x pc (keyed_NoDup s Hk) Hx Hin) by congruence.
  - pose proof (find_none _ _ Ef pc Hin) as Hn. cbv beta in Hn.
    rewrite <- Hd in Hn. rewrite (proj2 (period_eqb f d d) eq_refl) in Hn. discriminate.
Qed.

(** The one-column table of a ticker, as a table over its periods. *)
Lemma frame_table (t : string) :
  keyed f R E t -> ticker_frame t (R t) = returns_table f R [t] (E t).
Proof.
  intros Hk. unfold ticker_frame, returns_table. f_equal.
  transitivity (map (fun k => (k, [lookup_return k (R t)])) (map fst (R t))).
  - rewrite map_map. apply map_ext_in. intros pc Hpc.
    now rewrite (lookup_present t pc Hk Hpc).
  - destruct Hk as [-> _]. now rewrite map_map.
Qed.

Lemma suffixed_fresh (cols others : list string) (sfx : string) :
  (forall c, In c cols -> ~ In c others) -> pd.suffixed cols others sfx = cols.
Proof.
  intros H. unfold pd.suffixed. rewrite <- (map_id cols) at 2. apply map_ext_in.
  intros c Hc. now rewrite (proj2 (mem_false c others) (H c Hc)).
Qed.

(** One step of the merge, whatever the labels: a table over the tickers
    [ts] takes the column of ticker [t] and the periods of both; the labels
    the two sides share take the suffixes ['_x'] and ['_y']. *)
Lemma merge_step_labels (ts : list string) (t : string) (ds : list date) :
  ~ In "date" ts -> t <> "date" ->
  List.NoDup ts ->
  pd.on_clash px = pd.ClashKept \/ List.NoDup (pd.suffixed ts [t] "_x") ->
  List.NoDup ds ->
  (forall s e, In s ts -> In e (E s) -> In e ds) ->
  (forall s, In s ts -> keyed f R E s) -> keyed f R E t ->
  pd.merge_outer px (returns_table f R ts ds) (ticker_frame t (R t))
  = Ok (mkDF (Some "date")
             (pd.suffixed ts [t] "_x" ++ pd.suffixed [t] ts "_y")
             (rows (returns_table f R (ts ++ [t])
                      (merged_periods (pd.outer_order px) ds (E t))))).
Proof.
  intros Hdate Htd Hts Hsfx Hnd Hsub Hks Hkt.
  unfold pd.merge_outer.
  assert (Hix : index (returns_table f R ts ds) = map (CPeriod f) ds).
  { unfold index, returns_table. cbn [rows]. now rewrite map_map. }
  assert (Hit : index (ticker_frame t (R t)) = map (CPeriod f) (E t)).
  { unfold index, ticker_frame. cbn [rows]. rewrite map_map. cbn [fst]. apply Hkt. }
  rewrite Hix, Hit.
  assert (Hk1 : pd.keyed_on_index (returns_table f R ts ds) = true).
  { unfold pd.keyed_on_index, has_column, returns_table. cbn [index_name columns].
    now rewrite (proj2 (mem_false "date" ts) Hdate). }
  assert (Hk2 : pd.keyed_on_index (ticker_frame t (R t)) = true).
  { unfold pd.keyed_on_index, has_column, ticker_frame. cbn [index_name columns existsb].
    destruct (String.eqb_spec "date" t); [congruence | reflexivity]. }
  rewrite Hk1, Hk2. rewrite <- map_app, (uniform_periods f).
  rewrite (unique_periods f ds Hnd), (unique_periods f (E t) (proj2 Hkt)).
  change (columns (returns_table f R ts ds)) with ts.
  change (columns (ticker_frame t (R t))) with [t].
  rewrite (proj2 (unique_labels_NoDup ts) Hts).
  assert (Hr : pd.unique_labels (pd.suffixed [t] ts "_y") = true).
  { unfold pd.suffixed. cbn [map pd.unique_labels existsb]. reflexivity. }
  rewrite Hr. cbn [andb pd.unique_labels existsb negb]. rewrite andb_true_r.
  assert (Hany : forall T : DataFrame,
            (if pd.unique_labels (pd.suffixed ts [t] "_x") then Ok T
             else match pd.on_clash px with
                  | pd.ClashKept => Ok T
                  | pd.ClashRefused => Raise ValueError
                  end) = Ok T).
  { intros T. destruct Hsfx as [Hkept|Hsfx].
    - rewrite Hkept. now destruct (pd.unique_labels (pd.suffixed ts [t] "_x")).
    - now rewrite (proj2 (unique_labels_NoDup (pd.suffixed ts [t] "_x")) Hsfx). }
  rewrite Hany.
  rewrite (merge_keys f).
  assert (Hnan : forall e, existsb (date_eqb e) ds = false ->
                 repeat CNaN (length ts)
                 = map (fun s => lookup_return (CPeriod f e) (R s)) ts).
  { intros e Ee. clear Hk1 Hix Hdate Hts Hsfx Hr Hany.
    induction ts as [|s ts' IHts]; [reflexivity | ].
    cbn [length repeat map]. f_equal.
    - symmetry. apply lookup_absent; [apply Hks; now left | ].
      intros He. assert (In e ds) by (apply (Hsub s); [now left | exact He]).
      assert (existsb (date_eqb e) ds = true).
      { apply existsb_exists. exists e. split; [assumption | now apply date_eqb_eq]. }
      congruence.
    - apply IHts.
      + intros s' e' Hs'. apply Hsub. now right.
      + intros s' Hs'. apply Hks. now right. }
  assert (Hrows : forall l,
            flat_map
              (pd.joined_rows (length ts) (length [t])
                 (rows (returns_table f R ts ds)) (rows (ticker_frame t (R t))))
              (map (CPeriod f) l)
            = map (fun d => (CPeriod f d,
                             map (fun s => lookup_return (CPeriod f d) (R s)) (ts ++ [t]))) l).
  { induction l as [|e l IH]; [reflexivity | ].
    cbn [flat_map map]. rewrite IH. clear IH.
    change (length [t]) with 1%nat.
    unfold pd.joined_rows at 1.
    rewrite (rows_with_frame t e Hkt).
    unfold returns_table at 1. cbn [rows].
    rewrite (rows_with_table f _ ds e Hnd).
    unfold pd.or_missing.
    destruct (existsb (date_eqb e) ds) eqn:Ee.
    - cbn [flat_map map app]. now rewrite map_app.
    - cbn [flat_map map app]. rewrite map_app. now rewrite (Hnan e Ee). }
  rewrite Hrows. reflexivity.
Qed.

(** One step of the merge for a ticker the table does not have yet. *)
Lemma merge_step (ts : list string) (t : string) (ds : list date) :
  ~ In "date" ts -> t <> "date" -> ~ In t ts -> List.NoDup ts ->
  List.NoDup ds ->
  (forall s e, In s ts -> In e (E s) -> In e ds) ->
  (forall s, In s ts -> keyed f R E s) -> keyed f R E t ->
  pd.merge_outer px (returns_table f R ts ds) (ticker_frame t (R t))
  = Ok (returns_table f R (ts ++ [t]) (merged_periods (pd.outer_order px) ds (E t))).
Proof.
  intros Hdate Htd Ht Hts Hnd Hsub Hks Hkt.
  assert (Hl : pd.suffixed ts [t] "_x" = ts).
  { apply suffixed_fresh. intros c Hc [<-|[]]. contradiction. }
  assert (Hr : pd.suffixed [t] ts "_y" = [t]).
  { apply suffixed_fresh. intros c [<-|[]]. exact Ht. }
  rewrite (merge_step_labels ts t ds Hdate Htd Hts);
    [ | right; now rewrite Hl | assumption ..].
  now rewrite Hl, Hr.
Qed.

End MergeAll.

Section MergeFold.

Variable px : pd.ext.
Variable f : freq.
Variable R : string -> list (cell * cell).
Variable E : string -> list date.

Lemma merge_fold (rest done : list string) (ds : list date) :
  List.NoDup (done ++ rest) -> ~ In "date" (done ++ rest) ->
  List.NoDup ds ->
  (forall s e, In s done -> In e (E s) -> In e ds) ->
  (forall s, In s (done ++ rest) -> keyed f R E s) ->
  fold_left (fun acc y => pd.rbind acc (fun a => pd.merge_outer px a y))
            (map (fun t => ticker_frame t (R t)) rest)
            (Ok (returns_table f R done ds))
  = Ok (returns_table f R (done ++ rest)
          (fold_left (fun ds s => merged_periods (pd.outer_order px) ds (E s)) rest ds)).
Proof.
  revert done ds. induction rest as [|t rest IH]; intros done ds Hnd Hdate Hds Hsub Hk.
  - simpl. now rewrite app_nil_r.
  - cbn [map fold_left pd.rbind].
    assert (Ht : ~ In t done).
    { apply NoDup_remove_2 in Hnd. intros H. apply Hnd. apply in_or_app. now left. }
    assert (Hkt : keyed f R E t).
    { apply Hk. apply in_or_app. right. now left. }
    rewrite (merge_step px f R E done t ds).
    + replace (done ++ t :: rest) with ((done ++ [t]) ++ rest) in *
        by (rewrite <- app_assoc; reflexivity).
      apply IH; try assumption.
      * apply merged_periods_NoDup; [exact Hds | apply Hkt].
      * intros s e Hs He. apply merged_periods_In.
        apply in_app_or in Hs. destruct Hs as [Hs|[<-|[]]]; [left; eauto | now right].
    + intros H. apply Hdate. apply in_or_app. now left.
    + intros ->. apply Hdate. apply in_or_app. right. now left.
    + exact Ht.
    + apply NoDup_remove_1 in Hnd. apply NoDup_app_remove_r in Hnd. exact Hnd.
    + exact Hds.
    + exact Hsub.
    + intros s Hs. apply Hk. apply in_or_app. now left.
    + exact Hkt.
Qed.

(** The merge of the one-column tables of the tickers [ts]. *)
Lemma reduce_merge (ts : list string) :
  ts <> [] -> List.NoDup ts -> ~ In "date" ts ->
  (forall s, In s ts -> keyed f R E s) ->
  pd.reduce (pd.merge_outer px) (map (fun t => ticker_frame t (R t)) ts)
  = Ok (returns_table f R ts (all_periods (pd.outer_order px) E ts)).
Proof.
  intros Hne Hnd Hdate Hk. destruct ts as [|t rest]; [congruence | ].
  cbn [map pd.reduce all_periods].
  rewrite (frame_table f R E t) by (apply Hk; now left).
  apply (merge_fold rest [t] (E t)); try assumption.
  - apply Hk. now left.
  - intros s e [<-|[]] He. exact He.
Qed.

Lemma fold_periods_In (o : pd.merge_order) (rest : list string) (ds : list date) (d : date) :
  In d (fold_left (fun ds s => merged_periods o ds (E s)) rest ds)
  <-> In d ds \/ exists t, In t rest /\ In d (E t).
Proof.
  revert ds. induction rest as [|t rest IH]; intros ds; simpl.
  - split; [tauto | intros [H|[t [[] _]]]; exact H].
  - rewrite IH, merged_periods_In. split.
    + intros [[H|H]|[s [Hs Hd]]]; eauto.
    + intros [H|[s [[<-|Hs] Hd]]]; eauto.
Qed.

(** The merged table has the periods of every ticker. *)
Lemma all_periods_In (o : pd.merge_order) (ts : list string) (d : date) :
  In d (all_periods o E ts) <-> exists t, In t ts /\ In d (E t).
Proof.
  destruct ts as [|t rest]; simpl.
  - split; [tauto | intros [t [[] _]]].
  - rewrite fold_periods_In. split.
    + intros [H|[s [Hs Hd]]]; eauto.
    + intros [s [[<-|Hs] Hd]]; eauto.
Qed.

Lemma fold_periods_NoDup (o : pd.merge_order) (rest : list string) (ds : list date) :
  List.NoDup ds -> (forall t, In t rest -> List.NoDup (E t)) ->
  List.NoDup (fold_left (fun ds s => merged_periods o ds (E s)) rest ds).
Proof.
  revert ds. induction rest as [|t rest IH]; intros ds H HE; simpl; [exact H | ].
  apply IH; [ | intros s Hs; apply HE; now right].
  apply merged_periods_NoDup; [exact H | apply HE; now left].
Qed.

(** No period comes twice in the merged table. *)
Lemma all_periods_NoDup (o : pd.merge_order) (ts : list string) :
  (forall t, In t ts -> List.NoDup (E t)) -> List.NoDup (all_periods o E ts).
Proof.
  intros H. destruct ts as [|t rest]; simpl; [constructor | ].
  apply fold_periods_NoDup; [apply H; now left | intros s Hs; apply H; now right].
Qed.

Lemma fold_periods_sorted (rest : list string) (ds : list date) :
  StronglySorted (fun a b => date_leb a b = true /\ a <> b) ds ->
  (forall t, In t rest -> List.NoDup (E t)) ->
  StronglySorted (fun a b => date_leb a b = true /\ a <> b)
                 (fold_left (fun ds s => merged_periods pd.SortedKeys ds (E s)) rest ds).
Proof.
  revert ds. induction rest as [|t rest IH]; intros ds H HE; simpl; [exact H | ].
  apply IH; [ | intros s Hs; apply HE; now right].
  apply merged_periods_sorted; [now apply strict_sorted_NoDup | apply HE; now left].
Qed.

(** Where the merge sorts its keys, the periods of the merged table are in
    strictly ascending order. *)
Lemma all_periods_sorted (ts : list string) :
  (forall t, In t ts ->
             StronglySorted (fun a b => date_leb a b = true /\ a <> b) (E t)) ->
  StronglySorted (fun a b => date_leb a b = true /\ a <> b)
                 (all_periods pd.SortedKeys E ts).
Proof.
  intros H. destruct ts as [|t rest]; simpl; [constructor | ].
  apply fold_periods_sorted; [apply H; now left | ].
  intros s Hs. apply strict_sorted_NoDup. apply H. now right.
Qed.

(** The column of a ticker in the merged table. *)
Lemma returns_table_column (ts : list string) (ds : list date) (t : string) :
  In t ts ->
  column t (returns_table f R ts ds)
  = Some (map (fun d => lookup_return (CPeriod f d) (R t)) ds).
Proof.
  intros Ht. destruct (col_index_In t ts Ht) as [i Hi].
  unfold column, returns_table. cbn [columns rows]. rewrite Hi. f_equal.
  rewrite map_map. apply map_ext. intros d.
  exact (row_cell_keys _ (fun s => lookup_return (CPeriod f d) (R s)) ts t i Hi).
Qed.

End MergeFold.

Section Loop.

Variable px : pd.ext.
Variable net : server.


End Loop.

(** ** Returns of several tickers *)

Section Periods.

Open Scope Z_scope.

Lemma period_supported (px : pd.ext) (period : string) :
  In period supported_periods ->
  pd.period_of_string px period = Some (period_freq period, period_start period).
Proof.
  intros H. simpl in H. destruct H as [<-|[<-|[<-|[<-|[<-|[]]]]]]; reflexivity.
Qed.

Lemma period_start_mono (period : string) (a b : date) :
  valid_date a = true -> valid_date b = true ->
  date_leb a b = true ->
  date_leb (period_start period a) (period_start period b) = true.
Proof.
  intros Ha Hb Hab. unfold period_start.
  destruct (String.eqb period "D"); [exact Hab | ].
  destruct (String.eqb period "W"); [now apply week_start_mono | ].
  destruct (String.eqb period "M"); [now apply month_start_mono | ].
  destruct (String.eqb period "Q"); [now apply quarter_start_mono | ].
  now apply year_start_mono.
Qed.

Lemma period_cell_eq (period : string) (a b : date) :
  cell_eqb (period_cell period a) (period_cell period b) = true
  <-> period_start period a = period_start period b.
Proof. unfold period_cell. apply period_eqb. Qed.

End Periods.

Section Keys.

Lemma add_key_NoDup (acc : list string) (kv : string * json) :
  List.NoDup acc -> List.NoDup (pd.add_key acc kv).
Proof.
  intros H. unfold pd.add_key. destruct (existsb (String.eqb (fst kv)) acc) eqn:E; [exact H | ].
  apply mem_false in E.
  apply (Permutation_NoDup (l := fst kv :: acc)); [ | now constructor].
  apply Permutation_cons_append.
Qed.

Lemma union_keys_NoDup (rs : list (list (string * json))) : List.NoDup (pd.union_keys rs).
Proof.
  unfold pd.union_keys.
  assert (H : forall acc, List.NoDup acc ->
            List.NoDup (fold_left (fun acc r => fold_left pd.add_key r acc) rs acc)).
  { induction rs as [|r rs IH]; intros acc Hacc; simpl; [exact Hacc | ].
    apply IH. revert acc Hacc. induction r as [|kv r IHr]; intros acc Hacc; simpl;
      [exact Hacc | ].
    apply IHr. now apply add_key_NoDup. }
  apply H. constructor.
Qed.

Lemma remove_nth_not_In {A} (d : A) (i : nat) (l : list A) :
  List.NoDup l -> (i < length l)%nat -> ~ In (nth i l d) (pd.remove_nth i l).
Proof.
  unfold pd.remove_nth. revert i. induction l as [|x l IH]; intros i Hnd Hi; simpl in Hi;
    [lia | ].
  inversion Hnd as [|? ? Hx Hnd']; subst.
  destruct i as [|i]; simpl; [exact Hx | ].
  intros [H|H].
  - apply Hx. rewrite H. apply nth_In. lia.
  - apply (IH i Hnd'); [lia | exact H].
Qed.

Lemma date_not_value_key (rs : list (list (string * json))) :
  ~ In "date" (value_keys rs).
Proof.
  unfold value_keys. destruct (col_index "date" (pd.union_keys rs)) as [i|] eqn:Hi.
  - destruct (col_index_nth _ _ _ Hi) as [Hn Hlt]. rewrite <- Hn at 1.
    apply remove_nth_not_In; [apply union_keys_NoDup | exact Hlt].
  - intros H. destruct (col_index_In _ _ H). congruence.
Qed.

End Keys.

Section TickerPayload.

Variable px : pd.ext.
Variable net : server.

Lemma payload_table_eq (j sym : json) (rs : list (list (string * json))) (D : DataFrame) :
  payload_records j = Some (sym, rs) -> daily_result sym rs = Ok D -> payload_table j = D.
Proof. intros Hp HD. unfold payload_table. now rewrite Hp, HD. Qed.

Lemma payload_dates_eq (j sym : json) (rs : list (list (string * json))) :
  payload_records j = Some (sym, rs) -> payload_dates j = dates_of rs.
Proof. intros Hp. unfold payload_dates. now rewrite Hp. Qed.

(** The daily table of a well-formed payload, as the loop of
    [get_multiple_returns] needs it. *)
Lemma payload_table_spec (t : string) (j sym : json) (rs : list (list (string * json))) :
  payload_records j = Some (sym, rs) -> wf_payload j = true -> fresh_labels t j ->
  let D := payload_table j in
  daily_result sym rs = Ok D /\
  index_name D = Some "date" /\
  ~ In "date" (columns D) /\ ~ In "pct" (columns D) /\ ~ In t (columns D) /\
  well_shaped D /\
  length (dates_of rs) = length (rows D) /\
  pd.to_datetime px (index D) = Ok (map CTime (dates_of rs)) /\
  col_index "adjClose" (columns D) = Some (adj_position D) /\
  map (row_cell (adj_position D)) (rows D) = adj_cells rs.
Proof.
  intros Hp Hw Hfresh.
  destruct (payload_records_wf j sym rs Hp Hw) as (Hne & Hr & _).
  destruct (daily_result_spec sym rs Hne Hr)
    as (D & HD & Hname & Hidx & _ & Hoth & Hsh & Hcols).
  rewrite (payload_table_eq j sym rs D Hp HD). cbv zeta.
  unfold fresh_labels in Hfresh. rewrite Hp in Hfresh.
  destruct Hfresh as (Ht1 & Ht2 & Ht3 & Ht4 & Hpct).
  assert (Hin : forall k, In k (columns D) ->
                k = "symbol" \/ In k (value_keys rs) \/ k = "pct change").
  { intros k Hk. destruct Hcols as [Hc|[_ Hc]]; rewrite Hc in Hk.
    - destruct Hk as [<-|Hk]; auto.
    - apply in_app_or in Hk. destruct Hk as [[<-|Hk]|[<-|[]]]; auto. }
  assert (Hadj : column "adjClose" D = Some (adj_cells rs)).
  { rewrite Hoth by discriminate. now apply adj_column. }
  repeat split.
  - exact HD.
  - exact Hname.
  - intros H. destruct (Hin _ H) as [H'|[H'|H']]; try discriminate.
    exact (date_not_value_key rs H').
  - intros H. destruct (Hin _ H) as [H'|[H'|H']]; try discriminate. contradiction.
  - intros H. destruct (Hin _ H) as [H'|[H'|H']]; contradiction.
  - exact Hsh.
  - rewrite <- index_length, Hidx, length_map. apply dates_of_length.
  - rewrite Hidx. now apply to_datetime_index.
  - unfold adj_position. unfold column in Hadj.
    destruct (col_index "adjClose" (columns D)); [reflexivity | discriminate].
  - unfold adj_position. unfold column in Hadj.
    destruct (col_index "adjClose" (columns D)); [now injection Hadj | discriminate].
Qed.

(** The loop body on a ticker whose payload is well formed. *)
Lemma ticker_payload self (period t : string) (j : json) (dfs : list DataFrame) (w : world) :
  net (daily_url t (_key self)) = mkResponse 200 (Some j) ->
  wf_payload j = true -> fresh_labels t j ->
  In period supported_periods ->
  fst (returns_of_ticker px net self period t dfs w)
  = Ok (dfs ++ [ticker_frame t (payload_returns period j)]).
Proof.
  intros Hnet Hw Hfresh Hper.
  destruct (wf_payload_inv j Hw) as (l & sym & h & r & rs' & _ & _ & _ & _ & Hp & _ & _).
  destruct (payload_records_wf j sym _ Hp Hw) as (Hne & Hr & _).
  destruct (payload_table_spec t j sym _ Hp Hw Hfresh)
    as (HD & Hname & Hdate & Hpct & Ht & Hsh & Hlen & Hdt & Ha & Hadj).
  unfold payload_returns. rewrite (payload_dates_eq j sym _ Hp).
  rewrite (ticker_steps px net self period t (period_freq period) (period_start period)
             (payload_table j) (dates_of (r :: rs')) (adj_position (payload_table j))
             dfs w (logged (daily_url t (_key self)) w)); try assumption.
  - reflexivity.
  - apply (daily_call px net self (PStr t) j sym (r :: rs') w); assumption.
  - rewrite Hadj. now apply adj_cells_numbers.
  - now apply period_supported.
Qed.

Lemma sorted_filter_combine {A B C} (R : C -> C -> Prop) (g : A -> C)
    (keep : A * B -> bool) (l : list A) (l' : list B) :
  StronglySorted R (map g l) ->
  StronglySorted R (map (fun xc => g (fst xc)) (List.filter keep (combine l l'))).
Proof.
  revert l'. induction l as [|x l IH]; intros l' H; [constructor | ].
  destruct l' as [|c l']; [constructor | ].
  simpl in H. inversion H as [|? ? Hs Hx]; subst.
  simpl. destruct (keep (x, c)); [ | now apply IH].
  simpl. constructor; [now apply IH | ].
  rewrite List.Forall_forall in Hx |- *. intros y Hy.
  apply in_map_iff in Hy. destruct Hy as [[z c'] [<- Hz]].
  apply filter_In in Hz. destruct Hz as [Hz _]. apply in_combine_l in Hz.
  apply Hx. now apply in_map.
Qed.

(** The periods of the returns of a ticker are in strictly ascending
    order. *)
Lemma payload_periods_sorted (period : string) (t : string) (j : json) :
  wf_payload j = true -> fresh_labels t j ->
  StronglySorted (fun a b => date_leb a b = true /\ a <> b) (payload_periods period j).
Proof.
  intros Hw Hfresh.
  destruct (wf_payload_inv j Hw) as (l & sym & h & r & rs' & _ & _ & _ & _ & Hp & _ & _).
  destruct (payload_records_wf j sym _ Hp Hw) as (Hne & Hr & _).
  destruct (payload_table_spec t j sym _ Hp Hw Hfresh)
    as (_ & _ & _ & _ & _ & _ & Hlen & _).
  unfold payload_periods. rewrite (payload_dates_eq j sym _ Hp).
  set (rs := r :: rs') in *.
  apply (sorted_filter_combine _ (fun y => period_start period (snd y))).
  unfold period_firsts.
  rewrite <- (map_map snd (period_start period)), pick_map.
  rewrite (map_snd_combine (rows (payload_table j)) (dates_of rs) Hlen).
  set (mask := first_mask (map (period_cell period) (dates_of rs))).
  destruct (first_mask_nodup (period_cell period) (period_start period)
              (period_cell_eq period) [] (dates_of rs)) as [Hnd _].
  apply sorted_nodup_strict; [ | exact Hnd].
  eapply sorted_map; [ | exact (pick_sorted _ mask _ (dates_of_sorted rs Hr))].
  intros a b Ha Hb Hab. simpl.
  apply period_start_mono; [ | | exact Hab];
    apply (dates_of_valid rs _ Hr); eapply pick_In; eassumption.
Qed.

Lemma payload_keyed (period : string) (bodies : string -> json) (t : string) :
  wf_payload (bodies t) = true -> fresh_labels t (bodies t) ->
  keyed (period_freq period) (fun s => payload_returns period (bodies s))
        (fun s => payload_periods period (bodies s)) t.
Proof.
  intros Hw Hfresh. split.
  - unfold payload_returns, payload_periods, ticker_returns. rewrite !map_map. reflexivity.
  - apply strict_sorted_NoDup. exact (payload_periods_sorted period t (bodies t) Hw Hfresh).
Qed.

End TickerPayload.

(** ** Merging a ticker twice *)

Section Twice.

Variable px : pd.ext.
Variable net : server.





End Twice.

(** ** Outcomes of the public calls *)

Section Outcomes.

Variable px : pd.ext.
Variable net : server.




(** A failed daily fetch fails the call, whatever the interval. *)
Lemma interval_fetch_failed self ticker interval j w :
  existsb (String.eqb interval) intraday_intervals = false ->
  status_code (net (daily_url_of self ticker)) <> 200%Z ->
  body (net (daily_url_of self ticker)) = Some j ->
  fst (historical_price_by_interval px net self ticker interval w) = Raise ConnectionError.
Proof.
  intros Hi Hs Hb. unfold historical_price_by_interval. fold (daily_url_of self ticker).
  rewrite Hi. destruct (String.eqb interval "1d");
    unfold bind; rewrite (get_historical_failed px net self _ j w Hs Hb); reflexivity.
Qed.



(** The list the loop runs over. *)
Lemma symbols_read self (tickers : nat) (ts : list string) period cwi w :
  heap w !! tickers = Some ts ->
  exists w1,
    get_multiple_returns px net self tickers period cwi w
    = (let* dfs := for_each (symbols_of ts cwi) (returns_of_ticker px net self period) [] in
       let* df_merged := lift (pd.reduce (pd.merge_outer px) dfs) in
       ret df_merged) w1.
Proof.
  intros Hts. unfold get_multiple_returns. destruct cwi as [|i]; cbn [symbols_of].
  - exists w. unfold bind at 1. cbn [ret]. unfold bind at 1.
    unfold list_read. now rewrite Hts.
  - eexists. unfold bind at 1. unfold list_append. rewrite Hts.
    unfold bind at 1. unfold list_read. cbn [heap]. rewrite lookup_insert_eq. reflexivity.
Qed.

(** The loop body on a ticker whose fetch fails. *)
Lemma ticker_failed self (period t : string) (j : json) (dfs : list DataFrame) (w : world) :
  status_code (net (daily_url t (_key self))) <> 200%Z ->
  body (net (daily_url t (_key self))) = Some j ->
  fst (returns_of_ticker px net self period t dfs w) = Raise ConnectionError.
Proof.
  intros Hs Hb. unfold returns_of_ticker. unfold bind at 1.
  pose proof (interval_fetch_failed self (PStr t) "1d" j w eq_refl Hs Hb) as H.
  destruct (historical_price_by_interval px net self (PStr t) "1d" w) as [r w1].
  simpl in H. now subst r.
Qed.

(** The loop stops at the first ticker whose fetch fails. *)
Lemma for_each_outcome self period (F : string -> DataFrame) (codes : string -> Z)
    (ts : list string) :
  (forall t dfs w, In t ts -> codes t = 200%Z ->
     fst (returns_of_ticker px net self period t dfs w) = Ok (dfs ++ [F t])) ->
  (forall t dfs w, In t ts -> codes t <> 200%Z ->
     fst (returns_of_ticker px net self period t dfs w) = Raise ConnectionError) ->
  forall dfs w,
    fst (for_each ts (returns_of_ticker px net self period) dfs w)
    = if all_200 codes ts then Ok (dfs ++ map F ts) else Raise ConnectionError.
Proof.
  induction ts as [|t ts IH]; intros Hok Hko dfs w; simpl.
  - now rewrite app_nil_r.
  - unfold bind. destruct (Z.eqb_spec (codes t) 200%Z) as [Hc|Hc]; simpl.
    + specialize (Hok t dfs w (or_introl eq_refl) Hc) as Ht.
      destruct (returns_of_ticker px net self period t dfs w) as [r w1].
      simpl in Ht. subst r.
      rewrite IH;
        [ | intros; apply Hok; [now right | assumption]
          | intros; apply Hko; [now right | assumption]].
      destruct (all_200 codes ts); [now rewrite <- app_assoc | reflexivity].
    + specialize (Hko t dfs w (or_introl eq_refl) Hc) as Ht.
      destruct (returns_of_ticker px net self period t dfs w) as [r w1].
      simpl in Ht. now subst r.
Qed.

Lemma all_200_true (codes : string -> Z) (ts : list string) :
  all_200 codes ts = true <-> forall t, In t ts -> codes t = 200%Z.
Proof.
  unfold all_200. rewrite forallb_forall. split; intros H t Ht.
  - now apply Z.eqb_eq, H.
  - now apply Z.eqb_eq, H.
Qed.


(** What [get_multiple_returns] returns: the table of the returns of the
    tickers over the periods of all of them, or the failure of the first
    fetch that was not answered 200. *)
Lemma multiple_returns_outcome
    self (tickers : nat) (ts : list string) period cwi w
    (codes : string -> Z) (bodies : string -> json) :
  heap w !! tickers = Some ts ->
  In period supported_periods ->
  (forall t, In t (symbols_of ts cwi) ->
     net (daily_url t (_key self)) = mkResponse (codes t) (Some (bodies t)) /\
     (codes t = 200%Z -> wf_payload (bodies t) = true /\ fresh_labels t (bodies t))) ->
  (all_200 codes (symbols_of ts cwi) = false ->
   fst (get_multiple_returns px net self tickers period cwi w) = Raise ConnectionError) /\
  (all_200 codes (symbols_of ts cwi) = true ->
   symbols_of ts cwi <> [] -> List.NoDup (symbols_of ts cwi) ->
   fst (get_multiple_returns px net self tickers period cwi w)
   = Ok (returns_table (period_freq period)
           (fun s => payload_returns period (bodies s))
           (symbols_of ts cwi)
           (all_periods (pd.outer_order px)
              (fun s => payload_periods period (bodies s)) (symbols_of ts cwi)))).
Proof.
  intros Hts Hper Hall.
  set (symbols := symbols_of ts cwi) in *.
  set (f := period_freq period).
  set (R := fun s => payload_returns period (bodies s)).
  set (E := fun s => payload_periods period (bodies s)).
  destruct (symbols_read self tickers ts period cwi w Hts) as [w1 ->].
  fold symbols. unfold bind.
  pose proof (for_each_outcome self period (fun t => ticker_frame t (R t)) codes symbols)
    as Hloop.
  assert (Hok : forall t dfs w', In t symbols -> codes t = 200%Z ->
            fst (returns_of_ticker px net self period t dfs w')
            = Ok (dfs ++ [ticker_frame t (R t)])).
  { intros t dfs w' Ht Hc. destruct (Hall t Ht) as [Hn Hwf].
    destruct (Hwf Hc) as [Hw Hf]. rewrite Hc in Hn.
    exact (ticker_payload px net self period t (bodies t) dfs w' Hn Hw Hf Hper). }
  assert (Hko : forall t dfs w', In t symbols -> codes t <> 200%Z ->
            fst (returns_of_ticker px net self period t dfs w') = Raise ConnectionError).
  { intros t dfs w' Ht Hc. destruct (Hall t Ht) as [Hn _].
    apply (ticker_failed self period t (bodies t) dfs w'); rewrite Hn; simpl; congruence. }
  specialize (Hloop Hok Hko [] w1).
  destruct (for_each symbols (returns_of_ticker px net self period) [] w1) as [r w2].
  simpl in Hloop. subst r.
  split; intros Hc; rewrite Hc; [reflexivity | ].
  intros Hne Hnd.
  rewrite all_200_true in Hc.
  assert (Hk : forall s, In s symbols -> keyed f R E s).
  { intros s Hs. destruct (Hall s Hs) as [_ Hwf]. destruct (Hwf (Hc s Hs)) as [Hw Hf].
    now apply (payload_keyed px). }
  assert (Hdate : ~ In "date" symbols).
  { intros H. destruct (Hall _ H) as [_ Hwf]. destruct (Hwf (Hc _ H)) as [Hw Hf].
    unfold fresh_labels in Hf.
    destruct (payload_records (bodies "date")) as [[sym rs]|]; [ | exact Hf].
    destruct Hf as [Hf _]. now apply Hf. }
  unfold lift. rewrite (reduce_merge px f R E symbols Hne Hnd Hdate Hk). reflexivity.
Qed.


(** C8: for a non-empty list of distinct tickers, none of them the label
    of a column, a supported period and well-formed payloads with one
    record per date, [get_multiple_returns] returns a table indexed by the
    period with one column per ticker.  The column of a ticker holds the
    change of its first-in-period ['adjClose'] from one period to the next;
    a period is dropped for a ticker when any column of that row is missing,
    the change included; the columns are combined by an outer merge on the
    period, so a period that one ticker lacks appears, with a missing value,
    when another ticker has it.  The periods of each ticker are in ascending
    order; the rows of the table are the periods of the first ticker,
    followed by the periods each next ticker adds, or all of them in
    ascending order where the merge sorts its keys. *)
Theorem multiple_returns_outer_merge
    self (tickers : nat) (ts : list string) period cwi w (bodies : string -> json) :
  heap w !! tickers = Some ts ->
  symbols_of ts cwi <> [] ->
  List.NoDup (symbols_of ts cwi) ->
  In period supported_periods ->
  (forall t, In t (symbols_of ts cwi) ->
     net (daily_url t (_key self)) = mkResponse 200 (Some (bodies t)) /\
     wf_payload (bodies t) = true /\ distinct (payload_dates (bodies t)) = true /\
     fresh_labels t (bodies t)) ->
  exists T periods,
    fst (get_multiple_returns px net self tickers period cwi w) = Ok T /\
    index_name T = Some "date" /\
    columns T = symbols_of ts cwi /\
    index T = map (CPeriod (period_freq period)) periods /\
    periods = all_periods (pd.outer_order px)
                (fun t => payload_periods period (bodies t)) (symbols_of ts cwi) /\
    List.NoDup periods /\
    (pd.outer_order px = pd.SortedKeys ->
     StronglySorted (fun a b => date_leb a b = true /\ a <> b) periods) /\
    (forall d, In d periods <->
       exists t, In t (symbols_of ts cwi) /\ In d (payload_periods period (bodies t))) /\
    (forall t, In t (symbols_of ts cwi) ->
       payload_returns period (bodies t)
       = ticker_returns (period_cell period) (payload_table (bodies t))
           (payload_dates (bodies t)) (adj_position (payload_table (bodies t))) /\
       map fst (payload_returns period (bodies t))
       = map (CPeriod (period_freq period)) (payload_periods period (bodies t)) /\
       StronglySorted (fun a b => date_leb a b = true /\ a <> b)
                      (payload_periods period (bodies t)) /\
       column t T
       = Some (map (fun k => lookup_return k (payload_returns period (bodies t)))
                   (index T))).
Proof.
  intros Hts Hne Hnd Hper Hall.
  destruct (multiple_returns_outcome self tickers ts period cwi w (fun _ => 200%Z) bodies
              Hts Hper) as [_ Hout].
  { intros t Ht. destruct (Hall t Ht) as (Hn & Hw & _ & Hf). auto. }
  assert (Hc : all_200 (fun _ => 200%Z) (symbols_of ts cwi) = true)
    by (apply all_200_true; reflexivity).
  specialize (Hout Hc Hne Hnd).
  set (symbols := symbols_of ts cwi) in *.
  set (f := period_freq period) in *.
  set (R := fun s => payload_returns period (bodies s)) in *.
  set (E := fun s => payload_periods period (bodies s)) in *.
  assert (Hsorted : forall t, In t symbols ->
            StronglySorted (fun a b => date_leb a b = true /\ a <> b) (E t)).
  { intros t Ht. destruct (Hall t Ht) as (_ & Hw & _ & Hf).
    exact (payload_periods_sorted px period t (bodies t) Hw Hf). }
  exists (returns_table f R symbols (all_periods (pd.outer_order px) E symbols)),
         (all_periods (pd.outer_order px) E symbols).
  split; [exact Hout | ].
  split; [reflexivity | ].
  split; [reflexivity | ].
  split; [unfold index, returns_table; cbn [rows]; now rewrite map_map | ].
  split; [reflexivity | ].
  split; [apply all_periods_NoDup; intros t Ht; apply strict_sorted_NoDup; now apply Hsorted | ].
  split; [intros ->; now apply all_periods_sorted | ].
  split; [apply all_periods_In | ].
  intros t Ht. destruct (Hall t Ht) as (_ & Hw & _ & Hf).
  split; [reflexivity | ].
  split; [apply (payload_keyed px period bodies t Hw Hf) | ].
  split; [now apply Hsorted | ].
  rewrite (returns_table_column f R symbols _ t Ht).
  unfold index, returns_table. cbn [rows]. now rewrite !map_map.
Qed.


End Outcomes.

Lemma fixture_fresh_labels (t : string) :
  In t ["AAPL"; "SPY"; "GAP"] -> fresh_labels t (Fixture.bodies t).
Proof.
  intros [<-|[<-|[<-|[]]]]; vm_compute; repeat split; try discriminate;
    intros H; repeat (destruct H as [H|H]; [discriminate H | ]); exact H.
Qed.

Lemma multiple_returns_outer_merge_witness :
  exists T,
    fst (get_multiple_returns Fixture.px Fixture.net Fixture.self 1%nat "M" (PStr "AAPL")
           Fixture.w0) = Ok T /\
    columns T = ["GAP"; "AAPL"] /\
    index T = [CPeriod FM (mkDate 2021 3 1); CPeriod FM (mkDate 2021 1 1);
               CPeriod FM (mkDate 2021 2 1)].
Proof.
  destruct (multiple_returns_outer_merge Fixture.px Fixture.net Fixture.self 1%nat ["GAP"]
              "M" (PStr "AAPL") Fixture.w0 Fixture.bodies)
    as (T & periods & H1 & _ & H2 & H3 & H4 & _).
  - reflexivity.
  - discriminate.
  - repeat constructor; simpl; intros H;
      repeat (destruct H as [H|H]; [discriminate H | ]); exact H.
  - simpl. tauto.
  - intros t Ht. split; [ | split; [ | split]].
    + destruct Ht as [<-|[<-|[]]]; reflexivity.
    + destruct Ht as [<-|[<-|[]]]; reflexivity.
    + destruct Ht as [<-|[<-|[]]]; reflexivity.
    + apply fixture_fresh_labels. simpl in *. tauto.
  - exists T. split; [exact H1 | ]. split; [exact H2 | ]. rewrite H3, H4. reflexivity.
Defined.

(** C8, where the specification fails: a ticker whose February row opens
    its month with a defined change, 10 against the 8 of January, and no
    close.  February is dropped with the row, and only March is left. *)
Theorem multiple_returns_drops_defined_change :
  pct_cell (CNum 10) (CNum 8) = CNum 0.25 /\
  exists T,
    fst (get_multiple_returns Fixture.px Fixture.net Fixture.self 1%nat "M" PNone
           Fixture.w0) = Ok T /\
    index T = [CPeriod FM (mkDate 2021 3 1)] /\
    ~ In (CPeriod FM (mkDate 2021 2 1)) (index T).
Proof.
  split; [reflexivity | ].
  eexists. split; [vm_compute; reflexivity | ].
  split; [reflexivity | ].
  simpl. intros [H|[]]. discriminate H.
Qed.


(** ** Construction of the client *)

(** C1: for every key and every ticker string, [FMP(key, ticker)] raises
    [TypeError], and so does [FMP(key)] with the default ticker, because
    [__init__] returns the string it stored in [self._ticker]; no instance
    comes out of either call. *)
Theorem FMP_new_raises_TypeError (key ticker : string) :
  snd (FMP__init__ key (PStr ticker)) = PStr ticker /\
  FMP_new key (PStr ticker) = Raise TypeError /\
  FMP_new key default_ticker = Raise TypeError /\
  (forall self, FMP_new key (PStr ticker) <> Ok self) /\
  (forall self, FMP_new key default_ticker <> Ok self).
Proof.
  unfold FMP_new, FMP__init__, default_ticker. simpl.
  repeat split; intros; discriminate.
Qed.

(** ** The caller's list of tickers *)

Section Tickers.

Variable px : pd.ext.
Variable net : server.

Lemma ph_after_append self period (tickers : nat) :
  preserves_heap
    (let* tickers_now := list_read tickers in
     let* dfs := for_each tickers_now (returns_of_ticker px net self period) [] in
     let* df_merged := lift (pd.reduce (pd.merge_outer px) dfs) in
     ret df_merged).
Proof.
  apply ph_bind; [apply ph_read | intros l].
  apply ph_bind; [ | intros dfs; apply ph_bind; [apply ph_lift | intros; apply ph_ret]].
  apply ph_for_each. intros. apply ph_returns_of_ticker.
Qed.

(** Without an index to compare with, the caller's list stays as it was. *)
Lemma get_multiple_returns_keeps_tickers self (tickers : nat) period w :
  heap (snd (get_multiple_returns px net self tickers period PNone w)) = heap w.
Proof.
  unfold get_multiple_returns.
  apply ph_bind; [apply ph_ret | intros; apply ph_after_append].
Qed.

(** C5: the list the caller passes as [tickers] does not survive the call
    unchanged: with an index to compare with, the index ticker is appended
    to the caller's own list, which [symbols] aliases. *)
Theorem get_multiple_returns_appends_to_tickers
    self (tickers : nat) (xs : list string) period index_ticker w :
  heap w !! tickers = Some xs ->
  heap (snd (get_multiple_returns px net self tickers period (PStr index_ticker) w))
    !! tickers = Some (xs ++ [index_ticker]).
Proof.
  intros Hxs. unfold get_multiple_returns.
  unfold bind at 1. unfold list_append. rewrite Hxs.
  rewrite (ph_after_append self period tickers _). simpl. apply lookup_insert_eq.
Qed.

End Tickers.

Lemma get_multiple_returns_appends_to_tickers_witness :
  heap Fixture.w0 !! 0%nat = Some ["AAPL"] /\
  heap (snd (get_multiple_returns Fixture.px Fixture.net Fixture.self 0%nat "M"
                                  (PStr "SPY") Fixture.w0)) !! 0%nat
    = Some ["AAPL"; "SPY"].
Proof.
  split; [reflexivity | ].
  apply (get_multiple_returns_appends_to_tickers
           Fixture.px Fixture.net Fixture.self 0%nat ["AAPL"] "M" "SPY" Fixture.w0).
  reflexivity.
Defined.

(** ** Determinism *)

(** C10: the outcome of [historical_price_by_interval] is determined by the
    interval and by the fixture, the status code and the body of the
    response to the one request it issues.  Two runs that receive the same
    response end with the same table, with the same columns and the same
    rows in the same order, or with the same exception: whatever the state
    each run starts in, whatever else the two servers hold, and even for
    two client objects or two tickers, which count for the URL only. *)
Theorem historical_price_by_interval_deterministic
    (px : pd.ext) (net1 net2 : server) self1 self2 ticker1 ticker2 interval
    (w1 w2 : world) :
  net1 (fetched_url self1 ticker1 interval) = net2 (fetched_url self2 ticker2 interval) ->
  fst (historical_price_by_interval px net1 self1 ticker1 interval w1) =
  fst (historical_price_by_interval px net2 self2 ticker2 interval w2).
Proof. intros H. now apply sr_historical_price_by_interval. Qed.

Lemma historical_price_by_interval_deterministic_witness :
  Fixture.net (fetched_url Fixture.self (PStr "GAP") "1q")
  = Scenario.gaps (fetched_url (mkFMP "other key" (PStr "GAP")) PNone "1q") /\
  fst (historical_price_by_interval Fixture.px Fixture.net Fixture.self (PStr "GAP") "1q"
         Fixture.w0)
  = fst (historical_price_by_interval Fixture.px Scenario.gaps
           (mkFMP "other key" (PStr "GAP")) PNone "1q" (mkWorld ∅ ["a url"] [])).
Proof.
  split; [reflexivity | ].
  apply historical_price_by_interval_deterministic. reflexivity.
Defined.
(** ** What a call leaves behind *)

Section Silence.

Lemma lw_ret {A} (a : A) : leaves_world (ret a).
Proof. intros w. reflexivity. Qed.

Lemma lw_raise {A} (e : exn) : leaves_world (@raise A e).
Proof. intros w. reflexivity. Qed.

Lemma lw_lift {A} (r : result A) : leaves_world (lift r).
Proof. intros w. reflexivity. Qed.

Lemma lw_bind {A B} (m : M A) (k : A -> M B) :
  leaves_world m -> (forall a, leaves_world (k a)) -> leaves_world (bind m k).
Proof.
  intros Hm Hk w. unfold bind.
  specialize (Hm w). destruct (m w) as [r w']. simpl in Hm. subst w'.
  destruct r as [a|e]; [apply Hk | reflexivity].
Qed.

Lemma lw_json r : leaves_world (response_json r).
Proof. unfold response_json. destruct (body r); [apply lw_ret | apply lw_raise]. Qed.

(** The world after [m] and a continuation that leaves it alone. *)
Lemma world_after {A B} (m : M A) (k : A -> M B) (w : world) :
  (forall a, leaves_world (k a)) -> snd (bind m k w) = snd (m w).
Proof.
  intros Hk. unfold bind. destruct (m w) as [[a|e] w']; [apply Hk | reflexivity].
Qed.

End Silence.

Ltac leaves_world_tac :=
  repeat first
    [ apply lw_ret | apply lw_raise | apply lw_lift | apply lw_json
    | apply lw_bind; [ | intros ? ]
    | match goal with
      | |- leaves_world (if ?b then _ else _) => destruct b
      end ].

Section Traces.

Variable px : pd.ext.
Variable net : server.

(** The world after [_get_df], by the response. *)
Lemma get_df_world self url w :
  snd (_get_df px net self url w)
  = match body (net url) with
    | Some j =>
        if (status_code (net url) =? 200)%Z then logged url w
        else logged_printed url (LineResponse j) w
    | None => logged url w
    end.
Proof.
  unfold _get_df. unfold bind at 1. unfold requests_get. cbn [fst snd].
  destruct (status_code (net url) =? 200)%Z.
  - rewrite world_after by (intros; leaves_world_tac).
    rewrite lw_json. now destruct (body (net url)).
  - unfold bind, response_json. destruct (body (net url)); reflexivity.
Qed.

(** The world after [_get_historical_fmp], by the response. *)
Lemma get_historical_world self url w :
  snd (_get_historical_fmp px net self url w)
  = match body (net url) with
    | Some j =>
        if (status_code (net url) =? 200)%Z
        then if json_is_empty_dict j
             then logged_printed url (LineEmpty (_ticker self)) w
             else logged url w
        else logged_printed url (LineResponse j) w
    | None => logged url w
    end.
Proof.
  unfold _get_historical_fmp. unfold bind at 1. unfold requests_get. cbn [fst snd].
  destruct (status_code (net url) =? 200)%Z.
  - unfold bind at 1. unfold response_json at 1.
    destruct (body (net url)) as [j|] eqn:Hb; [ | reflexivity].
    cbn [ret]. destruct (json_is_empty_dict j); [reflexivity | ].
    assert (H : leaves_world
                  (let* j := response_json (net url) in
                   let* symbol := lift (json_getitem j "symbol") in
                   let* j := response_json (net url) in
                   let* historical := lift (json_getitem j "historical") in
                   let* df := lift (pd.DataFrame_from_dict px historical) in
                   let* df := lift (pd.insert0 px "symbol" symbol df) in
                   let* df := lift (pd.sort_values px "date" df) in
                   let* df := lift (pd.set_index "date" df) in
                   ret (Some df))) by leaves_world_tac.
    apply H.
  - unfold bind, response_json. destruct (body (net url)); reflexivity.
Qed.

(** The world after [historical_price_by_interval] is the world after its
    fetch. *)
Lemma interval_world self ticker interval w :
  snd (historical_price_by_interval px net self ticker interval w)
  = if existsb (String.eqb interval) intraday_intervals
    then snd (_get_df px net self (fetched_url self ticker interval) w)
    else snd (_get_historical_fmp px net self (fetched_url self ticker interval) w).
Proof.
  unfold historical_price_by_interval, fetched_url. fold (daily_url_of self ticker).
  destruct (existsb (String.eqb interval) intraday_intervals); [reflexivity | ].
  destruct (String.eqb interval "1d"); apply world_after; intros; leaves_world_tac.
Qed.

Lemma interval_log self ticker interval w :
  http_log (snd (historical_price_by_interval px net self ticker interval w))
  = http_log w ++ [fetched_url self ticker interval].
Proof.
  rewrite interval_world.
  destruct (existsb (String.eqb interval) intraday_intervals);
    [apply get_df_log | apply get_historical_log].
Qed.

(** X1: every call of [historical_price_by_interval] issues exactly one GET,
    whatever the interval, the response and the outcome: on the
    historical-chart URL for an intraday interval, on the
    historical-price-full URL for every other string, a supported interval or
    not; nothing is retried. *)
Theorem historical_price_by_interval_one_request self ticker interval w :
  http_log (snd (historical_price_by_interval px net self ticker interval w))
  = http_log w ++ [fetched_url self ticker interval].
Proof. apply interval_log. Qed.

(** X2: what [historical_price_by_interval] prints.  A response that is not
    200 is printed once, before [ConnectionError] is raised; an empty body
    under 200, for an interval that is not intraday, prints one line that
    names the ticker of the object, [self._ticker], whatever ticker the
    caller asked for; every other response with a JSON body under 200 prints
    nothing, and neither does a body that is not JSON. *)
Theorem historical_price_by_interval_prints self ticker interval w :
  let url := fetched_url self ticker interval in
  let out := stdout (snd (historical_price_by_interval px net self ticker interval w)) in
  (forall j, body (net url) = Some j -> status_code (net url) <> 200%Z ->
             out = stdout w ++ [LineResponse j]) /\
  (existsb (String.eqb interval) intraday_intervals = false ->
   body (net url) = Some (JObj []) -> status_code (net url) = 200%Z ->
   out = stdout w ++ [LineEmpty (_ticker self)]) /\
  (forall j, body (net url) = Some j -> status_code (net url) = 200%Z ->
             existsb (String.eqb interval) intraday_intervals = true \/ j <> JObj [] ->
             out = stdout w) /\
  (body (net url) = None -> out = stdout w).
Proof.
  intros url out. subst out. rewrite interval_world. fold url.
  destruct (existsb (String.eqb interval) intraday_intervals) eqn:Hi;
    [rewrite get_df_world | rewrite get_historical_world].
  - repeat split.
    + intros j -> Hs. apply Z.eqb_neq in Hs. now rewrite Hs.
    + discriminate.
    + intros j -> Hs _. apply Z.eqb_eq in Hs. now rewrite Hs.
    + now intros ->.
  - repeat split.
    + intros j -> Hs. apply Z.eqb_neq in Hs. now rewrite Hs.
    + intros _ -> Hs. apply Z.eqb_eq in Hs. now rewrite Hs.
    + intros j -> Hs [H|H]; [discriminate H | ]. apply Z.eqb_eq in Hs. rewrite Hs.
      destruct j as [| | | | |[|m l]]; try reflexivity. congruence.
    + now intros ->.
Qed.

(** X3: a body that does not decode as JSON makes [response.json()] raise:
    under 200 as under any other status, [_get_df], [_get_historical_fmp] and
    [historical_price_by_interval] raise [JSONDecodeError], not
    [ConnectionError], and nothing is printed. *)
Theorem non_json_body_JSONDecodeError self url ticker interval w :
  (body (net url) = None ->
   _get_df px net self url w = (Raise JSONDecodeError, logged url w) /\
   _get_historical_fmp px net self url w = (Raise JSONDecodeError, logged url w)) /\
  (body (net (fetched_url self ticker interval)) = None ->
   historical_price_by_interval px net self ticker interval w
   = (Raise JSONDecodeError, logged (fetched_url self ticker interval) w)).
Proof.
  assert (Hdf : forall u, body (net u) = None ->
                  _get_df px net self u w = (Raise JSONDecodeError, logged u w)).
  { intros u Hb. unfold _get_df, bind, requests_get, response_json. cbn [fst snd].
    rewrite Hb. now destruct (status_code (net u) =? 200)%Z. }
  assert (Hh : forall u, body (net u) = None ->
                 _get_historical_fmp px net self u w = (Raise JSONDecodeError, logged u w)).
  { intros u Hb. unfold _get_historical_fmp, bind, requests_get, response_json.
    cbn [fst snd]. rewrite Hb. now destruct (status_code (net u) =? 200)%Z. }
  split; [intros Hb; split; auto | ].
  intros Hb. unfold historical_price_by_interval, fetched_url in *.
  fold (daily_url_of self ticker) in *.
  destruct (existsb (String.eqb interval) intraday_intervals); [now apply Hdf | ].
  destruct (String.eqb interval "1d"); unfold bind; now rewrite (Hh _ Hb).
Qed.

End Traces.

(** ** The loop of [get_multiple_returns] *)

Section LoopTraces.

Variable px : pd.ext.
Variable net : server.

Lemma wi_for_each {A B} (body : A -> B -> M B) (l : list A) :
  (forall x acc, world_indep (body x acc)) ->
  forall acc, world_indep (for_each l body acc).
Proof.
  intros Hb. induction l as [|x l IH]; intros acc; simpl.
  - apply wi_ret.
  - apply wi_bind; [apply Hb | intros acc'; apply IH].
Qed.

Lemma wi_returns_of_ticker self period ticker dfs :
  world_indep (returns_of_ticker px net self period ticker dfs).
Proof.
  unfold returns_of_ticker.
  repeat first [ apply wi_historical_price_by_interval
               | step_effect (@wi_bind) (@wi_ret) (@wi_raise) (@wi_lift) wi_get wi_json wi_print ].
Qed.

(** The loop and the merge, on the tickers read from the list. *)
Lemma wi_loop_merge self period (symbols : list string) :
  world_indep
    (let* dfs := for_each symbols (returns_of_ticker px net self period) [] in
     let* df_merged := lift (pd.reduce (pd.merge_outer px) dfs) in
     ret df_merged).
Proof.
  apply wi_bind; [ | intros dfs; apply wi_bind; [apply wi_lift | intros; apply wi_ret]].
  apply wi_for_each. intros. apply wi_returns_of_ticker.
Qed.

(** The loop body issues one GET, on the daily URL of its ticker. *)
Lemma ticker_request self period t dfs w :
  http_log (snd (returns_of_ticker px net self period t dfs w))
  = http_log w ++ [daily_url t (_key self)].
Proof.
  unfold returns_of_ticker. rewrite world_after by (intros; leaves_world_tac).
  apply (interval_log px net self (PStr t) "1d" w).
Qed.

(** The requests of the loop: one for each ticker up to the first whose
    body fails, in the order of the list. *)
Lemma for_each_requests self period (l : list string) :
  forall dfs w,
  exists n,
    (n <= length l)%nat /\
    http_log (snd (for_each l (returns_of_ticker px net self period) dfs w))
    = http_log w ++ map (fun t => daily_url t (_key self)) (firstn n l) /\
    (forall r, fst (for_each l (returns_of_ticker px net self period) dfs w) = Ok r ->
               n = length l) /\
    (l <> [] -> (1 <= n)%nat).
Proof.
  induction l as [|t l IH]; intros dfs w.
  - exists 0%nat. simpl. rewrite app_nil_r. repeat split; try lia. congruence.
  - simpl. unfold bind.
    pose proof (ticker_request self period t dfs w) as Ht.
    destruct (returns_of_ticker px net self period t dfs w) as [[dfs'|e] w1]; simpl in Ht.
    + destruct (IH dfs' w1) as (n & Hn & Hlog & Hok & _).
      exists (S n). simpl. repeat split; try lia.
      * rewrite Hlog, Ht, <- app_assoc. reflexivity.
      * intros r Hr. now rewrite (Hok r Hr).
    + exists 1%nat. simpl. repeat split; try lia.
      * exact Ht.
      * discriminate.
Qed.

(** X9: with no ticker and no index to compare with, [reduce] has nothing to
    start from: the call raises [TypeError], whatever the period, without a
    request. *)
Theorem get_multiple_returns_empty_TypeError self (tickers : nat) period w :
  heap w !! tickers = Some [] ->
  get_multiple_returns px net self tickers period PNone w = (Raise TypeError, w).
Proof.
  intros Hts. unfold get_multiple_returns, bind, list_read. cbn [ret]. now rewrite Hts.
Qed.

(** X10: the index to compare with is one more ticker, fetched last: the call
    returns what it returns without an index on the list with the index
    appended; no return is divided by the return of the index. *)
Theorem compare_with_index_is_one_more_ticker
    self (tickers tickers' : nat) (ts : list string) period index_ticker w w' :
  heap w !! tickers = Some ts ->
  heap w' !! tickers' = Some (ts ++ [index_ticker]) ->
  fst (get_multiple_returns px net self tickers period (PStr index_ticker) w)
  = fst (get_multiple_returns px net self tickers' period PNone w').
Proof.
  intros Hts Hts'.
  destruct (symbols_read px net self tickers ts period (PStr index_ticker) w Hts)
    as [w1 ->].
  destruct (symbols_read px net self tickers' (ts ++ [index_ticker]) period PNone w' Hts')
    as [w1' ->].
  cbn [symbols_of]. apply wi_loop_merge.
Qed.

(** X11: the requests of [get_multiple_returns] are GETs on the daily URLs
    of a prefix of the tickers, in the order of the list, the index to
    compare with last: at least the first ticker, every ticker once when the
    call returns a table, and no ticker after the one the loop stops at. *)
Theorem get_multiple_returns_requests
    self (tickers : nat) (ts : list string) period cwi w :
  heap w !! tickers = Some ts ->
  exists n,
    (n <= length (symbols_of ts cwi))%nat /\
    http_log (snd (get_multiple_returns px net self tickers period cwi w))
    = http_log w ++ map (fun t => daily_url t (_key self)) (firstn n (symbols_of ts cwi)) /\
    (forall T, fst (get_multiple_returns px net self tickers period cwi w) = Ok T ->
               n = length (symbols_of ts cwi)) /\
    (symbols_of ts cwi <> [] -> (1 <= n)%nat).
Proof.
  intros Hts.
  assert (Hrun : exists w1,
            http_log w1 = http_log w /\
            get_multiple_returns px net self tickers period cwi w
            = (let* dfs := for_each (symbols_of ts cwi)
                             (returns_of_ticker px net self period) [] in
               let* df_merged := lift (pd.reduce (pd.merge_outer px) dfs) in
               ret df_merged) w1).
  { unfold get_multiple_returns. destruct cwi as [|i]; cbn [symbols_of].
    - exists w. split; [reflexivity | ]. unfold bind at 1. cbn [ret]. unfold bind at 1.
      unfold list_read. now rewrite Hts.
    - eexists. split; [ | unfold bind at 1; unfold list_append; rewrite Hts;
                          unfold bind at 1; unfold list_read; cbn [heap];
                          rewrite lookup_insert_eq; reflexivity ].
      reflexivity. }
  destruct Hrun as (w1 & Hlog & ->).
  destruct (for_each_requests self period (symbols_of ts cwi) [] w1)
    as (n & Hn & Hl & Hok & Hne).
  exists n. split; [exact Hn | ]. unfold bind.
  destruct (for_each (symbols_of ts cwi) (returns_of_ticker px net self period) [] w1)
    as [[dfs|e] w2]; cbn [fst snd] in *.
  - unfold lift. destruct (pd.reduce (pd.merge_outer px) dfs); cbn [fst snd ret].
    + rewrite Hl, Hlog. repeat split; auto. intros T _. now apply (Hok dfs).
    + rewrite Hl, Hlog. repeat split; auto. discriminate.
  - rewrite Hl, Hlog. repeat split; auto. discriminate.
Qed.

End LoopTraces.

(** ** Bodies the client does not expect *)

Section Bodies.

Variable px : pd.ext.
Variable net : server.

(** An exception of the daily fetch goes through
    [historical_price_by_interval] as it is. *)
Lemma interval_fetch_raises self ticker interval e w :
  existsb (String.eqb interval) intraday_intervals = false ->
  fst (_get_historical_fmp px net self (daily_url_of self ticker) w) = Raise e ->
  fst (historical_price_by_interval px net self ticker interval w) = Raise e.
Proof.
  intros Hi He. unfold historical_price_by_interval. fold (daily_url_of self ticker).
  rewrite Hi. destruct (String.eqb interval "1d"); unfold bind;
    destruct (_get_historical_fmp px net self (daily_url_of self ticker) w) as [[df|e'] w'];
    simpl in He; try discriminate He; now injection He as ->.
Qed.

(** The fetch under 200 on a body that is not an empty object. *)
Lemma get_historical_200_steps self url j w :
  net url = mkResponse 200 (Some j) -> json_is_empty_dict j = false ->
  fst (_get_historical_fmp px net self url w)
  = pd.rbind (json_getitem j "symbol") (fun symbol =>
    pd.rbind (json_getitem j "historical") (fun historical =>
    pd.rbind (pd.DataFrame_from_dict px historical) (fun df =>
    pd.rbind (pd.insert0 px "symbol" symbol df) (fun df =>
    pd.rbind (pd.sort_values px "date" df) (fun df =>
    pd.rbind (pd.set_index "date" df) (fun df => Ok (Some df))))))).
Proof.
  intros Hnet He. unfold _get_historical_fmp, bind, requests_get, response_json, lift.
  cbn [fst snd]. rewrite Hnet. cbn [status_code body Z.eqb Pos.eqb ret]. rewrite He.
  destruct (json_getitem j "symbol") as [symbol|]; [ | reflexivity]. cbn [pd.rbind].
  destruct (json_getitem j "historical") as [historical|]; [ | reflexivity]. cbn [pd.rbind].
  destruct (pd.DataFrame_from_dict px historical) as [df|]; [ | reflexivity]. cbn [pd.rbind].
  destruct (pd.insert0 px "symbol" symbol df) as [df1|]; [ | reflexivity]. cbn [pd.rbind].
  destruct (pd.sort_values px "date" df1) as [df2|]; [ | reflexivity]. cbn [pd.rbind].
  destruct (pd.set_index "date" df2) as [df3|]; reflexivity.
Qed.

Lemma col_index_absent (k : string) (cols : list string) :
  ~ In k cols -> col_index k cols = None.
Proof.
  intros Hk. destruct (col_index k cols) as [i|] eqn:Hi; [ | reflexivity].
  destruct (col_index_nth _ _ _ Hi) as [Hnth Hlt]. exfalso. apply Hk.
  rewrite <- Hnth. now apply nth_In.
Qed.

(** What [_get_historical_fmp] raises under 200 on a body without the
    members it reads. *)
Lemma get_historical_malformed self url j w :
  net url = mkResponse 200 (Some j) ->
  (forall l, j = JObj l -> l <> [] -> assoc "symbol" l = None ->
     fst (_get_historical_fmp px net self url w) = Raise KeyError) /\
  (forall l sym, j = JObj l -> assoc "symbol" l = Some sym -> assoc "historical" l = None ->
     fst (_get_historical_fmp px net self url w) = Raise KeyError) /\
  (forall l sym rs, j = JObj l -> assoc "symbol" l = Some sym -> pd.is_scalar sym = true ->
     assoc "historical" l = Some (JArr (map JObj rs)) ->
     ~ In "symbol" (pd.union_keys rs) -> ~ In "date" (pd.union_keys rs) ->
     fst (_get_historical_fmp px net self url w) = Raise KeyError) /\
  (forall l sym rs, j = JObj l -> assoc "symbol" l = Some sym ->
     assoc "historical" l = Some (JArr (map JObj rs)) ->
     In "symbol" (pd.union_keys rs) ->
     fst (_get_historical_fmp px net self url w) = Raise ValueError) /\
  ((forall l, j <> JObj l) ->
     fst (_get_historical_fmp px net self url w) = Raise TypeError).
Proof.
  intros Hnet. repeat split.
  - intros l -> Hl Hs. rewrite (get_historical_200_steps self url _ w Hnet).
    + unfold json_getitem. now rewrite Hs.
    + destruct l; [congruence | reflexivity].
  - intros l sym -> Hs Hh. rewrite (get_historical_200_steps self url _ w Hnet).
    + unfold json_getitem. now rewrite Hs, Hh.
    + destruct l; [discriminate Hs | reflexivity].
  - intros l sym rs -> Hs Hsc Hh Hsym Hdate.
    rewrite (get_historical_200_steps self url _ w Hnet).
    + unfold json_getitem. rewrite Hs, Hh. cbn [pd.rbind].
      unfold pd.DataFrame_from_dict. rewrite as_records_objects. cbn [pd.rbind].
      unfold pd.insert0, has_column, pd.from_records. cbn [columns].
      rewrite (proj2 (mem_false "symbol" _) Hsym), Hsc. cbn [pd.rbind].
      unfold pd.sort_values. cbn [columns col_index].
      change (String.eqb "date" "symbol") with false. cbv iota.
      now rewrite (col_index_absent _ _ Hdate).
    + destruct l; [discriminate Hs | reflexivity].
  - intros l sym rs -> Hs Hh Hsym.
    rewrite (get_historical_200_steps self url _ w Hnet).
    + unfold json_getitem. rewrite Hs, Hh. cbn [pd.rbind].
      unfold pd.DataFrame_from_dict. rewrite as_records_objects. cbn [pd.rbind].
      unfold pd.insert0, has_column, pd.from_records. cbn [columns].
      now rewrite (proj2 (mem_In "symbol" _) Hsym).
    + destruct l; [discriminate Hs | reflexivity].
  - intros Hno. rewrite (get_historical_200_steps self url _ w Hnet).
    + destruct j; try reflexivity. now destruct (Hno l).
    + destruct j as [| | | | |[|m l]]; try reflexivity. now destruct (Hno []).
Qed.

(** X4: a 200 response whose body is not what the daily endpoint documents is
    not validated.  For every interval that is not intraday, supported or
    not, [historical_price_by_interval] raises [KeyError] when the body is an
    object without ['symbol'] or without ['historical'], or when no record
    under ['historical'] has a ['date'] (an empty list of records included:
    there is no column to sort by); [ValueError], as for an unsupported
    interval, when a record has a ['symbol'] of its own, which [insert]
    refuses; and [TypeError] when the body is not an object. *)
Theorem malformed_daily_body_errors self ticker interval j w :
  existsb (String.eqb interval) intraday_intervals = false ->
  net (daily_url_of self ticker) = mkResponse 200 (Some j) ->
  (forall l, j = JObj l -> l <> [] -> assoc "symbol" l = None ->
     fst (historical_price_by_interval px net self ticker interval w) = Raise KeyError) /\
  (forall l sym, j = JObj l -> assoc "symbol" l = Some sym -> assoc "historical" l = None ->
     fst (historical_price_by_interval px net self ticker interval w) = Raise KeyError) /\
  (forall l sym rs, j = JObj l -> assoc "symbol" l = Some sym -> pd.is_scalar sym = true ->
     assoc "historical" l = Some (JArr (map JObj rs)) ->
     ~ In "symbol" (pd.union_keys rs) -> ~ In "date" (pd.union_keys rs) ->
     fst (historical_price_by_interval px net self ticker interval w) = Raise KeyError) /\
  (forall l sym rs, j = JObj l -> assoc "symbol" l = Some sym ->
     assoc "historical" l = Some (JArr (map JObj rs)) ->
     In "symbol" (pd.union_keys rs) ->
     fst (historical_price_by_interval px net self ticker interval w) = Raise ValueError) /\
  ((forall l, j <> JObj l) ->
     fst (historical_price_by_interval px net self ticker interval w) = Raise TypeError).
Proof.
  intros Hi Hnet.
  destruct (get_historical_malformed self (daily_url_of self ticker) j w Hnet)
    as (H1 & H2 & H3 & H4 & H5).
  repeat split; intros; apply interval_fetch_raises; eauto.
Qed.

(** X5: an intraday chart comes back as it was received: one row per record in
    the order of the body, not sorted by date, under the positions 0, 1, 2,
    ... as the index; one column per key in order of first appearance, with
    a missing value where a record lacks the key. *)
Theorem intraday_rows_as_received self ticker interval rs w :
  In interval intraday_intervals ->
  net (fetched_url self ticker interval) = mkResponse 200 (Some (JArr (map JObj rs))) ->
  exists T,
    fst (historical_price_by_interval px net self ticker interval w) = Ok T /\
    index_name T = None /\
    index T = map (fun i => CInt (Z.of_nat i)) (seq 0 (length rs)) /\
    columns T = pd.union_keys rs /\
    (forall k, In k (pd.union_keys rs) <-> exists r, In r rs /\ In k (map fst r)) /\
    (forall k, In k (pd.union_keys rs) ->
               column k T = Some (map (fun r => cell_at r k) rs)).
Proof.
  intros Hin Hnet.
  assert (Hi : existsb (String.eqb interval) intraday_intervals = true).
  { apply existsb_exists. exists interval. split; [exact Hin | apply String.eqb_refl]. }
  exists (pd.from_records rs). split.
  - unfold fetched_url in Hnet. rewrite Hi in Hnet.
    unfold historical_price_by_interval. rewrite Hi.
    rewrite (get_df_ok px net self _ (JArr (map JObj rs)) w) by now rewrite Hnet.
    unfold pd.DataFrame_from_dict. now rewrite as_records_objects.
  - repeat split.
    + unfold index, pd.from_records. cbn [rows].
      clear Hnet. generalize (pd.union_keys rs) as keys. intros keys.
      generalize 0%nat as n.
      induction rs as [|r rs' IH]; intros n; [reflexivity | ].
      cbn [pd.record_rows map length seq pd.record_row fst]. f_equal. apply IH.
    + apply union_keys_In.
    + apply union_keys_In.
    + intros k Hk. destruct (col_index_In k _ Hk) as [i Hki].
      unfold column, pd.from_records. cbn [columns rows]. rewrite Hki. f_equal.
      apply record_rows_map. intros n r. unfold pd.record_row.
      exact (row_cell_keys _ (cell_at r) _ k i Hki).
Qed.

End Bodies.

(** ** The columns of the tables of prices *)

Section Columns.

Variable px : pd.ext.
Variable net : server.

(** A weekly, monthly, quarterly or yearly call as two column assignments
    and [drop_duplicates] on the table of the daily call. *)
Lemma bucket_call_form self ticker interval j sym rs w D :
  net (daily_url_of self ticker) = mkResponse 200 (Some j) ->
  payload_records j = Some (sym, rs) ->
  wf_payload j = true ->
  daily_result sym rs = Ok D ->
  In interval bucketed_intervals ->
  buckets_readable px interval (dates_of rs) = true ->
  fst (historical_price_by_interval px net self ticker interval w)
  = pd.rbind (pd.setitem "daily" (map CTime (dates_of rs)) D)
      (fun D1 =>
         pd.rbind (pd.setitem (bucket_column interval)
                     (map (bucket_cell interval) (dates_of rs)) D1)
                  (pd.drop_duplicates (bucket_column interval))).
Proof.
  intros Hnet Hp Hw HD Hin Hok.
  destruct (payload_records_wf j sym rs Hp Hw) as (Hne & Hr & _).
  destruct (daily_result_spec sym rs Hne Hr) as (D' & HD' & Hname & Hidx & _ & _ & Hsh & _).
  rewrite HD in HD'. injection HD' as <-.
  assert (Hlen : length (map CTime (dates_of rs)) = length (rows D)).
  { rewrite length_map, dates_of_length, <- index_length, Hidx. now rewrite length_map. }
  destruct (setitem_spec "daily" (map CTime (dates_of rs)) D Hsh Hlen)
    as (D1 & HD1 & _ & _ & Hcol1 & _).
  rewrite HD1. cbn [pd.rbind].
  unfold historical_price_by_interval. fold (daily_url_of self ticker).
  simpl in Hin. destruct Hin as [<-|[<-|[<-|[<-|[]]]]];
    eval_string_tests;
    rewrite (daily_steps px net self ticker j sym rs w _ D Hnet Hp Hw HD);
    unfold bind, lift;
    rewrite Hidx, (to_datetime_index px rs Hr), HD1, (getitem_column _ _ _ Hcol1).
  - change (pd.dt_to_period px "w" (map CTime (dates_of rs)))
      with (Ok (map (fun c => match c with
                              | CTime d => CPeriod FW (week_start d)
                              | _ => CNaN
                              end) (map CTime (dates_of rs)))).
    rewrite !map_map. rewrite (start_time_weeks px _ Hok).
    unfold bucket_column, bucket_cell. eval_string_tests.
    now destruct (pd.setitem "week" _ D1).
  - unfold pd.astype_month.
    revert Hok. unfold buckets_readable. eval_string_tests.
    destruct (pd.cast_month px); [intros _ | discriminate].
    unfold bucket_column, bucket_cell. eval_string_tests.
    now destruct (pd.setitem "monthly" _ D1).
  - change (pd.dt_to_period px "q" (map CTime (dates_of rs)))
      with (Ok (map (fun c => match c with
                              | CTime d => CPeriod FQ (quarter_start d)
                              | _ => CNaN
                              end) (map CTime (dates_of rs)))).
    rewrite !map_map.
    unfold bucket_column, bucket_cell. eval_string_tests.
    now destruct (pd.setitem "quarter" _ D1).
  - unfold pd.dt_year. rewrite !map_map.
    unfold bucket_column, bucket_cell. eval_string_tests.
    now destruct (pd.setitem "year" _ D1).
Qed.

Lemma setitem_fresh_columns (name : string) (values : list cell) (df df' : DataFrame) :
  pd.setitem name values df = Ok df' -> ~ In name (columns df) ->
  columns df' = columns df ++ [name].
Proof.
  intros H Hn. unfold pd.setitem in H.
  destruct (negb (length values =? length (rows df))%nat); [discriminate | ].
  destruct (col_index name (columns df)) as [i|] eqn:Hi.
  - destruct (col_index_nth _ _ _ Hi) as [Hnth Hlt]. exfalso. apply Hn.
    rewrite <- Hnth. now apply nth_In.
  - now injection H as <-.
Qed.

(** X6: the columns of the tables of prices.  The daily table has ['symbol']
    first, then the keys of the records without ['date'], in order of first
    appearance, then ['pct change']; the weekly, monthly, quarterly and
    yearly tables, where the call returns one (no week that starts before
    the first day a timestamp can hold for ['1w'], a pandas that accepts
    the cast to months for ['1m']), keep these and end with the two columns
    the client computes on the way, ['daily'] and the bucket. *)
Theorem price_table_columns self ticker interval j sym rs w :
  net (daily_url_of self ticker) = mkResponse 200 (Some j) ->
  payload_records j = Some (sym, rs) ->
  wf_payload j = true ->
  ~ In "pct change" (value_keys rs) ->
  exists D,
    fst (historical_price_by_interval px net self ticker "1d" w) = Ok D /\
    columns D = "symbol" :: value_keys rs ++ ["pct change"] /\
    (In interval bucketed_intervals ->
     buckets_readable px interval (dates_of rs) = true ->
     ~ In "daily" (value_keys rs) ->
     ~ In (bucket_column interval) (value_keys rs) ->
     exists T,
       fst (historical_price_by_interval px net self ticker interval w) = Ok T /\
       columns T = "symbol" :: value_keys rs
                   ++ ["pct change"; "daily"; bucket_column interval]).
Proof.
  intros Hnet Hp Hw Hpct.
  destruct (payload_records_wf j sym rs Hp Hw) as (Hne & Hr & _).
  destruct (daily_result_spec sym rs Hne Hr) as (D & HD & _ & Hidx & _ & _ & Hsh & Hcols).
  assert (HcD : columns D = "symbol" :: value_keys rs ++ ["pct change"]).
  { destruct Hcols as [Hc|[_ Hc]]; [ | exact Hc].
    unfold daily_result in HD.
    apply (setitem_fresh_columns _ _ _ _ HD).
    cbn [daily_frame columns]. intros [H|H]; [discriminate H | contradiction]. }
  exists D. split; [ | split; [exact HcD | ]].
  - now rewrite (daily_call px net self ticker j sym rs w D Hnet Hp Hw HD).
  - intros Hin Hok Hdaily Hbucket.
    pose proof (bucket_call_form self ticker interval j sym rs w D Hnet Hp Hw HD Hin Hok)
      as Hf.
    assert (Hlen : length (map CTime (dates_of rs)) = length (rows D)).
    { rewrite length_map, dates_of_length, <- index_length, Hidx. now rewrite length_map. }
    destruct (setitem_spec "daily" (map CTime (dates_of rs)) D Hsh Hlen)
      as (D1 & HD1 & _ & Hidx1 & _ & _ & Hsh1 & _).
    rewrite HD1 in Hf. cbn [pd.rbind] in Hf.
    assert (Hlen1 : length (map (bucket_cell interval) (dates_of rs)) = length (rows D1)).
    { rewrite <- index_length, Hidx1, index_length, <- Hlen. now rewrite !length_map. }
    destruct (setitem_spec (bucket_column interval)
                (map (bucket_cell interval) (dates_of rs)) D1 Hsh1 Hlen1)
      as (D2 & HD2 & _ & _ & Hcol2 & _).
    rewrite HD2 in Hf. cbn [pd.rbind] in Hf.
    destruct (drop_duplicates_spec (bucket_column interval) D2 _ Hcol2)
      as (T & HT & _ & HcT & _).
    exists T. split; [now rewrite Hf | ].
    assert (Hb : bucket_column interval <> "symbol" /\ bucket_column interval <> "pct change"
                 /\ bucket_column interval <> "daily").
    { simpl in Hin. destruct Hin as [<-|[<-|[<-|[<-|[]]]]]; repeat split; discriminate. }
    destruct Hb as (Hb1 & Hb2 & Hb3).
    rewrite HcT.
    rewrite (setitem_fresh_columns _ _ _ _ HD2), (setitem_fresh_columns _ _ _ _ HD1), HcD.
    + cbn [app]. now rewrite <- !app_assoc.
    + rewrite HcD. intros [H|H]; [discriminate H | ].
      apply in_app_or in H. destruct H as [H|[H|[]]]; [contradiction | discriminate H].
    + rewrite (setitem_fresh_columns _ _ _ _ HD1), HcD.
      * intros H. apply in_app_or in H. destruct H as [[H|H]|[H|[]]]; try congruence.
        apply in_app_or in H. destruct H as [H|[H|[]]]; [contradiction | congruence].
      * rewrite HcD. intros [H|H]; [discriminate H | ].
        apply in_app_or in H. destruct H as [H|[H|[]]]; [contradiction | discriminate H].
Qed.

End Columns.

(** ** Weeks *)

Section Weeks.

Variable px : pd.ext.
Variable net : server.

Open Scope Z_scope.

Lemma week_start_monday (d : date) :
  valid_date d = true ->
  weekday (week_start d) = 0 /\
  0 <= days_from_civil d - days_from_civil (week_start d) <= 6 /\
  date_leb (week_start d) d = true.
Proof.
  intros Hv. destruct (week_start_spec d Hv) as [Hv' Hd].
  pose proof (weekday_range d) as Hr.
  split; [ | split].
  - unfold weekday in *. rewrite Hd.
    Z.to_euclidean_division_equations. lia.
  - lia.
  - apply (days_from_civil_le _ _ Hv' Hv). lia.
Qed.

(** X7: the weeks of the weekly table start on Monday: when no week of the
    daily data starts before the first day a timestamp can hold, the
    ['week'] column holds, for every row, the Monday on or before the date
    of the row, at most six days back. *)
Theorem weekly_rows_start_on_monday self ticker j sym rs w :
  net (daily_url_of self ticker) = mkResponse 200 (Some j) ->
  payload_records j = Some (sym, rs) ->
  wf_payload j = true ->
  weeks_in_bounds (dates_of rs) = true ->
  exists T kept,
    fst (historical_price_by_interval px net self ticker "1w" w) = Ok T /\
    map label_date (index T) = map Some kept /\
    column "week" T = Some (map (fun d => CTime (week_start d)) kept) /\
    (forall d, In d kept ->
       weekday (week_start d) = 0 /\
       0 <= days_from_civil d - days_from_civil (week_start d) <= 6 /\
       date_leb (week_start d) d = true).
Proof.
  intros Hnet Hp Hw Hweeks.
  destruct (payload_records_wf j sym rs Hp Hw) as (Hne & Hr & _).
  destruct (daily_result_spec sym rs Hne Hr) as (D & HD & _ & Hidx & _).
  destruct (bucket_call px net self ticker "1w" j sym rs w D Hnet Hp Hw HD)
    as (T & HT & _ & HiT & HcT & _); [simpl; tauto | exact Hweeks | ].
  set (mask := first_mask (map (bucket_cell "1w") (dates_of rs))) in *.
  exists T, (pick mask (dates_of rs)).
  split; [now rewrite HT | ]. split; [ | split].
  - rewrite HiT, Hidx, pick_map, (index_labels rs Hr). symmetry. apply pick_map.
  - change (bucket_column "1w") with "week"%string in HcT. rewrite HcT.
    f_equal. symmetry. apply (pick_map (fun d => CTime (week_start d))).
  - intros d Hd. apply week_start_monday.
    apply (dates_of_valid rs d Hr). eapply pick_In. exact Hd.
Qed.

End Weeks.

(** ** The period a ticker starts in *)

Section EarliestPeriod.

Variable px : pd.ext.
Variable net : server.

(** The rows that open a period, by the first day of their period: in
    strictly ascending order. *)
Lemma period_firsts_sorted (period t : string) (j : json) :
  wf_payload j = true -> fresh_labels t j ->
  StronglySorted (fun a b => date_leb a b = true /\ a <> b)
    (map (fun y => period_start period (snd y))
         (period_firsts (period_cell period) (payload_table j) (payload_dates j))).
Proof.
  intros Hw Hfresh.
  destruct (wf_payload_inv j Hw) as (l & sym & h & r & rs' & _ & _ & _ & _ & Hp & _ & _).
  destruct (payload_records_wf j sym _ Hp Hw) as (Hne & Hr & _).
  destruct (payload_table_spec px t j sym _ Hp Hw Hfresh)
    as (_ & _ & _ & _ & _ & _ & Hlen & _).
  rewrite (payload_dates_eq j sym _ Hp) in *.
  set (rs := r :: rs') in *.
  unfold period_firsts.
  rewrite <- (map_map snd (period_start period)), pick_map.
  rewrite (map_snd_combine (rows (payload_table j)) (dates_of rs) Hlen).
  set (mask := first_mask (map (period_cell period) (dates_of rs))).
  destruct (first_mask_nodup (period_cell period) (period_start period)
              (period_cell_eq period) [] (dates_of rs)) as [Hnd _].
  apply sorted_nodup_strict; [ | exact Hnd].
  eapply sorted_map; [ | exact (pick_sorted _ mask _ (dates_of_sorted rs Hr))].
  intros a b Ha Hb Hab. simpl.
  apply period_start_mono; [ | | exact Hab];
    apply (dates_of_valid rs _ Hr); eapply pick_In; eassumption.
Qed.

(** The period of the oldest record of a ticker has no return: the change
    of its first row is undefined, and the row is dropped. *)
Lemma earliest_period_absent (period t : string) (j : json) (d0 : date) (ds : list date) :
  wf_payload j = true -> fresh_labels t j ->
  payload_dates j = d0 :: ds ->
  ~ In (period_start period d0) (payload_periods period j).
Proof.
  intros Hw Hfresh Hd.
  pose proof (period_firsts_sorted period t j Hw Hfresh) as Hs.
  destruct (wf_payload_inv j Hw) as (l & sym & h & r & rs' & _ & _ & _ & _ & Hp & _ & _).
  destruct (payload_table_spec px t j sym _ Hp Hw Hfresh)
    as (_ & _ & _ & _ & _ & _ & Hlen & _).
  rewrite <- (payload_dates_eq j sym _ Hp), Hd in Hlen.
  unfold payload_periods. revert Hs. unfold period_firsts. rewrite Hd.
  destruct (rows (payload_table j)) as [|r0 rows']; [discriminate Hlen | ].
  unfold first_mask. cbn [map first_mask_from existsb combine pick].
  set (firsts' := pick _ (combine rows' ds)).
  set (a := adj_position (payload_table j)).
  unfold period_changes, pct_cells. cbn [map prev_pairs combine fst snd].
  rewrite pct_cell_first.
  assert (Hc : complete (snd r0 ++ [CNaN]) = false).
  { unfold complete. rewrite existsb_app. cbn [existsb is_na]. now rewrite orb_true_r. }
  cbn [List.filter fst snd]. rewrite Hc.
  intros Hs Hin. inversion Hs as [|? ? _ Hall]; subst.
  rewrite List.Forall_forall in Hall.
  apply in_map_iff in Hin. destruct Hin as [[y c] [Heq Hy]].
  apply filter_In in Hy. destruct Hy as [Hy _]. apply in_combine_l in Hy.
  cbn [fst snd] in Heq.
  destruct (Hall (period_start period (snd y))) as [_ Hne].
  - apply in_map_iff. exists y. split; [reflexivity | exact Hy].
  - congruence.
Qed.

(** X12: the first period of a ticker is lost: in the table
    [get_multiple_returns] returns, the column of a ticker has a missing
    value in the row of the period of its oldest record, and that period has
    a row only when another ticker has a return for it. *)
Theorem earliest_period_has_no_return
    self (tickers : nat) (ts : list string) period cwi w (bodies : string -> json) :
  heap w !! tickers = Some ts ->
  symbols_of ts cwi <> [] ->
  List.NoDup (symbols_of ts cwi) ->
  In period supported_periods ->
  (forall t, In t (symbols_of ts cwi) ->
     net (daily_url t (_key self)) = mkResponse 200 (Some (bodies t)) /\
     wf_payload (bodies t) = true /\ fresh_labels t (bodies t)) ->
  exists T,
    fst (get_multiple_returns px net self tickers period cwi w) = Ok T /\
    forall t d0 ds,
      In t (symbols_of ts cwi) -> payload_dates (bodies t) = d0 :: ds ->
      let p0 := CPeriod (period_freq period) (period_start period d0) in
      (exists col,
         column t T = Some col /\
         forall n, nth_error (index T) n = Some p0 -> nth_error col n = Some CNaN) /\
      (In p0 (index T) ->
       exists t', In t' (symbols_of ts cwi) /\ t' <> t /\
                  In (period_start period d0) (payload_periods period (bodies t'))).
Proof.
  intros Hts Hne Hnd Hper Hall.
  destruct (multiple_returns_outcome px net self tickers ts period cwi w
              (fun _ => 200%Z) bodies Hts Hper) as [_ Hout].
  { intros t Ht. destruct (Hall t Ht) as (Hn & Hw & Hf). auto. }
  assert (Hc : all_200 (fun _ => 200%Z) (symbols_of ts cwi) = true)
    by (apply all_200_true; reflexivity).
  specialize (Hout Hc Hne Hnd).
  set (symbols := symbols_of ts cwi) in *.
  set (f := period_freq period) in *.
  set (R := fun s => payload_returns period (bodies s)) in *.
  set (E := fun s => payload_periods period (bodies s)) in *.
  set (o := pd.outer_order px) in *.
  exists (returns_table f R symbols (all_periods o E symbols)).
  split; [exact Hout | ].
  intros t d0 ds Ht Hd p0.
  destruct (Hall t Ht) as (_ & Hw & Hf).
  pose proof (earliest_period_absent period t (bodies t) d0 ds Hw Hf Hd) as Habs.
  assert (Hix : index (returns_table f R symbols (all_periods o E symbols))
                = map (CPeriod f) (all_periods o E symbols)).
  { unfold index, returns_table. cbn [rows]. now rewrite map_map. }
  split.
  - eexists. split; [apply (returns_table_column f R symbols _ t Ht) | ].
    intros n Hn. rewrite Hix, nth_error_map in Hn. rewrite nth_error_map.
    destruct (nth_error (all_periods o E symbols) n) as [d|]; [ | discriminate Hn].
    cbn [option_map] in *. injection Hn as Hn. subst d. f_equal.
    apply (lookup_absent f R E t); [ | exact Habs].
    apply (payload_keyed px period bodies t Hw Hf).
  - rewrite Hix. intros Hin. apply in_map_iff in Hin. destruct Hin as [d [Hd' Hin]].
    injection Hd' as ->.
    apply (all_periods_In E) in Hin. destruct Hin as [t' [Ht' Hin]].
    exists t'. split; [exact Ht' | ]. split; [ | exact Hin].
    intros ->. contradiction.
Qed.

End EarliestPeriod.

(** ** A ticker fetched twice *)

Section IndexOnTheList.

Variable px : pd.ext.
Variable net : server.



End IndexOnTheList.

(** Where the suffixed label is the name of another ticker of the list:
    with the tickers GAP and GAP_x on the list and GAP as the index, the
    left side bears the label ['GAP_x'] twice.  pandas 1.5 returns the
    table with both; pandas 2.0 and 2.2 refuse the merge. *)
Lemma suffixed_label_taken :
  (exists T,
     fst (get_multiple_returns Fixture.px Scenario.gaps Fixture.self 0%nat "M" (PStr "GAP")
            (mkWorld (<[0%nat := ["GAP"; "GAP_x"]]> ∅) [] [])) = Ok T /\
     columns T = ["GAP_x"; "GAP_x"; "GAP_y"]) /\
  fst (get_multiple_returns Fixture.px20 Scenario.gaps Fixture.self 0%nat "M" (PStr "GAP")
         (mkWorld (<[0%nat := ["GAP"; "GAP_x"]]> ∅) [] [])) = Raise ValueError /\
  fst (get_multiple_returns Fixture.px22 Scenario.gaps Fixture.self 0%nat "M" (PStr "GAP")
         (mkWorld (<[0%nat := ["GAP"; "GAP_x"]]> ∅) [] [])) = Raise ValueError.
Proof.
  split; [eexists; split; vm_compute; reflexivity | ].
  split; vm_compute; reflexivity.
Qed.
(** ** Coarser buckets keep fewer rows *)

Section Coarser.

Lemma NoDup_map_inj {A B} (g : A -> B) (l : list A) (x y : A) :
  List.NoDup (map g l) -> In x l -> In y l -> g x = g y -> x = y.
Proof.
  induction l as [|z l IH]; intros Hnd Hx Hy Hg; [destruct Hx | ].
  inversion Hnd as [|? ? Hz Hnd']; subst.
  destruct Hx as [->|Hx], Hy as [->|Hy]; try reflexivity.
  - exfalso. apply Hz. rewrite Hg. now apply in_map.
  - exfalso. apply Hz. rewrite <- Hg. now apply in_map.
  - now apply IH.
Qed.

(** When the buckets of [fine] refine those of [coarse], a date that opens
    a coarse bucket opens a fine one. *)
Lemma kept_coarser (coarse fine : string) (l : list date) :
  (forall a b, bucket_start fine a = bucket_start fine b ->
               bucket_start coarse a = bucket_start coarse b) ->
  StronglySorted (fun a b => date_leb a b = true) l ->
  forall d, In d (pick (first_mask (map (bucket_cell coarse) l)) l) ->
            In d (pick (first_mask (map (bucket_cell fine) l)) l).
Proof.
  intros Href Hs d Hd.
  pose proof (pick_In _ _ _ Hd) as Hdl.
  destruct (first_mask_covers (bucket_cell fine) (bucket_start fine) (bucket_cell_eq fine)
              (fun a b => date_leb a b = true) [] l Hs d Hdl) as [[]|[k [Hk [Hg Hle]]]].
  destruct Hle as [->|Hle]; [exact Hk | ].
  pose proof (pick_In _ _ _ Hk) as Hkl.
  destruct (first_mask_covers (bucket_cell coarse) (bucket_start coarse)
              (bucket_cell_eq coarse) (fun a b => date_leb a b = true) [] l Hs k Hkl)
    as [[]|[k' [Hk' [Hf Hle']]]].
  destruct (first_mask_nodup (bucket_cell coarse) (bucket_start coarse)
              (bucket_cell_eq coarse) [] l) as [Hnd _].
  assert (Hdk' : k' = d).
  { apply (NoDup_map_inj (bucket_start coarse) _ k' d Hnd Hk' Hd).
    rewrite Hf. now apply Href. }
  subst k'.
  assert (Hdk : d = k).
  { destruct Hle' as [->|Hle']; [reflexivity | now apply date_leb_antisym]. }
  now subst k.
Qed.

Lemma quarter_refines_year (a b : date) :
  bucket_start "1q" a = bucket_start "1q" b -> bucket_start "1y" a = bucket_start "1y" b.
Proof.
  unfold bucket_start. cbn. unfold quarter_start, year_start. intros [= Hy _]. now rewrite Hy.
Qed.

Variable px : pd.ext.
Variable net : server.

(** X8: the yearly rows are among the quarterly rows: the row that opens a
    year opens its quarter. *)
Theorem yearly_rows_among_quarterly self ticker j sym rs w :
  net (daily_url_of self ticker) = mkResponse 200 (Some j) ->
  payload_records j = Some (sym, rs) ->
  wf_payload j = true ->
  exists Tq Ty kq ky,
    fst (historical_price_by_interval px net self ticker "1q" w) = Ok Tq /\
    fst (historical_price_by_interval px net self ticker "1y" w) = Ok Ty /\
    map label_date (index Tq) = map Some kq /\
    map label_date (index Ty) = map Some ky /\
    kq = pick (first_mask (map (bucket_cell "1q") (dates_of rs))) (dates_of rs) /\
    ky = pick (first_mask (map (bucket_cell "1y") (dates_of rs))) (dates_of rs) /\
    (forall d, In d ky -> In d kq).
Proof.
  intros Hnet Hp Hw.
  destruct (payload_records_wf j sym rs Hp Hw) as (Hne & Hr & _).
  destruct (daily_result_spec sym rs Hne Hr) as (D & HD & _ & Hidx & _).
  pose proof (dates_of_sorted rs Hr) as Hs.
  assert (Hcall : forall interval, In interval ["1q"; "1y"] ->
            exists T,
              fst (historical_price_by_interval px net self ticker interval w) = Ok T /\
              map label_date (index T)
              = map Some (pick (first_mask (map (bucket_cell interval) (dates_of rs)))
                               (dates_of rs))).
  { intros interval Hin.
    destruct (bucket_call px net self ticker interval j sym rs w D Hnet Hp Hw HD)
      as (T & HT & _ & HiT & _).
    - simpl in *. tauto.
    - simpl in Hin. destruct Hin as [<-|[<-|[]]]; reflexivity.
    - exists T. split; [now rewrite HT | ].
      rewrite HiT, pick_map, Hidx, (index_labels rs Hr). symmetry. apply pick_map. }
  destruct (Hcall "1q") as (Tq & Hq & Hiq); [simpl; tauto | ].
  destruct (Hcall "1y") as (Ty & Hy & Hiy); [simpl; tauto | ].
  exists Tq, Ty. do 2 eexists.
  repeat split; try eassumption.
  apply (kept_coarser "1y" "1q" _ quarter_refines_year Hs).
Qed.

End Coarser.

(** ** The extra properties on concrete servers *)

Lemma historical_price_by_interval_prints_witness :
  stdout (snd (historical_price_by_interval Fixture.px Fixture.net Fixture.self
                 (PStr "MSFT") "1d" Fixture.w0))
  = [LineResponse (JObj [("Error Message", JStr "Not Found")])] /\
  stdout (snd (historical_price_by_interval Fixture.px Fixture.net Fixture.self
                 (PStr "EMPTY") "1w" Fixture.w0))
  = [LineEmpty PNone].
Proof.
  split.
  - apply (historical_price_by_interval_prints Fixture.px Fixture.net Fixture.self
             (PStr "MSFT") "1d" Fixture.w0).
    + reflexivity.
    + discriminate.
  - apply (historical_price_by_interval_prints Fixture.px Fixture.net Fixture.self
             (PStr "EMPTY") "1w" Fixture.w0); reflexivity.
Defined.

Lemma non_json_body_JSONDecodeError_witness :
  fst (_get_df Fixture.px Scenario.down Fixture.self "u" Fixture.w0) = Raise JSONDecodeError /\
  fst (historical_price_by_interval Fixture.px Scenario.down Fixture.self (PStr "AAPL") "1m"
         Fixture.w0) = Raise JSONDecodeError.
Proof.
  destruct (non_json_body_JSONDecodeError Fixture.px Scenario.down Fixture.self "u"
              (PStr "AAPL") "1m" Fixture.w0) as [H1 H2].
  destruct (H1 eq_refl) as [Hdf _]. rewrite Hdf, (H2 eq_refl). split; reflexivity.
Defined.

Lemma get_multiple_returns_empty_TypeError_witness :
  heap Fixture.w0 !! 2%nat = Some [] /\
  get_multiple_returns Fixture.px Fixture.net Fixture.self 2%nat "M" PNone Fixture.w0
  = (Raise TypeError, Fixture.w0).
Proof.
  split; [reflexivity | ].
  apply (get_multiple_returns_empty_TypeError Fixture.px Fixture.net Fixture.self 2%nat "M"
           Fixture.w0).
  reflexivity.
Defined.

Lemma compare_with_index_is_one_more_ticker_witness :
  fst (get_multiple_returns Fixture.px Fixture.net Fixture.self 2%nat "M" (PStr "GAP")
         Fixture.w0)
  = fst (get_multiple_returns Fixture.px Fixture.net Fixture.self 1%nat "M" PNone
           Fixture.w0).
Proof.
  apply (compare_with_index_is_one_more_ticker Fixture.px Fixture.net Fixture.self
           2%nat 1%nat [] "M" "GAP" Fixture.w0 Fixture.w0); reflexivity.
Defined.

Lemma get_multiple_returns_requests_witness :
  exists n,
    http_log (snd (get_multiple_returns Fixture.px Fixture.net Fixture.self 0%nat "M"
                     (PStr "SPY") Fixture.w0))
    = http_log Fixture.w0
      ++ map (fun t => daily_url t "k") (firstn n ["AAPL"; "SPY"]).
Proof.
  destruct (get_multiple_returns_requests Fixture.px Fixture.net Fixture.self 0%nat ["AAPL"]
              "M" (PStr "SPY") Fixture.w0 eq_refl) as (n & _ & H & _).
  exists n. exact H.
Defined.

Lemma malformed_daily_body_errors_witness :
  fst (historical_price_by_interval Fixture.px Fixture.net Fixture.self (PStr "LIMIT") "1q"
         Fixture.w0) = Raise KeyError.
Proof.
  destruct (malformed_daily_body_errors Fixture.px Fixture.net Fixture.self (PStr "LIMIT")
              "1q" (JObj [("Error Message", JStr "Limit Reach")]) Fixture.w0 eq_refl eq_refl)
    as (H & _).
  apply (H [("Error Message", JStr "Limit Reach")]); [reflexivity | discriminate | reflexivity].
Defined.

Lemma intraday_rows_as_received_witness :
  exists T,
    fst (historical_price_by_interval Fixture.px Scenario.chart Fixture.self (PStr "AAPL")
           "1hour" Fixture.w0) = Ok T /\
    index T = [CInt 0; CInt 1] /\
    columns T = ["date"; "close"; "volume"] /\
    column "volume" T = Some [CNum 7; CNaN].
Proof.
  destruct (intraday_rows_as_received Fixture.px Scenario.chart Fixture.self (PStr "AAPL")
              "1hour" Scenario.bars Fixture.w0)
    as (T & HT & _ & Hi & Hc & _ & Hcol).
  - simpl. tauto.
  - reflexivity.
  - exists T. repeat split; [exact HT | exact Hi | exact Hc | ].
    apply (Hcol "volume"). simpl. tauto.
Defined.

Lemma price_table_columns_witness :
  exists D T,
    fst (historical_price_by_interval Fixture.px Fixture.net Fixture.self (PStr "AAPL") "1d"
           Fixture.w0) = Ok D /\
    columns D = ["symbol"; "close"; "adjClose"; "pct change"] /\
    fst (historical_price_by_interval Fixture.px Fixture.net Fixture.self (PStr "AAPL") "1w"
           Fixture.w0) = Ok T /\
    columns T = ["symbol"; "close"; "adjClose"; "pct change"; "daily"; "week"].
Proof.
  assert (Hno : forall k, k <> "close" -> k <> "adjClose" ->
                  ~ In k (value_keys Scenario.aapl_records)).
  { intros k H1 H2 H. vm_compute in H. destruct H as [H|[H|[]]]; congruence. }
  destruct (price_table_columns Fixture.px Fixture.net Fixture.self (PStr "AAPL") "1w"
              Fixture.aapl (JStr "AAPL") Scenario.aapl_records Fixture.w0
              eq_refl eq_refl eq_refl)
    as (D & HD & Hc & HT).
  - apply Hno; discriminate.
  - destruct HT as (T & HT & HcT).
    + simpl. tauto.
    + reflexivity.
    + apply Hno; discriminate.
    + apply Hno; discriminate.
    + exists D, T. repeat split; assumption.
Defined.

Lemma weekly_rows_start_on_monday_witness :
  exists T kept,
    fst (historical_price_by_interval Fixture.px Fixture.net Fixture.self (PStr "AAPL") "1w"
           Fixture.w0) = Ok T /\
    column "week" T = Some (map (fun d => CTime (week_start d)) kept) /\
    forall d, In d kept -> weekday (week_start d) = 0%Z.
Proof.
  destruct (weekly_rows_start_on_monday Fixture.px Fixture.net Fixture.self (PStr "AAPL")
              Fixture.aapl (JStr "AAPL") Scenario.aapl_records Fixture.w0
              eq_refl eq_refl eq_refl eq_refl)
    as (T & kept & HT & _ & Hc & H).
  exists T, kept. split; [exact HT | ]. split; [exact Hc | ].
  intros d Hd. now destruct (H d Hd).
Defined.

Lemma earliest_period_has_no_return_witness :
  exists T,
    fst (get_multiple_returns Fixture.px Fixture.net Fixture.self 0%nat "M" (PStr "SPY")
           Fixture.w0) = Ok T /\
    exists col,
      column "AAPL" T = Some col /\
      forall n, nth_error (index T) n = Some (CPeriod FM (mkDate 2020 12 1)) ->
                nth_error col n = Some CNaN.
Proof.
  destruct (earliest_period_has_no_return Fixture.px Fixture.net Fixture.self 0%nat ["AAPL"]
              "M" (PStr "SPY") Fixture.w0 Fixture.bodies)
    as (T & HT & H).
  - reflexivity.
  - discriminate.
  - repeat constructor; simpl; intros H;
      repeat (destruct H as [H|H]; [discriminate H | ]); exact H.
  - simpl. tauto.
  - intros t Ht. split; [ | split].
    + destruct Ht as [<-|[<-|[]]]; reflexivity.
    + destruct Ht as [<-|[<-|[]]]; reflexivity.
    + apply fixture_fresh_labels. simpl in *. tauto.
  - exists T. split; [exact HT | ].
    destruct (H "AAPL" (mkDate 2020 12 31)
                [mkDate 2021 1 4; mkDate 2021 1 29; mkDate 2021 2 1; mkDate 2021 2 2])
      as [Hcol _].
    + simpl. tauto.
    + reflexivity.
    + exact Hcol.
Defined.


Lemma yearly_rows_among_quarterly_witness :
  exists Tq Ty,
    fst (historical_price_by_interval Fixture.px Fixture.net Fixture.self (PStr "AAPL") "1q"
           Fixture.w0) = Ok Tq /\
    fst (historical_price_by_interval Fixture.px Fixture.net Fixture.self (PStr "AAPL") "1y"
           Fixture.w0) = Ok Ty /\
    map label_date (index Tq) = [Some (mkDate 2020 12 31); Some (mkDate 2021 1 4)] /\
    map label_date (index Ty) = [Some (mkDate 2020 12 31); Some (mkDate 2021 1 4)].
Proof.
  destruct (yearly_rows_among_quarterly Fixture.px Fixture.net Fixture.self
              (PStr "AAPL") Fixture.aapl (JStr "AAPL") Scenario.aapl_records Fixture.w0
              eq_refl eq_refl eq_refl)
    as (Tq & Ty & kq & ky & Hq & Hy & Hiq & Hiy & Hkq & Hky & _).
  exists Tq, Ty. rewrite Hiq, Hiy, Hkq, Hky. repeat split; assumption.
Defined.
